(** * highlight-checker: the game-record pipeline of [src/main.py]

    A shallow embedding of the ESPN post-processing code of the NBA
    highlight backend: integer coercion ([_to_int]), box-score extraction
    ([_lookup], [_collect_players]), the leaders fallback
    ([_fallback_leaders]), series reconstruction ([_SERIES_RE], [_TIED_RE],
    [_match_team_to_abbr], [_series_before_game]) and record assembly
    ([_evaluate_games]), followed by the properties of these functions.

    Modelling conventions.
    - An upstream document is a [json] value, the result of [resp.json()].
      A Python [dict] is an association list in insertion order; [assoc]
      returns the binding a lookup finds.
    - Python text is held as its UTF-8 bytes in a Rocq [string]; its
      characters are its code points ([chars_of]). Case mapping
      ([str.lower], [str.upper], [re.I]), the white-space class and the
      digit class are those of the ASCII range, where they are Python's;
      bytes above 127 are left alone and belong to neither class. The
      Unicode tables of the interpreter are not part of the source: a
      property that depends on these functions is stated for ASCII text
      ([is_ascii]).
    - A Python exception is a [Raise e] result; every function that can
      raise returns a [result].
    - [int] is unbounded ([Z]); [int(text)] refuses a text of more than
      [default_max_str_digits] digits, as CPython does. *)

From Stdlib Require Import ZArith List String Ascii Bool Lia.
From Stdlib Require Import Numbers.DecimalString.
Import ListNotations.

Set Warnings "-register-all".

Local Open Scope string_scope.
Local Open Scope list_scope.
Local Open Scope Z_scope.

(** ** Python values *)

Module Py.

(** A float is [m * 2^e], an infinity or a NaN. *)
Inductive pyfloat : Type :=
| FNum (m e : Z)
| FInf (negative : bool)
| FNan.

Inductive json : Type :=
| JNull
| JBool (b : bool)
| JInt (z : Z)
| JFloat (f : pyfloat)
| JStr (s : string)
| JList (l : list json)
| JDict (d : list (string * json)).

Inductive exn : Type :=
| TypeError | ValueError | KeyError | IndexError | AttributeError
| OverflowError.

Inductive result (A : Type) : Type :=
| Ok (a : A)
| Raise (e : exn).
Arguments Ok {A} a.
Arguments Raise {A} e.

Definition bind {A B} (c : result A) (k : A -> result B) : result B :=
  match c with
  | Ok a => k a
  | Raise e => Raise e
  end.

Fixpoint foldM {A S} (f : S -> A -> result S) (l : list A) (s : S)
  : result S :=
  match l with
  | [] => Ok s
  | x :: rest => bind (f s x) (foldM f rest)
  end.

Fixpoint mapM {A B} (f : A -> result B) (l : list A) : result (list B) :=
  match l with
  | [] => Ok []
  | x :: rest =>
      bind (f x) (fun y => bind (mapM f rest) (fun ys => Ok (y :: ys)))
  end.

End Py.
Export Py.

Declare Scope py_scope.
Delimit Scope py_scope with py.
Notation "x <- c ;; k" := (bind c (fun x => k))
  (at level 61, c at next level, right associativity) : py_scope.
Notation "' pat <- c ;; k" := (bind c (fun x => match x with pat => k end))
  (at level 61, pat pattern, c at next level, right associativity) : py_scope.
Local Open Scope py_scope.

(** ** Text *)

Module Text.

Definition code (c : ascii) : nat := nat_of_ascii c.

Definition is_upper (c : ascii) : bool :=
  (65 <=? code c)%nat && (code c <=? 90)%nat.
Definition is_lower (c : ascii) : bool :=
  (97 <=? code c)%nat && (code c <=? 122)%nat.

(** [\d] *)
Definition is_digit (c : ascii) : bool :=
  (48 <=? code c)%nat && (code c <=? 57)%nat.

(** [\s] and [str.isspace]: TAB, LF, VT, FF, CR, FS, GS, RS, US, SPACE. *)
Definition is_space (c : ascii) : bool :=
  ((9 <=? code c)%nat && (code c <=? 13)%nat)
  || ((28 <=? code c)%nat && (code c <=? 32)%nat).

(** White space as [int(text)] skips it around a literal: TAB, LF, VT,
    FF, CR, SPACE. *)
Definition is_int_space (c : ascii) : bool :=
  ((9 <=? code c)%nat && (code c <=? 13)%nat) || (code c =? 32)%nat.

(** The text has ASCII characters only. *)
Fixpoint is_ascii (s : string) : bool :=
  match s with
  | EmptyString => true
  | String c rest => (code c <? 128)%nat && is_ascii rest
  end.

Definition lower_char (c : ascii) : ascii :=
  if is_upper c then ascii_of_nat (code c + 32) else c.
Definition upper_char (c : ascii) : ascii :=
  if is_lower c then ascii_of_nat (code c - 32) else c.

Fixpoint map_chars (f : ascii -> ascii) (s : string) : string :=
  match s with
  | EmptyString => EmptyString
  | String c rest => String (f c) (map_chars f rest)
  end.

Definition lower : string -> string := map_chars lower_char.
Definition upper : string -> string := map_chars upper_char.

Definition digit_val (c : ascii) : Z := Z.of_nat (code c) - 48.

(** [int(s)] for a string of decimal digits. *)
Fixpoint digits_val (acc : Z) (s : string) : Z :=
  match s with
  | EmptyString => acc
  | String c rest => digits_val (10 * acc + digit_val c) rest
  end.

(** [str(n)] for an [int]. *)
Definition str_of_int (n : Z) : string :=
  NilZero.string_of_int (Z.to_int n).

(** [s.lstrip()], [s.rstrip()], [s.strip()]. *)
Fixpoint lstrip (s : string) : string :=
  match s with
  | String c rest => if is_space c then lstrip rest else s
  | EmptyString => EmptyString
  end.

Fixpoint rstrip (s : string) : string :=
  match s with
  | EmptyString => EmptyString
  | String c rest =>
      match rstrip rest with
      | EmptyString => if is_space c then EmptyString else String c EmptyString
      | kept => String c kept
      end
  end.

Definition strip (s : string) : string := rstrip (lstrip s).

(** The digits of an [int] literal: decimal digits, with single
    underscores allowed between digits. [prev] tells whether the previous
    character was a digit. *)
Fixpoint int_digits (prev : bool) (acc : Z) (s : string) : option Z :=
  match s with
  | EmptyString => if prev then Some acc else None
  | String c rest =>
      if is_digit c then int_digits true (10 * acc + digit_val c) rest
      else if (prev && Ascii.eqb c "_")%bool then
        match rest with
        | String d _ => if is_digit d then int_digits false acc rest else None
        | EmptyString => None
        end
      else None
  end.

(** The characters of a text. In UTF-8 a byte from 128 to 191 continues
    the character begun before it. *)
Definition is_continuation (c : ascii) : bool :=
  (128 <=? code c)%nat && (code c <=? 191)%nat.

Fixpoint chars_of (s : string) : list string :=
  match s with
  | EmptyString => []
  | String c rest =>
      match chars_of rest with
      | String d h :: t =>
          if is_continuation d then String c (String d h) :: t
          else String c "" :: String d h :: t
      | l => String c "" :: l
      end
  end.

(** The code point of a character of one to four bytes. *)
Definition codepoint (u : string) : N :=
  let b (c : ascii) (base : nat) := N.of_nat (code c - base) in
  match u with
  | String a EmptyString => b a 0%nat
  | String a (String x EmptyString) => b a 192%nat * 64 + b x 128%nat
  | String a (String x (String y EmptyString)) =>
      b a 224%nat * 4096 + b x 128%nat * 64 + b y 128%nat
  | String a (String x (String y (String z EmptyString))) =>
      b a 240%nat * 262144 + b x 128%nat * 4096 + b y 128%nat * 64
      + b z 128%nat
  | _ => 0
  end%N.

(** The white-space characters beyond ASCII ([str.isspace]). *)
Definition unicode_spaces : list N :=
  [133; 160; 5760; 8192; 8193; 8194; 8195; 8196; 8197; 8198; 8199; 8200;
   8201; 8202; 8232; 8233; 8239; 8287; 12288]%N.

(** The digit 0 of each run of ten decimal digits (category Nd, Unicode
    14 as in CPython 3.11). *)
Definition decimal_zeros : list N :=
  [48; 1632; 1776; 1984; 2406; 2534; 2662; 2790; 2918; 3046; 3174; 3302;
   3430; 3558; 3664; 3792; 3872; 4160; 4240; 6112; 6160; 6470; 6608; 6784;
   6800; 6992; 7088; 7232; 7248; 42528; 43216; 43264; 43472; 43504; 43600;
   44016; 65296; 66720; 68912; 69734; 69872; 69942; 70096; 70384; 70736;
   70864; 71248; 71360; 71472; 71904; 72016; 72784; 73040; 73120; 92768;
   92864; 93008; 120782; 120792; 120802; 120812; 120822; 123200; 123632;
   125264; 130032]%N.

(** [Py_UNICODE_TODECIMAL]: the value of a decimal digit. *)
Definition decimal_value (cp : N) : option N :=
  match find (fun z => (z <=? cp) && (cp <? z + 10))%N decimal_zeros with
  | Some z => Some (cp - z)%N
  | None => None
  end.

(** What [int] makes of a character before it parses: a character below
    127 is kept, a white-space character becomes a space, a decimal digit
    its ASCII digit; any other character is refused. *)
Definition int_char (u : string) : option string :=
  let cp := codepoint u in
  if (cp <? 127)%N then Some u
  else if existsb (N.eqb cp) unicode_spaces then Some " "
  else match decimal_value cp with
       | Some v => Some (String (ascii_of_N (48 + v)) "")
       | None => None
       end.

Fixpoint int_chars (us : list string) : option string :=
  match us with
  | [] => Some ""
  | u :: rest =>
      match int_char u, int_chars rest with
      | Some a, Some r => Some (a ++ r)%string
      | _, _ => None
      end
  end.

(** The white space [int] passes over at both ends of a text. *)
Fixpoint int_lstrip (s : string) : string :=
  match s with
  | String c rest => if is_int_space c then int_lstrip rest else s
  | EmptyString => EmptyString
  end.

Fixpoint int_rstrip (s : string) : string :=
  match s with
  | EmptyString => EmptyString
  | String c rest =>
      match int_rstrip rest with
      | EmptyString =>
          if is_int_space c then EmptyString else String c EmptyString
      | kept => String c kept
      end
  end.

Definition int_strip (s : string) : string := int_rstrip (int_lstrip s).

(** [sys.int_info.default_max_str_digits]: [int] refuses a text with more
    digits. *)
Definition default_max_str_digits : nat := 4300.

Fixpoint count_digits (s : string) : nat :=
  match s with
  | EmptyString => O
  | String c rest => ((if is_digit c then 1 else 0) + count_digits rest)%nat
  end.

(** [int(s)] on text: surrounding white space, an optional sign, digits,
    at most [default_max_str_digits] of them. [None] is a [ValueError]. *)
Definition int_of_text (s : string) : option Z :=
  match int_chars (chars_of s) with
  | Some plain =>
      let body := int_strip plain in
      if (count_digits body <=? default_max_str_digits)%nat then
        match body with
        | String "-" rest => option_map Z.opp (int_digits false 0 rest)
        | String "+" rest => int_digits false 0 rest
        | _ => int_digits false 0 body
        end
      else None
  | None => None
  end.

(** [s.startswith(p)] *)
Fixpoint startswith (p s : string) : bool :=
  match p, s with
  | EmptyString, _ => true
  | String a p', String b s' => Ascii.eqb a b && startswith p' s'
  | String _ _, EmptyString => false
  end.

(** [s.split(sep)] for a non-empty separator, scanning left to right;
    [skip] counts the separator characters still to be passed over and
    [cur] is the segment read so far. *)
Fixpoint split_from (sep s : string) (skip : nat) (cur : string)
  : list string :=
  match skip with
  | S n =>
      match s with
      | String _ rest => split_from sep rest n cur
      | EmptyString => [cur]
      end
  | O =>
      match s with
      | EmptyString => [cur]
      | String c rest =>
          if startswith sep s
          then cur :: split_from sep rest (Nat.pred (String.length sep)) ""
          else split_from sep rest 0 (cur ++ String c "")
      end
  end.

Definition split (sep s : string) : list string := split_from sep s 0 "".

End Text.
Export Text.

(** ** Operations of the Python data model on upstream values *)

Module PyOps.

(** [d.get(k)] on the bindings of a dict. *)
Fixpoint assoc (k : string) (d : list (string * json)) : option json :=
  match d with
  | [] => None
  | (k', v) :: rest => if String.eqb k k' then Some v else assoc k rest
  end.

(** The value of a number: [bool] is a subtype of [int]. *)
Definition num_of (v : json) : option pyfloat :=
  match v with
  | JBool b => Some (FNum (if b then 1 else 0) 0)
  | JInt z => Some (FNum z 0)
  | JFloat f => Some f
  | _ => None
  end.

Definition float_eq (a b : pyfloat) : bool :=
  match a, b with
  | FNum m1 e1, FNum m2 e2 =>
      let e := Z.min e1 e2 in
      (m1 * 2 ^ (e1 - e) =? m2 * 2 ^ (e2 - e))
  | FInf s1, FInf s2 => Bool.eqb s1 s2
  | _, _ => false
  end.

(** [a == b]. Numbers compare by value across [bool], [int] and [float],
    a NaN equals nothing, lists compare element-wise and dicts binding by
    binding. *)
Fixpoint py_eq (a b : json) {struct a} : bool :=
  match a, b with
  | JNull, JNull => true
  | JStr s, JStr t => String.eqb s t
  | JList l, JList m =>
      (fix all2 (l m : list json) : bool :=
         match l, m with
         | [], [] => true
         | x :: l', y :: m' => py_eq x y && all2 l' m'
         | _, _ => false
         end) l m
  | JDict d, JDict d' =>
      (List.length d =? List.length d')%nat
      && (fix every (d : list (string * json)) : bool :=
            match d with
            | [] => true
            | (k, v) :: rest =>
                match assoc k d' with
                | Some v' => py_eq v v'
                | None => false
                end && every rest
            end) d
  | (JBool _ | JInt _ | JFloat _), (JBool _ | JInt _ | JFloat _) =>
      match num_of a, num_of b with
      | Some x, Some y => float_eq x y
      | _, _ => false
      end
  | _, _ => false
  end.

(** [bool(v)] *)
Definition truthy (v : json) : bool :=
  match v with
  | JNull => false
  | JBool b => b
  | JInt z => negb (z =? 0)
  | JFloat (FNum m _) => negb (m =? 0)
  | JFloat _ => true
  | JStr s => negb (String.eqb s "")
  | JList l => match l with [] => false | _ => true end
  | JDict d => match d with [] => false | _ => true end
  end.

(** [a or b], with [b] already evaluated (it never raises here). *)
Definition py_or (a b : json) : json := if truthy a then a else b.

(** [isinstance(v, dict)], [isinstance(v, list)] *)
Definition is_dict (v : json) : bool :=
  match v with JDict _ => true | _ => false end.
Definition is_list (v : json) : bool :=
  match v with JList _ => true | _ => false end.

(** [o.get(k, default)]: only a dict has the method. *)
Definition get_or (o : json) (k : string) (default : json) : result json :=
  match o with
  | JDict d => Ok (match assoc k d with Some v => v | None => default end)
  | _ => Raise AttributeError
  end.

(** [o.get(k)] *)
Definition get (o : json) (k : string) : result json := get_or o k JNull.

(** [o[k]] for a text key. *)
Definition item (o : json) (k : string) : result json :=
  match o with
  | JDict d => match assoc k d with Some v => Ok v | None => Raise KeyError end
  | _ => Raise TypeError
  end.

Definition chars (s : string) : list json := map JStr (chars_of s).

(** [o[i]] for a non-negative integer index. *)
Definition item_at (o : json) (i : nat) : result json :=
  match o with
  | JList l => match nth_error l i with Some v => Ok v | None => Raise IndexError end
  | JStr s => match nth_error (chars s) i with Some v => Ok v | None => Raise IndexError end
  | JDict _ => Raise KeyError
  | _ => Raise TypeError
  end.

(** [iter(o)]: the elements of a list, the keys of a dict, the characters
    of a text. *)
Definition iter (o : json) : result (list json) :=
  match o with
  | JList l => Ok l
  | JDict d => Ok (map (fun kv => JStr (fst kv)) d)
  | JStr s => Ok (chars s)
  | _ => Raise TypeError
  end.

(** [len(o)] *)
Definition len (o : json) : result Z :=
  match o with
  | JList l => Ok (Z.of_nat (List.length l))
  | JDict d => Ok (Z.of_nat (List.length d))
  | JStr s => Ok (Z.of_nat (List.length (chars_of s)))
  | _ => Raise TypeError
  end.

(** [o[:n]] *)
Definition slice_to (o : json) (n : nat) : result json :=
  match o with
  | JList l => Ok (JList (firstn n l))
  | JStr s => Ok (JStr (String.concat "" (firstn n (chars_of s))))
  | _ => Raise TypeError
  end.

(** [v.upper()], [v.lower()]: only text has the methods. *)
Definition str_upper (v : json) : result string :=
  match v with JStr s => Ok (upper s) | _ => Raise AttributeError end.
Definition str_lower (v : json) : result string :=
  match v with JStr s => Ok (lower s) | _ => Raise AttributeError end.

(** [hash(v)] succeeds: lists and dicts are unhashable. *)
Definition hashable (v : json) : bool :=
  match v with JList _ | JDict _ => false | _ => true end.

(** [int(v)] *)
Definition py_int (v : json) : result Z :=
  match v with
  | JInt z => Ok z
  | JBool b => Ok (if b then 1 else 0)
  | JFloat (FNum m e) =>
      Ok (if 0 <=? e then m * 2 ^ e else Z.quot m (2 ^ (- e)))
  | JFloat (FInf _) => Raise OverflowError
  | JFloat FNan => Raise ValueError
  | JStr s =>
      match int_of_text s with Some z => Ok z | None => Raise ValueError end
  | JNull | JList _ | JDict _ => Raise TypeError
  end.

End PyOps.
Export PyOps.

(** ** Player statistics: [_to_int], [_lookup], [_collect_players] *)

Module Stats.

(** One normalized stat line, the dict
    [{"name": ..., "pts": ..., "reb": ..., "ast": ...}]. The name is
    whatever value the document carries as [displayName]. *)
Record statline : Type := mk_line {
  name : json;
  pts : Z;
  reb : Z;
  ast : Z
}.

(** [_to_int]: [int(raw)], with [TypeError] and [ValueError] turned into
    0. Any other exception of [int] propagates. *)
Definition _to_int (raw : json) : result Z :=
  match py_int raw with
  | Ok z => Ok z
  | Raise TypeError => Ok 0
  | Raise ValueError => Ok 0
  | Raise e => Raise e
  end.

(** The literal dict [{"pts": "points", "reb": "rebounds", "ast":
    "assists"}], indexed with [[wanted]]. *)
Definition long_form (wanted : string) : result string :=
  if String.eqb wanted "pts" then Ok "points"
  else if String.eqb wanted "reb" then Ok "rebounds"
  else if String.eqb wanted "ast" then Ok "assists"
  else Raise KeyError.

(** The loop of [_lookup] from position [idx] on. *)
Fixpoint _lookup_from (idx : Z) (names : list string) (wanted : string)
  : result Z :=
  match names with
  | [] => Ok (-1)
  | n :: rest =>
      long <- long_form wanted ;;
      if String.eqb (lower n) wanted || String.eqb (lower n) long
      then Ok idx
      else _lookup_from (idx + 1) rest wanted
  end.

Definition _lookup (names : list string) (wanted : string) : result Z :=
  _lookup_from 0 names (lower wanted).

(** [_safe(i)] of [_collect_players], closed over the athlete's [raw]. *)
Definition _safe (raw : json) (i : Z) : result Z :=
  if 0 <=? i then
    n <- len raw ;;
    if i <? n then
      v <- item_at raw (Z.to_nat i) ;;
      _to_int v
    else Ok 0
  else Ok 0.

(** [o.get("athlete", {}).get("displayName", "Unknown")] *)
Definition display_name (o : json) : result json :=
  a <- get_or o "athlete" (JDict []) ;;
  get_or a "displayName" (JStr "Unknown").

(** The guard of Format A. [Some block] when the roster is a dict whose
    truthy ["statistics"] has a dict at index 0 with truthy ["athletes"]. *)
Definition format_a (roster : json) : result (option json) :=
  if is_dict roster then
    st <- get roster "statistics" ;;
    if truthy st then
      st <- item roster "statistics" ;;
      block <- item_at st 0 ;;
      if is_dict block then
        aths <- get block "athletes" ;;
        Ok (if truthy aths then Some block else None)
      else Ok None
    else Ok None
  else Ok None.

(** One athlete of a Format A block. *)
Definition collect_a (idx_pts idx_reb idx_ast : Z)
  (players : list statline) (ath : json) : result (list statline) :=
  raw <- get_or ath "stats" (JList []) ;;
  nm <- display_name ath ;;
  p <- _safe raw idx_pts ;;
  r <- _safe raw idx_reb ;;
  a <- _safe raw idx_ast ;;
  Ok (players ++ [mk_line nm p r a]).

(** One category of a Format B player; [vals] is [(pts, reb, ast)]. *)
Definition collect_b_cat (vals : Z * Z * Z) (cat : json)
  : result (Z * Z * Z) :=
  let '(p, r, a) := vals in
  ab <- get cat "abbreviation" ;;
  nm <- get_or cat "name" (JStr "") ;;
  key <- str_upper (py_or ab nm) ;;
  if String.eqb key "PTS" || String.eqb key "POINTS" then
    v <- get cat "value" ;; n <- _to_int v ;; Ok (n, r, a)
  else if String.eqb key "REB" || String.eqb key "REBOUNDS" then
    v <- get cat "value" ;; n <- _to_int v ;; Ok (p, n, a)
  else if String.eqb key "AST" || String.eqb key "ASSISTS" then
    v <- get cat "value" ;; n <- _to_int v ;; Ok (p, r, n)
  else Ok vals.

(** One player of a Format B roster. *)
Definition collect_b (players : list statline) (ply : json)
  : result (list statline) :=
  stats <- get_or ply "statistics" (JList []) ;;
  cats <- iter stats ;;
  vals <- foldM collect_b_cat cats (0, 0, 0) ;;
  nm <- display_name ply ;;
  let '(p, r, a) := vals in
  Ok (players ++ [mk_line nm p r a]).

(** The body of the loop over rosters. *)
Definition collect_roster (players : list statline) (roster : json)
  : result (list statline) :=
  fa <- format_a roster ;;
  match fa with
  | Some block =>
      names <- get_or block "names" (JList []) ;;
      ns <- iter names ;;
      cols <- mapM str_upper ns ;;
      idx_pts <- _lookup cols "pts" ;;
      idx_reb <- _lookup cols "reb" ;;
      idx_ast <- _lookup cols "ast" ;;
      aths <- item block "athletes" ;;
      al <- iter aths ;;
      foldM (collect_a idx_pts idx_reb idx_ast) al players
  | None =>
      match roster with
      | JList plys => foldM collect_b plys players
      | _ => Ok players
      end
  end.

Definition _collect_players (boxscore : json) : result (list statline) :=
  ps <- get_or boxscore "players" (JList []) ;;
  rosters <- iter ps ;;
  foldM collect_roster rosters [].

(** ** The leaders fallback: [_fallback_leaders] *)

(** The three values of [mapping]: the key of a stat line that a leader
    group feeds. *)
Inductive stat : Type := Pts | Reb | Ast.

(** [mapping.get(abbr)] for [{"PTS": "pts", "REB": "reb", "AST": "ast"}]:
    the key is hashed first. *)
Definition mapping_get (abbr : json) : result (option stat) :=
  if hashable abbr then
    Ok (match abbr with
        | JStr s =>
            if String.eqb s "PTS" then Some Pts
            else if String.eqb s "REB" then Some Reb
            else if String.eqb s "AST" then Some Ast
            else None
        | _ => None
        end)
  else Raise TypeError.

(** [entry[cat] = v] *)
Definition set_stat (c : stat) (v : Z) (p : statline) : statline :=
  match c with
  | Pts => mk_line (name p) v (reb p) (ast p)
  | Reb => mk_line (name p) (pts p) v (ast p)
  | Ast => mk_line (name p) (pts p) (reb p) v
  end.

(** [next((p for p in out if p["name"] == nm), None)], as the position of
    the entry found; the entry is then updated in place. *)
Fixpoint find_entry (nm : json) (out : list statline) : option nat :=
  match out with
  | [] => None
  | p :: rest =>
      if py_eq (name p) nm then Some O
      else option_map S (find_entry nm rest)
  end.

Fixpoint update_at {A} (i : nat) (f : A -> A) (l : list A) : list A :=
  match l, i with
  | [], _ => []
  | x :: rest, O => f x :: rest
  | x :: rest, S j => x :: update_at j f rest
  end.

(** One ranked player [l] of a group feeding [c]. *)
Definition merge_leader (c : stat) (out : list statline) (l : json)
  : result (list statline) :=
  ath <- get_or l "athlete" (JDict []) ;;
  nm <- get ath "displayName" ;;
  raw <- get l "value" ;;
  v <- _to_int raw ;;
  match find_entry nm out with
  | Some i => Ok (update_at i (set_stat c v) out)
  | None => Ok (out ++ [set_stat c v (mk_line nm 0 0 0)])
  end.

(** One leader group. *)
Definition merge_group (out : list statline) (leader : json)
  : result (list statline) :=
  abbr <- get leader "abbreviation" ;;
  cat <- mapping_get abbr ;;
  match cat with
  | None => Ok out
  | Some c =>
      ls <- get_or leader "leaders" (JList []) ;;
      ranked <- iter ls ;;
      foldM (merge_leader c) ranked out
  end.

Definition _fallback_leaders (comp : json) : result (list statline) :=
  ls <- get_or comp "leaders" (JList []) ;;
  groups <- iter ls ;;
  foldM merge_group groups [].

End Stats.
Export Stats.

(** ** Regular expressions: the fragment of [re] the two patterns use *)

Module Regex.

(** A pattern element that consumes one character. Under [re.I] a literal
    character matches both of its cases. *)
Inductive atom : Type :=
| AnyChar            (* [.], without DOTALL: anything but a line feed *)
| SpaceChar          (* [\s] *)
| DigitChar          (* [\d] *)
| Char (c : ascii).

Inductive regex : Type :=
| Eps
| Bol                          (* [^] *)
| One (a : atom)
| Plus (a : atom)              (* [a+], greedy *)
| PlusLazy (a : atom)          (* [a+?] *)
| Cat (r1 r2 : regex)
| Alt (r1 r2 : regex)          (* [r1|r2], left first *)
| Group (name : string) (r : regex).   (* [(?P<name>r)] *)

Definition atom_ok (a : atom) (c : ascii) : bool :=
  match a with
  | AnyChar => negb (Ascii.eqb c "010")
  | SpaceChar => is_space c
  | DigitChar => is_digit c
  | Char x => Ascii.eqb (lower_char c) (lower_char x)
  end.

(** The named groups of a match, most recent first. *)
Definition groups : Type := list (string * string).

Section Matcher.

(** The whole subject text; a state of the matcher is the position
    [pos], the text [s] from there on and the groups closed so far. *)
Variable text : string.

Definition cont : Type := nat -> string -> groups -> option groups.

(** [a+]: as many characters as possible, giving back one at a time. *)
Fixpoint greedy (p : ascii -> bool) (k : cont) (pos : nat) (s : string)
  (g : groups) {struct s} : option groups :=
  match s with
  | String c rest =>
      if p c then
        match greedy p k (S pos) rest g with
        | Some m => Some m
        | None => k (S pos) rest g
        end
      else None
  | EmptyString => None
  end.

(** [a+?]: as few characters as possible, taking one more at a time. *)
Fixpoint reluctant (p : ascii -> bool) (k : cont) (pos : nat) (s : string)
  (g : groups) {struct s} : option groups :=
  match s with
  | String c rest =>
      if p c then
        match k (S pos) rest g with
        | Some m => Some m
        | None => reluctant p k (S pos) rest g
        end
      else None
  | EmptyString => None
  end.

(** Backtracking search: [run r k pos s g] is the first way to match [r]
    at [pos] for which the continuation [k] succeeds. *)
Fixpoint run (r : regex) (k : cont) (pos : nat) (s : string) (g : groups)
  {struct r} : option groups :=
  match r with
  | Eps => k pos s g
  | Bol => if (pos =? 0)%nat then k pos s g else None
  | One a =>
      match s with
      | String c rest => if atom_ok a c then k (S pos) rest g else None
      | EmptyString => None
      end
  | Plus a => greedy (atom_ok a) k pos s g
  | PlusLazy a => reluctant (atom_ok a) k pos s g
  | Cat r1 r2 => run r1 (run r2 k) pos s g
  | Alt r1 r2 =>
      match run r1 k pos s g with
      | Some m => Some m
      | None => run r2 k pos s g
      end
  | Group name r1 =>
      run r1
        (fun pos' s' g' =>
           k pos' s' ((name, substring pos (pos' - pos) text) :: g'))
        pos s g
  end.

End Matcher.

(** [pattern.match(text)]: a match anchored at the start of the text. *)
Definition re_match (r : regex) (text : string) : option groups :=
  run text r (fun _ _ g => Some g) 0%nat text [].

(** [m[name]] *)
Fixpoint group (m : groups) (name : string) : result string :=
  match m with
  | [] => Raise IndexError
  | (n, v) :: rest => if String.eqb name n then Ok v else group rest name
  end.

Fixpoint word (w : string) : regex :=
  match w with
  | EmptyString => Eps
  | String c rest => Cat (One (Char c)) (word rest)
  end.

Definition sequence (rs : list regex) : regex := fold_right Cat Eps rs.

End Regex.
Export Regex.

(** ** Series reconstruction *)

(** [^(?P<team>.+?)\s+(?P<verb>leads|wins)\s+series\s+(?P<wins>\d+)-(?P<losses>\d+)]
    with [re.I]. *)
Definition _SERIES_RE : regex :=
  sequence [ Bol; Group "team" (PlusLazy AnyChar); Plus SpaceChar;
        Group "verb" (Alt (word "leads") (word "wins")); Plus SpaceChar;
        word "series"; Plus SpaceChar;
        Group "wins" (Plus DigitChar); One (Char "-");
        Group "losses" (Plus DigitChar) ].

(** [Series\s+(?:even|tied)\s+(?P<wins>\d+)-(?P<wins2>\d+)] with [re.I]. *)
Definition _TIED_RE : regex :=
  sequence [ word "Series"; Plus SpaceChar;
        Alt (word "even") (word "tied"); Plus SpaceChar;
        Group "wins" (Plus DigitChar); One (Char "-");
        Group "wins2" (Plus DigitChar) ].

(** [team_str.lower() in (team["displayName"].lower(), ...)]: the tuple is
    built in full before the membership test. *)
Definition team_matches (team_str : string) (team : json) : result bool :=
  dn <- item team "displayName" ;; dn <- str_lower dn ;;
  sn <- item team "shortDisplayName" ;; sn <- str_lower sn ;;
  nm <- item team "name" ;; nm <- str_lower nm ;;
  ab <- item team "abbreviation" ;; ab <- str_lower ab ;;
  let t := lower team_str in
  Ok (String.eqb t dn || String.eqb t sn || String.eqb t nm
      || String.eqb t ab).

Fixpoint _match_team_to_abbr (team_str : string) (competitors : list json)
  : result json :=
  match competitors with
  | [] => Ok (JStr team_str)
  | c :: rest =>
      team <- item c "team" ;;
      hit <- team_matches team_str team ;;
      if hit then item team "abbreviation"
      else _match_team_to_abbr team_str rest
  end.

(** [next((c for c in competitors if c.get("winner")), ...)]: the first
    competitor with a truthy winner flag, with its position. *)
Fixpoint first_winner (i : nat) (cs : list json)
  : result (option (nat * json)) :=
  match cs with
  | [] => Ok None
  | c :: rest =>
      w <- get c "winner" ;;
      if truthy w then Ok (Some (i, c)) else first_winner (S i) rest
  end.

(** [c["team"]["abbreviation"]] *)
Definition team_abbr (c : json) : result json :=
  t <- item c "team" ;; item t "abbreviation".

(** The two f-strings of [_series_before_game]. *)
Definition label (abbr : string) (a b : Z) : string :=
  (abbr ++ " leads series " ++ str_of_int a ++ "-" ++ str_of_int b)%string.

(** U+2011, the hyphen of the source literal for the third game type. *)
Definition nb_hyphen : string :=
  String (ascii_of_nat 226) (String (ascii_of_nat 128)
    (String (ascii_of_nat 145) EmptyString)).

(** ** Series label and record assembly *)

(** One assembled record, the dict appended to [out] by [_evaluate_games]. *)
Record game : Type := mk_game {
  gameId : json;
  tipoffUTC : json;
  home : json;
  away : json;
  homeLogo : json;
  awayLogo : json;
  round : string;
  gameNum : string;
  gameType : string;
  seriesPre : string;
  badges : list string;
  replayLink : json
}.

(** [max(xs, default=d)] *)
Definition max_default (xs : list Z) (d : Z) : Z :=
  match xs with
  | [] => d
  | x :: rest => fold_left Z.max rest x
  end.

(** [{1: "Regular Season", 3: "Playoffs"}.get(st, "Play-In")], the default
    being spelled with U+2011 in the source. The key is hashed first. *)
Definition game_type_of (st : json) : result string :=
  if hashable st then
    Ok (if py_eq (JInt 1) st then "Regular Season"
        else if py_eq (JInt 3) st then "Playoffs"
        else ("Play" ++ nb_hyphen ++ "In")%string)
  else Raise TypeError.

(** [_parse_round_and_game] *)
Fixpoint round_and_game (notes : list json) : result (string * string) :=
  match notes with
  | [] => Ok ("", "")
  | note :: rest =>
      ty <- get note "type" ;;
      if py_eq ty (JStr "event") then
        h <- get_or note "headline" (JStr "") ;;
        match h with
        | JStr headline =>
            match split " - " headline with
            | p0 :: p1 :: _ => Ok (p0, p1)
            | _ => round_and_game rest
            end
        | _ => Raise AttributeError
        end
      else round_and_game rest
  end.

Definition _parse_round_and_game (event : json) : result (string * string) :=
  notes <- get_or event "notes" (JList []) ;;
  ns <- iter notes ;;
  round_and_game ns.

(** [q3tot(team)] of [_evaluate_games] *)
Definition q3tot (team : json) : result Z :=
  ls <- get_or team "linescores" (JList []) ;;
  first3 <- slice_to ls 3 ;;
  items <- iter first3 ;;
  foldM (fun acc l => v <- get l "value" ;; n <- _to_int v ;; Ok (acc + n))
        items 0.

(** [_to_int(comp["status"].get("period", 4))] *)
Definition period_of (comp : json) : result Z :=
  status <- item comp "status" ;;
  p <- get_or status "period" (JInt 4) ;;
  _to_int p.

(** Step 4 of [_evaluate_games]: the badge list, appended to in source
    order. *)
Definition evaluate_badges (players : list statline) (home away comp : json)
  : result (list string) :=
  let badges : list string := [] in
  let max_pts := max_default (map pts players) 0 in
  let badges :=
    if max_pts >=? 50 then badges ++ ["pts50"]
    else if max_pts >=? 40 then badges ++ ["pts40"]
    else if max_pts >=? 30 then badges ++ ["pts30"]
    else badges in
  let badges :=
    if existsb (fun p => (pts p >=? 10) && (reb p >=? 10) && (ast p >=? 10))
         players
    then badges ++ ["tripleDouble"] else badges in
  qh <- q3tot home ;;
  qa <- q3tot away ;;
  let badges :=
    if Z.abs (qh - qa) <=? 10 then badges ++ ["close4"] else badges in
  hs <- item home "score" ;; hs <- _to_int hs ;;
  sa <- item away "score" ;; sa <- _to_int sa ;;
  let margin := Z.abs (hs - sa) in
  close <- (if margin <=? 7 then Ok true
            else p <- period_of comp ;; Ok (p >? 4)) ;;
  let badges := if close then badges ++ ["closeGame"] else badges in
  p <- period_of comp ;;
  let badges := if p >? 4 then badges ++ ["overtime"] else badges in
  Ok badges.

(** [home, away = v] *)
Definition unpack2 (v : json) : result (json * json) :=
  xs <- iter v ;;
  match xs with
  | [a; b] => Ok (a, b)
  | _ => Raise ValueError
  end.

Section Pipeline.

(** [str(v)] for a value that is not text (the decimal of a number, the
    repr of a container): left open, only text is formatted as itself. *)
Variable py_repr : json -> string.

(** The two HTTP collaborators: the summary document of a game id
    ([requests.get(...).json()], raising on failure) and the replay-link
    lookup for a team name. *)
Variable espn_summary : string -> result json.
Variable find_replay_link_for_team : json -> result json.

(** [f"{v}"] and [str(v)] *)
Definition py_format (v : json) : string :=
  match v with
  | JStr s => s
  | _ => py_repr v
  end.

Definition _series_before_game (summary_txt comp : json) : result string :=
  competitors <- item comp "competitors" ;;
  c0 <- item_at competitors 0 ;;
  cs <- iter competitors ;;
  found <- first_winner 0 cs ;;
  let winner_team := match found with Some (_, c) => c | None => c0 end in
  winner_abbr <- team_abbr winner_team ;;
  c1 <- item_at competitors 1 ;;
  (* [competitors[1] is winner_team]: the object found at position 1 *)
  let second_won :=
    match found with Some (i, _) => (i =? 1)%nat | None => false end in
  loser_abbr <- (if second_won then team_abbr c0 else team_abbr c1) ;;
  match summary_txt with
  | JStr txt =>
      match re_match _SERIES_RE txt with
      | Some m =>
          team <- group m "team" ;;
          leader_abbr <- _match_team_to_abbr team cs ;;
          w <- group m "wins" ;;
          l <- group m "losses" ;;
          wins <- py_int (JStr w) ;;
          losses <- py_int (JStr l) ;;
          verb <- group m "verb" ;;
          if String.eqb (lower verb) "wins" then
            Ok (label (py_format leader_abbr) (wins - 1) losses)
          else if py_eq leader_abbr winner_abbr then
            Ok (label (py_format leader_abbr) (wins - 1) losses)
          else
            Ok (label (py_format leader_abbr) wins (losses - 1))
      | None =>
          match re_match _TIED_RE txt with
          | Some m =>
              w <- group m "wins" ;;
              wins <- py_int (JStr w) ;;
              Ok (label (py_format loser_abbr) wins (wins - 1))
          | None => Ok txt
          end
      end
  | _ => Raise TypeError
  end.

Definition _fetch_summary (game_id : string) : result json :=
  data <- espn_summary game_id ;;
  _ <- get_or data "boxscore" (JDict []) ;;
  Ok data.

(** The body of the loop of [_evaluate_games] for one event. *)
Definition evaluate_event (out : list game) (ev : json)
  : result (list game) :=
  comps <- item ev "competitions" ;;
  comp <- item_at comps 0 ;;
  status <- item comp "status" ;;
  ty <- item status "type" ;;
  state <- get_or ty "state" (JStr "") ;;
  state <- str_lower state ;;
  if negb (String.eqb state "post") then Ok out
  else
    pair <- item comp "competitors" ;;
    '(home, away) <- unpack2 pair ;;
    ha <- item home "homeAway" ;;
    let '(home, away) :=
      if py_eq ha (JStr "away") then (away, home) else (home, away) in
    (* 1) round and number *)
    '(round_txt, game_txt) <- _parse_round_and_game ev ;;
    series <- get_or comp "series" (JDict []) ;;
    summary <- get_or series "summary" (JStr "") ;;
    series_pre <- _series_before_game summary comp ;;
    (* 2) game type *)
    season <- get_or ev "season" (JDict []) ;;
    st <- get_or season "type" (JInt 1) ;;
    game_type <- game_type_of st ;;
    (* 3) box score and players *)
    let summ :=
      match (id <- item ev "id" ;; _fetch_summary (py_format id)) with
      | Ok data => data
      | Raise _ => JDict []
      end in
    box <- get_or summ "boxscore" (JDict []) ;;
    players <- _collect_players box ;;
    players <- (match players with
                | [] => _fallback_leaders comp
                | _ => Ok players
                end) ;;
    (* 4) badges *)
    badges <- evaluate_badges players home away comp ;;
    (* 5) replay link of the home team *)
    ht <- item home "team" ;;
    dn <- item ht "displayName" ;;
    full_home <- (if truthy dn then Ok dn else item ht "name") ;;
    replay_link <- find_replay_link_for_team full_home ;;
    id <- item ev "id" ;;
    date <- item ev "date" ;;
    h_ab <- item ht "abbreviation" ;;
    at_ <- item away "team" ;;
    a_ab <- item at_ "abbreviation" ;;
    h_logo <- item ht "logo" ;;
    a_logo <- item at_ "logo" ;;
    Ok (out ++ [mk_game id date h_ab a_ab h_logo a_logo round_txt game_txt
                  game_type series_pre badges replay_link]).

Definition _evaluate_games (sb : json) : result (list game) :=
  evs <- get_or sb "events" (JList []) ;;
  events <- iter evs ;;
  foldM evaluate_event events [].

End Pipeline.

(** ** What a match means: the declarative reading of the patterns *)

Module Shape.

Fixpoint all_chars (p : ascii -> bool) (s : string) : bool :=
  match s with
  | EmptyString => true
  | String c rest => p c && all_chars p rest
  end.

(** A non-empty run of characters of one class. *)
Definition run_of (p : ascii -> bool) (s : string) : Prop :=
  s <> "" /\ all_chars p s = true.

(** [matched r pos g w g']: at position [pos], with the groups [g] closed
    so far, [r] can consume the word [w] and leave the groups [g']; a
    group records the word it consumed. *)
Inductive matched : regex -> nat -> groups -> string -> groups -> Prop :=
| m_eps pos g : matched Eps pos g "" g
| m_bol g : matched Bol 0%nat g "" g
| m_one a c pos g :
    atom_ok a c = true -> matched (One a) pos g (String c "") g
| m_plus a w pos g :
    run_of (atom_ok a) w -> matched (Plus a) pos g w g
| m_plus_lazy a w pos g :
    run_of (atom_ok a) w -> matched (PlusLazy a) pos g w g
| m_cat r1 r2 pos g w1 g1 w2 g2 :
    matched r1 pos g w1 g1 ->
    matched r2 (pos + String.length w1)%nat g1 w2 g2 ->
    matched (Cat r1 r2) pos g (w1 ++ w2) g2
| m_alt_l r1 r2 pos g w g' :
    matched r1 pos g w g' -> matched (Alt r1 r2) pos g w g'
| m_alt_r r1 r2 pos g w g' :
    matched r2 pos g w g' -> matched (Alt r1 r2) pos g w g'
| m_group name r pos g w g' :
    matched r pos g w g' ->
    matched (Group name r) pos g w ((name, w) :: g').

(** The text of a summary that credits a team: a team text without line
    feed, the verb, the word [series] and the two counts, separated by
    white space. *)
Definition leads_wins_text (text team verb w l : string) : Prop :=
  exists ws1 ws2 kw ws3 rest,
    text = (team ++ ws1 ++ verb ++ ws2 ++ kw ++ ws3 ++ w ++ "-" ++ l ++ rest)%string
    /\ run_of (atom_ok AnyChar) team
    /\ run_of is_space ws1 /\ run_of is_space ws2 /\ run_of is_space ws3
    /\ (lower verb = "leads" \/ lower verb = "wins")
    /\ lower kw = "series"
    /\ run_of is_digit w /\ run_of is_digit l.

(** The text of a summary that reports a tie. *)
Definition tied_text (text w w2 : string) : Prop :=
  exists kw ws1 adj ws2 rest,
    text = (kw ++ ws1 ++ adj ++ ws2 ++ w ++ "-" ++ w2 ++ rest)%string
    /\ lower kw = "series"
    /\ run_of is_space ws1 /\ run_of is_space ws2
    /\ (lower adj = "even" \/ lower adj = "tied")
    /\ run_of is_digit w /\ run_of is_digit w2.

End Shape.
Export Shape.

(** ** Competitors as the data model describes them *)

Module View.

(** The identity of a team: display name, short display name, canonical
    name and abbreviation. *)
Record team_names : Type := mk_team {
  t_display : string;
  t_short : string;
  t_name : string;
  t_abbr : string
}.

(** One side of a contest: its team and its winner flag. *)
Record competitor : Type := mk_competitor {
  c_team : team_names;
  c_winner : bool
}.

Definition text_of (v : option json) : option string :=
  match v with
  | Some (JStr s) => Some s
  | _ => None
  end.

(** A team document read as a [team_names]: the four names are present
    and are text. *)
Definition view_team (t : json) : option team_names :=
  match t with
  | JDict d =>
      match text_of (assoc "displayName" d),
            text_of (assoc "shortDisplayName" d),
            text_of (assoc "name" d),
            text_of (assoc "abbreviation" d) with
      | Some dn, Some sn, Some nm, Some ab => Some (mk_team dn sn nm ab)
      | _, _, _, _ => None
      end
  | _ => None
  end.

(** A competitor document read as a [competitor]; the flag is the truth
    value of ["winner"], false when absent. *)
Definition view_competitor (c : json) : option competitor :=
  match c with
  | JDict d =>
      match assoc "team" d with
      | Some t =>
          match view_team t with
          | Some names =>
              Some (mk_competitor names
                      (truthy (match assoc "winner" d with
                               | Some w => w
                               | None => JNull
                               end)))
          | None => None
          end
      | None => None
      end
  | _ => None
  end.

Definition abbr_of (k : competitor) : string := t_abbr (c_team k).

(** [text] names the team of [k]: it equals, case-insensitively, one of
    its four names. *)
Definition is_alias (text : string) (k : competitor) : bool :=
  let t := lower text in
  String.eqb t (lower (t_display (c_team k)))
  || String.eqb t (lower (t_short (c_team k)))
  || String.eqb t (lower (t_name (c_team k)))
  || String.eqb t (lower (t_abbr (c_team k))).

(** The abbreviation a team text resolves to: that of the first
    competitor it names, else the text itself. *)
Definition resolve_abbr (text : string) (ks : list competitor) : string :=
  match find (is_alias text) ks with
  | Some k => abbr_of k
  | None => text
  end.

(** The four names of the competitor's team are ASCII text. *)
Definition ascii_names (k : competitor) : bool :=
  is_ascii (t_display (c_team k)) && is_ascii (t_short (c_team k))
  && is_ascii (t_name (c_team k)) && is_ascii (t_abbr (c_team k)).

(** A pair with one declared winner. *)
Definition one_winner (k0 k1 : competitor) : Prop :=
  c_winner k0 = negb (c_winner k1).

(** The winner and the loser as [_series_before_game] picks them: the
    first flagged competitor, else the first; the loser is the other. *)
Definition picked_winner (k0 k1 : competitor) : competitor :=
  if c_winner k0 then k0 else if c_winner k1 then k1 else k0.
Definition picked_loser (k0 k1 : competitor) : competitor :=
  if c_winner k0 then k1 else if c_winner k1 then k0 else k1.

Definition declared_winner (k0 k1 : competitor) : competitor :=
  if c_winner k0 then k0 else k1.
Definition declared_loser (k0 k1 : competitor) : competitor :=
  if c_winner k0 then k1 else k0.

End View.
Export View.

(** ** Leaders and Format A blocks as the data model describes them *)

Module Model.

Fixpoint view_all {A} (f : json -> option A) (l : list json)
  : option (list A) :=
  match l with
  | [] => Some []
  | x :: rest =>
      match f x, view_all f rest with
      | Some a, Some r => Some (a :: r)
      | _, _ => None
      end
  end.

(** No two entries carry equal names, equality being that of Python. *)
Definition distinct_names (out : list statline) : Prop :=
  ForallOrdPairs (fun a b => py_eq a b = false) (map name out).

(** *** Leaders *)

(** One ranked player of a consulted group: the category the group feeds,
    the display name and the value as [_to_int] reads it. *)
Definition listing : Type := stat * string * Z.

Definition view_ranked (c : stat) (l : json) : option listing :=
  match l with
  | JDict d =>
      match assoc "athlete" d with
      | Some (JDict a) =>
          match assoc "displayName" a with
          | Some (JStr n) =>
              match _to_int (match assoc "value" d with
                             | Some v => v
                             | None => JNull
                             end) with
              | Ok z => Some (c, n, z)
              | Raise _ => None
              end
          | _ => None
          end
      | _ => None
      end
  | _ => None
  end.

(** The category a group feeds, from its abbreviation. *)
Definition stat_of_abbr (ab : string) : option stat :=
  if String.eqb ab "PTS" then Some Pts
  else if String.eqb ab "REB" then Some Reb
  else if String.eqb ab "AST" then Some Ast
  else None.

(** The ranked players a group contributes: those of its ["leaders"] list
    when its abbreviation is one of the three, none otherwise. *)
Definition view_group (g : json) : option (list listing) :=
  match g with
  | JDict d =>
      match assoc "abbreviation" d with
      | Some (JStr ab) =>
          match stat_of_abbr ab with
          | Some c =>
              match assoc "leaders" d with
              | Some (JList ls) => view_all (view_ranked c) ls
              | None => Some []
              | _ => None
              end
          | None => Some []
          end
      | Some (JList _) | Some (JDict _) => None
      | _ => Some []
      end
  | _ => None
  end.

(** The leaders metadata of a competition, read in document order. *)
Definition view_leaders (comp : json) : option (list listing) :=
  match comp with
  | JDict d =>
      match assoc "leaders" d with
      | Some (JList gs) => option_map (@List.concat _) (view_all view_group gs)
      | None => Some []
      | _ => None
      end
  | _ => None
  end.

Definition listed_name (t : listing) : string := snd (fst t).

(** The step of the merge loop on a read listing: the entry of the name
    is updated in place, or a fresh entry is appended. *)
Definition merge1 (out : list statline) (t : listing) : list statline :=
  let '(c, n, v) := t in
  match find_entry (JStr n) out with
  | Some i => update_at i (set_stat c v) out
  | None => out ++ [set_stat c v (mk_line (JStr n) 0 0 0)]
  end.

Definition stat_eqb (a b : stat) : bool :=
  match a, b with
  | Pts, Pts | Reb, Reb | Ast, Ast => true
  | _, _ => false
  end.

(** The value listed last for player [n] in category [c]; 0 when the
    player is not listed there. *)
Definition last_value (c : stat) (n : string) (ts : list listing) : Z :=
  fold_left
    (fun acc t =>
       let '(c', n', v) := t in
       if stat_eqb c c' && String.eqb n n' then v else acc)
    ts 0.

(** The distinct elements of a list, in order of first appearance. *)
Definition first_occurrences (l : list string) : list string :=
  rev (nodup string_dec (rev l)).

(** The line of player [n]: each category holds the value listed for the
    player, or 0. *)
Definition merged_line (ts : list listing) (n : string) : statline :=
  mk_line (JStr n) (last_value Pts n ts) (last_value Reb n ts)
    (last_value Ast n ts).

(** Merge by name, in the words of the specification: one line per
    distinct display name, in order of first appearance. *)
Definition merged_lines (ts : list listing) : list statline :=
  map (merged_line ts) (first_occurrences (map listed_name ts)).

(** *** Format A *)

(** An athlete of a block: the display name and the values array. *)
Definition view_athlete (ath : json) : option (json * list json) :=
  match ath with
  | JDict d =>
      match display_name ath with
      | Ok nm =>
          match assoc "stats" d with
          | Some (JList vs) => Some (nm, vs)
          | None => Some (nm, [])
          | _ => None
          end
      | Raise _ => None
      end
  | _ => None
  end.

Definition view_header (n : json) : option string :=
  match n with JStr s => Some s | _ => None end.

(** A Format A roster: the header row of its first statistics block and
    the athletes of that block. *)
Definition view_block (roster : json)
  : option (list string * list (json * list json)) :=
  match roster with
  | JDict d =>
      match assoc "statistics" d with
      | Some (JList (JDict b :: _)) =>
          match assoc "athletes" b with
          | Some (JList (a :: more)) =>
              match match assoc "names" b with
                    | Some (JList ns) => view_all view_header ns
                    | None => Some []
                    | _ => None
                    end,
                    view_all view_athlete (a :: more) with
              | Some names, Some aths => Some (names, aths)
              | _, _ => None
              end
          | _ => None
          end
      | _ => None
      end
  | _ => None
  end.

Definition abbrev (c : stat) : string :=
  match c with Pts => "pts" | Reb => "reb" | Ast => "ast" end.
Definition long_name (c : stat) : string :=
  match c with Pts => "points" | Reb => "rebounds" | Ast => "assists" end.

(** The header [n] names category [c]: it equals the abbreviation or the
    long form, case-insensitively. *)
Definition header_is (c : stat) (n : string) : bool :=
  String.eqb (lower n) (abbrev c) || String.eqb (lower n) (long_name c).

(** The column of category [c]: the first header that names it. *)
Fixpoint column (c : stat) (names : list string) : option nat :=
  match names with
  | [] => None
  | n :: rest => if header_is c n then Some O else option_map S (column c rest)
  end.

(** The value of a column in a values array: 0 without a column and 0
    past the end of the array. *)
Definition cell (stats : list json) (col : option nat) : result Z :=
  match col with
  | None => Ok 0
  | Some i =>
      match nth_error stats i with
      | Some v => _to_int v
      | None => Ok 0
      end
  end.

(** The stat line of an athlete under a header row. *)
Definition line_of (names : list string) (ath : json * list json)
  : result statline :=
  p <- cell (snd ath) (column Pts names) ;;
  r <- cell (snd ath) (column Reb names) ;;
  a <- cell (snd ath) (column Ast names) ;;
  Ok (mk_line (fst ath) p r a).

(** The lines of a block: the header row is its names in upper case,
    the [cols] of the code. *)
Definition block_lines (b : list string * list (json * list json))
  : result (list statline) :=
  mapM (line_of (map upper (fst b))) (snd b).

(** The index [_lookup] returns for a column: -1 without one. *)
Definition index_of (col : option nat) : Z :=
  match col with Some i => Z.of_nat i | None => -1 end.

(** The line [l] carries the display name of the entry [a]. *)
Definition names_line (a : json) (l : statline) : Prop :=
  display_name a = Ok (name l).

(** The entries of a roster that [_collect_players] turns into lines. *)
Definition roster_athletes (roster : json) : result (list json) :=
  fa <- format_a roster ;;
  match fa with
  | Some block => aths <- item block "athletes" ;; iter aths
  | None =>
      match roster with
      | JList plys => Ok plys
      | _ => Ok []
      end
  end.

(** The entries of all rosters of a box score, in document order. *)
Definition listed_athletes (boxscore : json) : result (list json) :=
  ps <- get_or boxscore "players" (JList []) ;;
  rosters <- iter ps ;;
  per_roster <- mapM roster_athletes rosters ;;
  Ok (List.concat per_roster).

End Model.
Export Model.

(** ** Events and badges as the claims speak of them *)

Module Event.

(** The scoring tier of a list of stat lines: the badge of the highest
    threshold the best scorer reaches. *)
Definition scoring_tier (players : list statline) : list string :=
  let max_pts := max_default (map pts players) 0 in
  if max_pts >=? 50 then ["pts50"]
  else if max_pts >=? 40 then ["pts40"]
  else if max_pts >=? 30 then ["pts30"]
  else [].

(** Some player's points reach [t]. *)
Definition reached (players : list statline) (t : Z) : Prop :=
  exists p, In p players /\ pts p >= t.

(** [ev.get("season", {}).get("type", 1)] *)
Definition season_type (ev : json) : result json :=
  season <- get_or ev "season" (JDict []) ;;
  get_or season "type" (JInt 1).

(** The lower-cased state of the first competition of an event; a
    finished event has state ["post"]. *)
Definition event_state (ev : json) : result string :=
  comps <- item ev "competitions" ;;
  comp <- item_at comps 0 ;;
  status <- item comp "status" ;;
  ty <- item status "type" ;;
  state <- get_or ty "state" (JStr "") ;;
  str_lower state.

(** The overtime rule on a record. *)
Definition overtime_is_close (g : game) : Prop :=
  In "overtime" (badges g) -> In "closeGame" (badges g).

End Event.
Export Event.

(** ** Sample documents *)

Module Examples.

(** Collaborators of a run without network: non-text values print as
    nothing, the summary fetch fails and no replay link is found. *)
Definition plain_repr (v : json) : string := "".
Definition no_summary (game_id : string) : result json := Raise ValueError.
Definition no_replay (team : json) : result json := Ok JNull.

Definition team_doc (dn sn nm ab : string) : json :=
  JDict [("displayName", JStr dn); ("shortDisplayName", JStr sn);
         ("name", JStr nm); ("abbreviation", JStr ab);
         ("logo", JStr (ab ++ ".png"))].

Definition side_doc (home_away : string) (team : json) (won : bool)
  (score : string) : json :=
  JDict [("homeAway", JStr home_away); ("team", team);
         ("winner", JBool won); ("score", JStr score)].

Definition mavericks : json :=
  team_doc "Dallas Mavericks" "Mavericks" "Mavericks" "DAL".
Definition celtics : json :=
  team_doc "Boston Celtics" "Celtics" "Celtics" "BOS".

(** Dallas at home beats Boston after [period] periods. *)
Definition dallas_beats_boston_fields (period : Z)
  : list (string * json) :=
  [("competitors",
    JList [side_doc "home" mavericks true "110";
           side_doc "away" celtics false "102"]);
   ("status", JDict [("type", JDict [("state", JStr "post")]);
                     ("period", JInt period)])].
Definition dallas_beats_boston (period : Z) : json :=
  JDict (dallas_beats_boston_fields period).

(** A count of [n] digits 1, and summaries whose first count has one
    digit more than [int] converts. *)
Fixpoint ones (n : nat) : string :=
  match n with
  | O => EmptyString
  | S k => String "1" (ones k)
  end.
Definition long_count : string := ones (S default_max_str_digits).
Definition long_leads_summary : string :=
  "Mavericks leads series " ++ long_count ++ "-2".
Definition long_tied_summary : string :=
  "Series tied " ++ long_count ++ "-2".

(** Competitions with no competitor and without the key. *)
Definition no_competitors : json := JDict [("competitors", JList [])].
Definition no_competitors_key : json := JDict [].

(** The leaders of the specification's example. *)
Definition ranked_doc (n : string) (v : Z) : json :=
  JDict [("athlete", JDict [("displayName", JStr n)]); ("value", JInt v)].
Definition group_doc (ab : string) (ls : list json) : json :=
  JDict [("abbreviation", JStr ab); ("leaders", JList ls)].
Definition sample_leaders : json :=
  JDict [("leaders",
          JList [group_doc "PTS" [ranked_doc "A" 30];
                 group_doc "REB" [ranked_doc "A" 10];
                 group_doc "AST" [ranked_doc "B" 9]])].

(** A Format B roster that lists player A twice. *)
Definition listed_twice : json :=
  JDict [("players",
          JList [JList [
            JDict [("athlete", JDict [("displayName", JStr "A")]);
                   ("statistics",
                    JList [JDict [("abbreviation", JStr "PTS");
                                  ("value", JInt 10)]])];
            JDict [("athlete", JDict [("displayName", JStr "A")]);
                   ("statistics",
                    JList [JDict [("abbreviation", JStr "PTS");
                                  ("value", JInt 12)]])]]])].

(** A roster whose ["statistics"] is a dict. *)
Definition statistics_as_dict : json :=
  JDict [("players",
          JList [JDict [("statistics", JDict [("splits", JList [])])]])].

(** A roster list whose entry is not a dict. *)
Definition roster_of_numbers : json :=
  JDict [("players", JList [JList [JInt 7]])].

(** Rosters whose ["statistics"] is text, and a list of non-dicts. *)
Definition statistics_as_text : json :=
  JDict [("players",
          JList [JDict [("statistics", JStr "n/a")];
                 JDict [("statistics", JList [JInt 1; JInt 2])]])].

(** A Format A box score: no assists column, and a second athlete whose
    values array stops before the points column. *)
Definition format_a_rosters : list json :=
  [JDict [("statistics",
     JList [JDict [
       ("names", JList [JStr "MIN"; JStr "reb"; JStr "Points"]);
       ("athletes",
        JList [
          JDict [("athlete", JDict [("displayName", JStr "X")]);
                 ("stats", JList [JStr "33"; JStr "7"; JStr "21"])];
          JDict [("athlete", JDict [("displayName", JStr "Y")]);
                 ("stats", JList [JStr "12"; JStr "4"])]])]])]].
Definition format_a_box : json :=
  JDict [("players", JList format_a_rosters)].

(** The stat lines of the specification's pts50 example. *)
Definition fifty_two : list statline := [mk_line (JStr "A") 52 5 3].

(** A finished event of the given season type. *)
Definition event_doc (season : Z) (period : Z) : json :=
  JDict [("id", JStr "401"); ("date", JStr "2025-05-01T00:00Z");
         ("competitions", JList [dallas_beats_boston period]);
         ("season", JDict [("type", JInt season)])].

Definition board_doc (season : Z) (period : Z) : json :=
  JDict [("events", JList [event_doc season period])].

(** The record of [event_doc season 5]: an overtime game. *)
Definition overtime_record (game_type : string) : game :=
  mk_game (JStr "401") (JStr "2025-05-01T00:00Z") (JStr "DAL") (JStr "BOS")
    (JStr "DAL.png") (JStr "BOS.png") "" "" game_type ""
    ["close4"; "closeGame"; "overtime"] JNull.

End Examples.
Export Examples.

From Stdlib Require DecimalZ DecimalPos DecimalFacts.

(** ** The replay-link lookup: [find_replay_link_for_team] *)

Module Words.

(** [s.split()]: the words of a text, separated by runs of white space;
    [cur] is the word read so far. *)
Fixpoint words_from (s : string) (cur : string) : list string :=
  match s with
  | EmptyString => if String.eqb cur "" then [] else [cur]
  | String c rest =>
      if is_space c then
        if String.eqb cur "" then words_from rest ""
        else cur :: words_from rest ""
      else words_from rest (cur ++ String c "")
  end.

Definition words (s : string) : list string := words_from s "".

(** [needle in hay] on text. *)
Fixpoint contains (needle hay : string) : bool :=
  startswith needle hay
  || match hay with
     | String _ rest => contains needle rest
     | EmptyString => false
     end.

(** [xs[-1]] *)
Definition last_item (xs : list string) : result string :=
  match rev xs with
  | [] => Raise IndexError
  | x :: _ => Ok x
  end.

End Words.
Export Words.

Definition BASE_REPLAY_URL : string := "https://watchreplay.net".

Section ReplayLookup.

(** The collaborators of the lookup: [requests.get(url, timeout=10)]
    followed by [raise_for_status()], giving [resp.text] or raising; the
    [href] values of [soup.find_all("a", href=True)] in document order;
    and [urllib.parse.urljoin]. *)
Variable fetch_page : string -> result string.
Variable anchor_hrefs : string -> list string.
Variable urljoin : string -> string -> string.

(** [team_full_name.strip().lower().split()[-1]] *)
Definition slug_of (team_full_name : json) : result string :=
  match team_full_name with
  | JStr name => last_item (words (lower (strip name)))
  | _ => Raise AttributeError
  end.

Definition find_replay_link_for_team (team_full_name : json) : result json :=
  slug <- slug_of team_full_name ;;
  match fetch_page (BASE_REPLAY_URL ++ "/") with
  | Raise _ => Ok JNull
  | Ok html =>
      match find (fun href => contains slug (lower href))
                 (anchor_hrefs html) with
      | Some href => Ok (JStr (urljoin BASE_REPLAY_URL href))
      | None => Ok JNull
      end
  end.

End ReplayLookup.

(** ** Further readings of documents *)

Module More.

(** *** Format B players *)

(** The key of a category as [_collect_players] reads it: the
    abbreviation when it is non-empty text, else the name (empty when
    absent); upper-cased. *)
Definition category_key (d : list (string * json)) : option string :=
  let name_text :=
    match assoc "name" d with
    | Some (JStr n) => Some (upper n)
    | None => Some ""
    | Some _ => None
    end in
  match assoc "abbreviation" d with
  | Some (JStr a) => if String.eqb a "" then name_text else Some (upper a)
  | Some v => if truthy v then None else name_text
  | None => name_text
  end.

(** The category a key feeds in Format B. *)
Definition stat_of_key (key : string) : option stat :=
  if String.eqb key "PTS" || String.eqb key "POINTS" then Some Pts
  else if String.eqb key "REB" || String.eqb key "REBOUNDS" then Some Reb
  else if String.eqb key "AST" || String.eqb key "ASSISTS" then Some Ast
  else None.

(** A category of a Format B player: the stat it feeds, if any, and the
    value [_to_int] reads; the value of a category that feeds nothing is
    not read. *)
Definition view_category (cat : json) : option (option stat * Z) :=
  match cat with
  | JDict d =>
      match category_key d with
      | Some key =>
          match stat_of_key key with
          | Some c =>
              match _to_int (match assoc "value" d with
                             | Some v => v
                             | None => JNull
                             end) with
              | Ok z => Some (Some c, z)
              | Raise _ => None
              end
          | None => Some (None, 0)
          end
      | None => None
      end
  | _ => None
  end.

(** A Format B player: the display name and the categories. *)
Definition view_player (ply : json)
  : option (json * list (option stat * Z)) :=
  match ply with
  | JDict d =>
      match display_name ply,
            match assoc "statistics" d with
            | Some (JList cats) => view_all view_category cats
            | None => Some []
            | Some _ => None
            end with
      | Ok nm, Some cats => Some (nm, cats)
      | _, _ => None
      end
  | _ => None
  end.

(** The value a player's categories give stat [c]: that of the last
    category feeding it, 0 without one. *)
Definition category_value (c : stat) (cats : list (option stat * Z)) : Z :=
  fold_left
    (fun acc t =>
       match t with
       | (Some c', v) => if stat_eqb c c' then v else acc
       | (None, _) => acc
       end)
    cats 0.

(** The running values [(pts, reb, ast)] after the categories read so
    far. *)
Definition values_of (cats : list (option stat * Z)) : Z * Z * Z :=
  (category_value Pts cats, category_value Reb cats, category_value Ast cats).

Definition player_line (p : json * list (option stat * Z)) : statline :=
  mk_line (fst p) (category_value Pts (snd p)) (category_value Reb (snd p))
    (category_value Ast (snd p)).

(** A Format B roster: a list of players. *)
Definition view_roster_b (roster : json)
  : option (list (json * list (option stat * Z))) :=
  match roster with
  | JList plys => view_all view_player plys
  | _ => None
  end.

(** A roster of neither format: not a list, and not a dict with a truthy
    ["statistics"]. *)
Definition unrecognised (roster : json) : bool :=
  match roster with
  | JList _ => false
  | JDict d =>
      match assoc "statistics" d with
      | Some st => negb (truthy st)
      | None => true
      end
  | _ => true
  end.

(** *** Notes *)

(** A note that [_parse_round_and_game] passes over: a dict that is not
    an event note, or an event note whose headline is text without the
    separator. *)
Definition passed_over (note : json) : bool :=
  match note with
  | JDict d =>
      if py_eq (match assoc "type" d with Some ty => ty | None => JNull end)
               (JStr "event")
      then
        match assoc "headline" d with
        | Some (JStr h) => negb (contains " - " h)
        | None => true
        | Some _ => false
        end
      else true
  | _ => false
  end.

(** *** Badges *)

(** The badge vocabulary, in the order badges are appended. *)
Definition vocabulary : list string :=
  ["pts50"; "pts40"; "pts30"; "tripleDouble"; "close4"; "closeGame";
   "overtime"].

(** A line score as [q3tot] reads it: the value [_to_int] gives. *)
Definition view_linescore (l : json) : option Z :=
  match l with
  | JDict d =>
      match _to_int (match assoc "value" d with
                     | Some v => v
                     | None => JNull
                     end) with
      | Ok z => Some z
      | Raise _ => None
      end
  | _ => None
  end.

Definition total (vs : list Z) : Z := fold_right Z.add 0 vs.

(** The test of the [any(...)] of step 4. *)
Definition has_triple_double (p : statline) : bool :=
  (pts p >=? 10) && (reb p >=? 10) && (ast p >=? 10).

(** [_to_int(side["score"])] *)
Definition score_of (side : json) : result Z :=
  s <- item side "score" ;; _to_int s.

(** [xs] is [ys] with some elements left out. *)
Fixpoint subseq (xs ys : list string) : bool :=
  match xs, ys with
  | [], _ => true
  | _ :: _, [] => false
  | x :: xs', y :: ys' =>
      if String.eqb x y then subseq xs' ys' else subseq xs ys'
  end.

(** Some player has a triple double. *)
Definition triple_double (players : list statline) : Prop :=
  exists p, In p players /\ pts p >= 10 /\ reb p >= 10 /\ ast p >= 10.

(** *** Events *)

(** The event is finished: its state reads ["post"]. *)
Definition is_post (ev : json) : bool :=
  match event_state ev with
  | Ok s => String.eqb s "post"
  | Raise _ => false
  end.

(** The record [g] is that of the event [ev]: same id and date. *)
Definition record_of (ev : json) (g : game) : Prop :=
  item ev "id" = Ok (gameId g) /\ item ev "date" = Ok (tipoffUTC g).

(** [c["team"]["abbreviation"]] of the home and away side of a record,
    from the two competitors in document order. *)
Definition sides_of (first second : json) : result (json * json) :=
  ha <- item first "homeAway" ;;
  Ok (if py_eq ha (JStr "away") then (second, first) else (first, second)).

(** [ev["competitions"][0]] *)
Definition competition_of (ev : json) : result json :=
  comps <- item ev "competitions" ;; item_at comps 0.

(** [home, away = comp["competitors"]], in document order. *)
Definition competitors_of (comp : json) : result (json * json) :=
  pair <- item comp "competitors" ;; unpack2 pair.

(** [comp.get("series", {}).get("summary", "")] *)
Definition summary_of (comp : json) : result json :=
  series <- get_or comp "series" (JDict []) ;;
  get_or series "summary" (JStr "").

(** [c["team"][k]] *)
Definition team_field (c : json) (k : string) : result json :=
  t <- item c "team" ;; item t k.

(** [c["team"]["displayName"] or c["team"]["name"]] *)
Definition full_name (c : json) : result json :=
  t <- item c "team" ;;
  dn <- item t "displayName" ;;
  if truthy dn then Ok dn else item t "name".

(** *** Summaries in the usual wording *)

(** CPython refuses decimal conversions of more than 4300 digits, in
    [str] and in [int]; [printable n] keeps [n] within that limit. *)
Definition max_str_digits : Z := 4300.
Definition printable (n : Z) : Prop := Z.abs n < 10 ^ max_str_digits.

(** The text [team verb series W-L] of a summary. *)
Definition summary_text (team verb : string) (W L : Z) : string :=
  team ++ " " ++ verb ++ " series " ++ str_of_int W ++ "-" ++ str_of_int L.

(** The text [Series adj W-W2] of a summary. *)
Definition tied_summary (adj : string) (W W2 : Z) : string :=
  "Series " ++ adj ++ " " ++ str_of_int W ++ "-" ++ str_of_int W2.

(** The number of white-space characters of a text. *)
Fixpoint count_spaces (s : string) : nat :=
  match s with
  | EmptyString => 0
  | String c rest => (if is_space c then 1 else 0) + count_spaces rest
  end.

End More.
Export More.

(** ** Further sample documents *)

Module Samples.

(** A Format B box score: player A with points and rebounds, player B
    with points listed twice and a category that feeds nothing. *)
Definition category_doc (ab : string) (v : json) : json :=
  JDict [("abbreviation", JStr ab); ("value", v)].
Definition player_doc (n : string) (cats : list json) : json :=
  JDict [("athlete", JDict [("displayName", JStr n)]);
         ("statistics", JList cats)].
Definition format_b_rosters : list json :=
  [JList [player_doc "A" [category_doc "PTS" (JInt 31);
                          category_doc "REB" (JStr "12")];
          player_doc "B" [category_doc "pts" (JInt 8);
                          category_doc "MIN" (JInt 30);
                          category_doc "Points" (JInt 9)]]].

(** Rosters of neither format. *)
Definition odd_rosters : list json :=
  [JNull; JDict []; JInt 3; JDict [("statistics", JList [])]].

(** The notes of an event: a note of another type, an event note without
    separator and two event notes with one. *)
Definition note_doc (ty headline : string) : json :=
  JDict [("type", JStr ty); ("headline", JStr headline)].
Definition skipped_notes : list json :=
  [note_doc "rotation" "A - B"; note_doc "event" "Play-In Tournament"].
Definition round_note : list (string * json) :=
  [("type", JStr "event");
   ("headline", JStr "East 1st Round - Game 3 - If necessary")].
Definition notes_fields : list (string * json) :=
  [("notes",
    JList (skipped_notes ++ JDict round_note :: [note_doc "event" "X - Y"]))].

(** A competition with a single competitor. *)
Definition lone_competitor : list (string * json) :=
  [("competitors", JList [side_doc "home" mavericks true "110"])].

(** A side with four line scores, the last of them malformed. *)
Definition quarters : list json :=
  [JDict [("value", JInt 28)]; JDict [("value", JStr "31")];
   JDict [("value", JNull)]; JInt 5].
Definition side_with_quarters : list (string * json) :=
  [("linescores", JList quarters)].

(** An event that has not started. *)
Definition upcoming_doc : json :=
  JDict [("id", JStr "402");
         ("competitions",
          JList [JDict [("status",
                         JDict [("type", JDict [("state", JStr "pre")])])]])].

(** Boston at Dallas with the away side listed first. *)
Definition away_first : json :=
  JDict [("competitors",
          JList [side_doc "away" celtics false "102";
                 side_doc "home" mavericks true "110"]);
         ("status", JDict [("type", JDict [("state", JStr "post")]);
                           ("period", JInt 4)])].
Definition away_first_event : json :=
  JDict [("id", JStr "403"); ("date", JStr "2025-05-03T00:00Z");
         ("competitions", JList [away_first])].

(** A summary fetch that returns a Format B box score. *)
Definition box_summary (game_id : string) : result json :=
  Ok (JDict [("boxscore", JDict [("players", JList format_b_rosters)])]).

(** A replay page with three links. *)
Definition replay_page (url : string) : result string := Ok "<html>".
Definition replay_hrefs (html : string) : list string :=
  ["/nba/boston-celtics-vs-knicks"; "/NBA/Dallas-MAVERICKS-game-5";
   "/nba/mavericks-again"].
Definition plain_join (base href : string) : string := base ++ href.

(** The record of [event_doc 3 4] without box score, leaders or replay
    link. *)
Definition playoff_record : game :=
  mk_game (JStr "401") (JStr "2025-05-01T00:00Z") (JStr "DAL") (JStr "BOS")
    (JStr "DAL.png") (JStr "BOS.png") "" "" "Playoffs" "" ["close4"] JNull.

End Samples.
Export Samples.

(** * Properties *)

(** ** The error monad and Python equality *)

Lemma bind_ok {A B} (c : result A) (k : A -> result B) (b : B) :
  bind c k = Ok b -> exists a, c = Ok a /\ k a = Ok b.
Proof.
  destruct c as [a | e]; simpl; intros H; [eauto | discriminate].
Qed.

(** Two integers are equal in Python when they are the same integer. *)
Lemma py_eq_int a b : py_eq (JInt a) (JInt b) = (a =? b).
Proof.
  cbn [py_eq num_of float_eq].
  change (Z.min 0 0) with 0. change (2 ^ (0 - 0)) with 1.
  now rewrite !Z.mul_1_r.
Qed.

(** ** Soundness of the backtracking matcher *)

Section MatcherSound.

Variable text : string.

Lemma append_assoc (a b c : string) :
  ((a ++ b) ++ c = a ++ (b ++ c))%string.
Proof. induction a; simpl; congruence. Qed.

Lemma append_length (a b : string) :
  String.length (a ++ b) = (String.length a + String.length b)%nat.
Proof. induction a; simpl; congruence. Qed.

Lemma greedy_sound p k : forall s pos g m,
  greedy p k pos s g = Some m ->
  exists w s', s = (w ++ s')%string /\ run_of p w
               /\ k (pos + String.length w)%nat s' g = Some m.
Proof.
  induction s as [| c rest IH]; simpl; intros pos g m H; [discriminate |].
  destruct (p c) eqn:Hc; [| discriminate].
  destruct (greedy p k (S pos) rest g) eqn:Hg.
  - inversion H; subst. destruct (IH _ _ _ Hg) as (w & s' & -> & [Hne Hall] & Hk).
    exists (String c w), s'. repeat split; simpl.
    + discriminate.
    + now rewrite Hc, Hall.
    + now rewrite <- plus_n_Sm.
  - exists (String c ""), rest. repeat split; simpl.
    + discriminate.
    + now rewrite Hc.
    + now rewrite Nat.add_1_r.
Qed.

Lemma reluctant_sound p k : forall s pos g m,
  reluctant p k pos s g = Some m ->
  exists w s', s = (w ++ s')%string /\ run_of p w
               /\ k (pos + String.length w)%nat s' g = Some m.
Proof.
  induction s as [| c rest IH]; simpl; intros pos g m H; [discriminate |].
  destruct (p c) eqn:Hc; [| discriminate].
  destruct (k (S pos) rest g) eqn:Hk.
  - inversion H; subst. exists (String c ""), rest. repeat split; simpl.
    + discriminate.
    + now rewrite Hc.
    + now rewrite Nat.add_1_r.
  - destruct (IH _ _ _ H) as (w & s' & -> & [Hne Hall] & Hk').
    exists (String c w), s'. repeat split; simpl.
    + discriminate.
    + now rewrite Hc, Hall.
    + now rewrite <- plus_n_Sm.
Qed.

Lemma substring_middle (pre w post : string) :
  substring (String.length pre) (String.length w) (pre ++ w ++ post) = w.
Proof.
  induction pre as [| c pre IH]; simpl; [| exact IH].
  induction w as [| c w IHw]; simpl.
  - now destruct post.
  - now rewrite IHw.
Qed.

(** Whatever [run] returns comes from a word that [r] matches, followed
    by a success of the continuation. [pre] is the text already
    consumed. *)
Lemma run_sound : forall r k pre s g m,
  text = (pre ++ s)%string ->
  run text r k (String.length pre) s g = Some m ->
  exists w s' g', s = (w ++ s')%string
                  /\ matched r (String.length pre) g w g'
                  /\ k (String.length (pre ++ w)) s' g' = Some m.
Proof.
  induction r as [| | a | a | a | r1 IH1 r2 IH2 | r1 IH1 r2 IH2 | name r IH];
    simpl; intros k pre s g m Ht H.
  - exists "", s, g. rewrite append_length, Nat.add_0_r.
    split; [reflexivity | split; [constructor | assumption]].
  - destruct (Nat.eqb_spec (String.length pre) 0) as [E |]; [| discriminate].
    exists "", s, g. rewrite append_length, Nat.add_0_r, E.
    rewrite E in H.
    split; [reflexivity | split; [constructor | assumption]].
  - destruct s as [| c rest]; [discriminate |].
    destruct (atom_ok a c) eqn:Hc; [| discriminate].
    exists (String c ""), rest, g. rewrite append_length. simpl.
    rewrite Nat.add_1_r.
    split; [reflexivity | split; [now constructor | assumption]].
  - destruct (greedy_sound _ _ _ _ _ _ H) as (w & s' & -> & Hw & Hk).
    exists w, s', g. rewrite append_length.
    split; [reflexivity | split; [now constructor | assumption]].
  - destruct (reluctant_sound _ _ _ _ _ _ H) as (w & s' & -> & Hw & Hk).
    exists w, s', g. rewrite append_length.
    split; [reflexivity | split; [now constructor | assumption]].
  - destruct (IH1 _ _ _ _ _ Ht H) as (w1 & s1 & g1 & -> & M1 & H1).
    assert (Ht' : text = ((pre ++ w1) ++ s1)%string)
      by now rewrite append_assoc.
    destruct (IH2 _ _ _ _ _ Ht' H1) as (w2 & s2 & g2 & -> & M2 & H2).
    exists (w1 ++ w2)%string, s2, g2. split; [| split].
    + now rewrite append_assoc.
    + econstructor; [eassumption |].
      now rewrite <- append_length.
    + now rewrite <- append_assoc.
  - destruct (run text r1 k (String.length pre) s g) eqn:H1.
    + inversion H; subst m.
      destruct (IH1 _ _ _ _ _ Ht H1) as (w & s' & g' & -> & M & Hk).
      exists w, s', g'.
      split; [reflexivity | split; [now apply m_alt_l | assumption]].
    + destruct (IH2 _ _ _ _ _ Ht H) as (w & s' & g' & -> & M & Hk).
      exists w, s', g'.
      split; [reflexivity | split; [now apply m_alt_r | assumption]].
  - destruct (IH _ _ _ _ _ Ht H) as (w & s' & g' & -> & M & Hk).
    cbv beta in Hk.
    replace (String.length (pre ++ w) - String.length pre)%nat
      with (String.length w) in Hk by (rewrite append_length; lia).
    rewrite Ht, substring_middle in Hk.
    eexists w, s', _.
    split; [reflexivity | split; [apply m_group; exact M | exact Hk]].
Qed.

(** A match of the whole pattern: the text starts with a word the
    pattern matches and the groups are those of that word. *)
Lemma re_match_sound r m :
  re_match r text = Some m ->
  exists w rest, text = (w ++ rest)%string /\ matched r 0%nat [] w m.
Proof.
  unfold re_match. intros H.
  destruct (run_sound r _ "" text [] m eq_refl H)
    as (w & s' & g' & -> & M & Hk).
  inversion Hk; subst. now exists w, s'.
Qed.

End MatcherSound.

(** ** What a successful match of the two patterns says about the text *)

Lemma matched_word : forall lit pos g w g',
  matched (word lit) pos g w g' -> g' = g /\ lower w = lower lit.
Proof.
  induction lit as [| c lit IH]; simpl; intros pos g w g' M.
  - inversion M; subst. now split.
  - inversion M as [| | | | | r1 r2 p0 g0 w1 g1 w2 g2 M1 M2 | | |]; subst.
    inversion M1 as [| | a c0 p1 g3 Hc | | | | | |]; subst.
    destruct (IH _ _ _ _ M2) as [-> Hl]. split; [reflexivity |].
    simpl in Hc. apply Ascii.eqb_eq in Hc.
    change (lower (String c0 w2) = lower (String c lit)).
    unfold lower in *. cbn [map_chars]. now rewrite Hc, Hl.
Qed.

Lemma matched_cat r1 r2 pos g w g' :
  matched (Cat r1 r2) pos g w g' ->
  exists w1 g1 w2, w = (w1 ++ w2)%string /\ matched r1 pos g w1 g1
                   /\ matched r2 (pos + String.length w1)%nat g1 w2 g'.
Proof. intros M; inversion M; subst; eauto 6. Qed.

Lemma matched_group n r pos g w g' :
  matched (Group n r) pos g w g' ->
  exists g1, g' = (n, w) :: g1 /\ matched r pos g w g1.
Proof. intros M; inversion M; subst; eauto. Qed.

Lemma matched_alt r1 r2 pos g w g' :
  matched (Alt r1 r2) pos g w g' ->
  matched r1 pos g w g' \/ matched r2 pos g w g'.
Proof. intros M; inversion M; subst; auto. Qed.

Lemma matched_plus a pos g w g' :
  matched (Plus a) pos g w g' -> g' = g /\ run_of (atom_ok a) w.
Proof. intros M; inversion M; subst; auto. Qed.

Lemma matched_plus_lazy a pos g w g' :
  matched (PlusLazy a) pos g w g' -> g' = g /\ run_of (atom_ok a) w.
Proof. intros M; inversion M; subst; auto. Qed.

Lemma matched_one a pos g w g' :
  matched (One a) pos g w g' ->
  exists c, w = String c "" /\ g' = g /\ atom_ok a c = true.
Proof. intros M; inversion M; subst; eauto. Qed.

Lemma matched_bol pos g w g' :
  matched Bol pos g w g' -> w = "" /\ g' = g.
Proof. intros M; inversion M; subst; auto. Qed.

Lemma matched_eps pos g w g' :
  matched Eps pos g w g' -> w = "" /\ g' = g.
Proof. intros M; inversion M; subst; auto. Qed.

Ltac split_cat M :=
  let w1 := fresh "w" in let g1 := fresh "g" in let w2 := fresh "w" in
  let E := fresh "E" in let M1 := fresh "M" in
  apply matched_cat in M; destruct M as (w1 & g1 & w2 & E & M1 & M);
  subst.

Lemma hyphen_only c : atom_ok (Char "-") c = true -> c = "-"%char.
Proof.
  destruct c as [[] [] [] [] [] [] [] []]; simpl; intros H;
    try discriminate H; reflexivity.
Qed.

Lemma append_nil_r (s : string) : (s ++ "")%string = s.
Proof. induction s; simpl; congruence. Qed.

Ltac open_matched :=
  repeat match goal with
  | H : matched Bol _ _ _ _ |- _ =>
      apply matched_bol in H; destruct H as [? ?]; subst
  | H : matched Eps _ _ _ _ |- _ =>
      apply matched_eps in H; destruct H as [? ?]; subst
  | H : matched (word _) _ _ _ _ |- _ =>
      apply matched_word in H; destruct H as [? ?]; subst
  | H : matched (Plus _) _ _ _ _ |- _ =>
      apply matched_plus in H; destruct H as [? ?]; subst
  | H : matched (PlusLazy _) _ _ _ _ |- _ =>
      apply matched_plus_lazy in H; destruct H as [? ?]; subst
  | H : matched (One (Char "-")) _ _ _ _ |- _ =>
      let c := fresh "c" in let Hc := fresh "Hc" in
      apply matched_one in H; destruct H as (c & ? & ? & Hc);
      apply hyphen_only in Hc; subst
  | H : matched (Group _ _) _ _ _ _ |- _ =>
      let g := fresh "g" in
      apply matched_group in H; destruct H as (g & ? & H); subst
  | H : matched (Alt _ _) _ _ _ _ |- _ =>
      apply matched_alt in H; destruct H as [H | H]
  end.

Ltac flatten_text :=
  repeat rewrite append_nil_r; repeat rewrite append_assoc;
  cbn [append].

Lemma series_re_shape text m :
  re_match _SERIES_RE text = Some m ->
  exists team verb w l,
    m = [("losses", l); ("wins", w); ("verb", verb); ("team", team)]
    /\ leads_wins_text text team verb w l.
Proof.
  intros H. apply re_match_sound in H. destruct H as (w & rest & -> & M).
  cbv [_SERIES_RE sequence fold_right] in M.
  do 10 split_cat M. open_matched.
  all: do 4 eexists; (split; [reflexivity |]); flatten_text.
  all: do 5 eexists; (split; [reflexivity |]); auto 12.
Qed.

Lemma tied_re_shape text m :
  re_match _TIED_RE text = Some m ->
  exists w w2, m = [("wins2", w2); ("wins", w)] /\ tied_text text w w2.
Proof.
  intros H. apply re_match_sound in H. destruct H as (w & rest & -> & M).
  cbv [_TIED_RE sequence fold_right] in M.
  do 7 split_cat M. open_matched.
  all: do 2 eexists; (split; [reflexivity |]); flatten_text.
  all: do 5 eexists; (split; [reflexivity |]); auto 12.
Qed.

(** ** Completeness of the backtracking matcher *)

Section MatcherComplete.

Variable text : string.

Lemma greedy_complete p k : forall w,
  run_of p w ->
  forall pos s' g,
    k (pos + String.length w)%nat s' g <> None ->
    greedy p k pos (w ++ s') g <> None.
Proof.
  induction w as [| c w IH]; intros [Hne Hall]; [contradiction |].
  simpl in Hall. apply andb_prop in Hall. destruct Hall as [Hc Hw].
  intros pos s' g Hk. simpl. rewrite Hc.
  destruct w as [| c' w'].
  - simpl in *. rewrite Nat.add_1_r in Hk.
    now destruct (greedy p k (S pos) s' g).
  - assert (Hr : greedy p k (S pos) (String c' w' ++ s')%string g <> None).
    { apply IH; [split; [discriminate | exact Hw] |].
      cbn [String.length] in Hk |- *. now rewrite <- plus_n_Sm in Hk. }
    destruct (greedy p k (S pos) (String c' w' ++ s')%string g);
      [discriminate | contradiction].
Qed.

Lemma reluctant_complete p k : forall w,
  run_of p w ->
  forall pos s' g,
    k (pos + String.length w)%nat s' g <> None ->
    reluctant p k pos (w ++ s') g <> None.
Proof.
  induction w as [| c w IH]; intros [Hne Hall]; [contradiction |].
  simpl in Hall. apply andb_prop in Hall. destruct Hall as [Hc Hw].
  intros pos s' g Hk. simpl. rewrite Hc.
  destruct (k (S pos) (w ++ s')%string g) eqn:E; [discriminate |].
  destruct w as [| c' w'].
  - simpl in *. rewrite Nat.add_1_r in Hk. contradiction.
  - apply IH; [split; [discriminate | exact Hw] |].
    cbn [String.length] in Hk |- *. now rewrite <- plus_n_Sm in Hk.
Qed.

(** When [r] can consume a word after which the continuation succeeds
    whatever the groups, [run] finds some match. *)
Lemma run_complete : forall r pos g w g',
  matched r pos g w g' ->
  forall k s',
    (forall g'', k (pos + String.length w)%nat s' g'' <> None) ->
    forall g0, run text r k pos (w ++ s') g0 <> None.
Proof.
  induction 1 as [pos g | g | a c pos g Hc | a w pos g Hw | a w pos g Hw
                  | r1 r2 pos g w1 g1 w2 g2 _ IH1 _ IH2
                  | r1 r2 pos g w g' _ IH | r1 r2 pos g w g' _ IH
                  | name r pos g w g' _ IH];
    intros k s' Hk g0; simpl.
  - specialize (Hk g0). now rewrite Nat.add_0_r in Hk.
  - apply Hk.
  - rewrite Hc. specialize (Hk g0). simpl in Hk.
    now rewrite Nat.add_1_r in Hk.
  - now apply greedy_complete.
  - now apply reluctant_complete.
  - rewrite append_assoc. apply IH1. intros g''. apply IH2. intros g3.
    specialize (Hk g3). now rewrite append_length, Nat.add_assoc in Hk.
  - specialize (IH k s' Hk g0).
    now destruct (run text r1 k pos (w ++ s')%string g0).
  - destruct (run text r1 k pos (w ++ s')%string g0); [discriminate |].
    now apply IH.
  - apply IH. intros g''. apply Hk.
Qed.

End MatcherComplete.

Lemma re_match_complete r w rest g' :
  matched r 0%nat [] w g' -> re_match r (w ++ rest) <> None.
Proof.
  intros M. unfold re_match.
  apply (run_complete _ _ _ _ _ _ M). discriminate.
Qed.

Lemma word_matches : forall lit w pos g,
  lower w = lower lit -> matched (word lit) pos g w g.
Proof.
  induction lit as [| x lit IH]; intros [| c w] pos g H;
    try discriminate H.
  - constructor.
  - unfold lower in H. simpl in H. inversion H as [[Hc Hw]].
    change (String c w) with (String c "" ++ w)%string.
    simpl word. econstructor.
    + constructor. simpl. rewrite Hc. apply Ascii.eqb_refl.
    + now apply IH.
Qed.

(** A text of the leads/wins shape is matched by [_SERIES_RE], and a text
    of the tied shape by [_TIED_RE]: with the two shape lemmas, a match
    exists exactly for the texts of the shape. *)
Lemma verb_matches verb pos g :
  lower verb = "leads" \/ lower verb = "wins" ->
  matched (Alt (word "leads") (word "wins")) pos g verb g.
Proof.
  intros [H | H]; [apply m_alt_l | apply m_alt_r]; now apply word_matches.
Qed.

Lemma adjective_matches adj pos g :
  lower adj = "even" \/ lower adj = "tied" ->
  matched (Alt (word "even") (word "tied")) pos g adj g.
Proof.
  intros [H | H]; [apply m_alt_l | apply m_alt_r]; now apply word_matches.
Qed.

Lemma series_re_matches text team verb w l :
  leads_wins_text text team verb w l -> re_match _SERIES_RE text <> None.
Proof.
  intros (ws1 & ws2 & kw & ws3 & rest & -> & Ht & H1 & H2 & H3 & Hv & Hk
          & Hw & Hl).
  replace (team ++ ws1 ++ verb ++ ws2 ++ kw ++ ws3 ++ w ++ "-" ++ l ++ rest)%string
    with (("" ++ team ++ ws1 ++ verb ++ ws2 ++ kw ++ ws3 ++ w ++ "-"
           ++ l ++ "") ++ rest)%string
    by (simpl; rewrite append_nil_r; now rewrite !append_assoc).
  eapply re_match_complete.
  cbv [_SERIES_RE sequence fold_right].
  eapply m_cat; [apply m_bol |].
  eapply m_cat; [apply m_group, m_plus_lazy; exact Ht |].
  eapply m_cat; [apply m_plus; exact H1 |].
  eapply m_cat; [apply m_group, verb_matches; exact Hv |].
  eapply m_cat; [apply m_plus; exact H2 |].
  eapply m_cat; [apply word_matches; exact Hk |].
  eapply m_cat; [apply m_plus; exact H3 |].
  eapply m_cat; [apply m_group, m_plus; exact Hw |].
  eapply (m_cat _ _ _ _ "-"); [apply m_one; reflexivity |].
  eapply m_cat; [apply m_group, m_plus; exact Hl |].
  apply m_eps.
Qed.

Lemma tied_re_matches text w w2 :
  tied_text text w w2 -> re_match _TIED_RE text <> None.
Proof.
  intros (kw & ws1 & adj & ws2 & rest & -> & Hk & H1 & H2 & Ha & Hw & Hw2).
  replace (kw ++ ws1 ++ adj ++ ws2 ++ w ++ "-" ++ w2 ++ rest)%string
    with ((kw ++ ws1 ++ adj ++ ws2 ++ w ++ "-" ++ w2 ++ "") ++ rest)%string
    by (rewrite append_nil_r; now rewrite !append_assoc).
  eapply re_match_complete.
  cbv [_TIED_RE sequence fold_right].
  eapply m_cat; [apply word_matches; exact Hk |].
  eapply m_cat; [apply m_plus; exact H1 |].
  eapply m_cat; [apply adjective_matches; exact Ha |].
  eapply m_cat; [apply m_plus; exact H2 |].
  eapply m_cat; [apply m_group, m_plus; exact Hw |].
  eapply (m_cat _ _ _ _ "-"); [apply m_one; reflexivity |].
  eapply m_cat; [apply m_group, m_plus; exact Hw2 |].
  apply m_eps.
Qed.

(** A match exists exactly for the texts of the shape. *)
Lemma series_re_none text :
  re_match _SERIES_RE text = None <->
  (forall team verb w l, ~ leads_wins_text text team verb w l).
Proof.
  split.
  - intros H team verb w l Hs. now apply (series_re_matches _ _ _ _ _ Hs).
  - intros H. destruct (re_match _SERIES_RE text) as [m |] eqn:E;
      [| reflexivity].
    destruct (series_re_shape _ _ E) as (team & verb & w & l & _ & Hs).
    now destruct (H _ _ _ _ Hs).
Qed.

Lemma tied_re_none text :
  re_match _TIED_RE text = None <->
  (forall w w2, ~ tied_text text w w2).
Proof.
  split.
  - intros H w w2 Hs. now apply (tied_re_matches _ _ _ Hs).
  - intros H. destruct (re_match _TIED_RE text) as [m |] eqn:E;
      [| reflexivity].
    destruct (tied_re_shape _ _ E) as (w & w2 & _ & Hs).
    now destruct (H _ _ Hs).
Qed.

(** ** Reading competitors *)

Lemma text_of_some v s : text_of v = Some s -> v = Some (JStr s).
Proof. destruct v as [[] |]; simpl; congruence. Qed.

Lemma view_team_items t n :
  view_team t = Some n ->
  item t "displayName" = Ok (JStr (t_display n))
  /\ item t "shortDisplayName" = Ok (JStr (t_short n))
  /\ item t "name" = Ok (JStr (t_name n))
  /\ item t "abbreviation" = Ok (JStr (t_abbr n)).
Proof.
  destruct t; simpl; try discriminate.
  destruct (text_of (assoc "displayName" d)) eqn:E1; [| discriminate].
  destruct (text_of (assoc "shortDisplayName" d)) eqn:E2; [| discriminate].
  destruct (text_of (assoc "name" d)) eqn:E3; [| discriminate].
  destruct (text_of (assoc "abbreviation" d)) eqn:E4; [| discriminate].
  intros H; inversion H; subst; simpl.
  apply text_of_some in E1, E2, E3, E4. now rewrite E1, E2, E3, E4.
Qed.

Lemma view_competitor_items c k :
  view_competitor c = Some k ->
  exists t w,
    item c "team" = Ok t /\ view_team t = Some (c_team k)
    /\ get c "winner" = Ok w /\ truthy w = c_winner k.
Proof.
  destruct c; simpl; try discriminate.
  destruct (assoc "team" d) as [t |] eqn:Et; [| discriminate].
  destruct (view_team t) as [n |] eqn:Vt; [| discriminate].
  intros H; inversion H; subst; simpl.
  exists t, (match assoc "winner" d with Some w => w | None => JNull end).
  auto.
Qed.

Lemma team_abbr_view c k :
  view_competitor c = Some k -> team_abbr c = Ok (JStr (abbr_of k)).
Proof.
  intros V. destruct (view_competitor_items _ _ V) as (t & w & It & Vt & _).
  unfold team_abbr. rewrite It. simpl.
  now destruct (view_team_items _ _ Vt) as (_ & _ & _ & ->).
Qed.

Lemma team_matches_view text t n :
  view_team t = Some n ->
  team_matches text t =
    Ok (let x := lower text in
        String.eqb x (lower (t_display n)) || String.eqb x (lower (t_short n))
        || String.eqb x (lower (t_name n)) || String.eqb x (lower (t_abbr n))).
Proof.
  intros V. destruct (view_team_items _ _ V) as (E1 & E2 & E3 & E4).
  unfold team_matches. now rewrite E1, E2, E3, E4.
Qed.

(** [_match_team_to_abbr] resolves a team text as [resolve_abbr] does. *)
Lemma match_team_to_abbr_view text : forall cs ks,
  Forall2 (fun c k => view_competitor c = Some k) cs ks ->
  _match_team_to_abbr text cs = Ok (JStr (resolve_abbr text ks)).
Proof.
  induction 1 as [| c k cs ks V _ IH]; [reflexivity |].
  destruct (view_competitor_items _ _ V) as (t & w & It & Vt & _).
  simpl. rewrite It. simpl. rewrite (team_matches_view _ _ _ Vt). simpl.
  unfold resolve_abbr. simpl. unfold is_alias at 1.
  destruct (_ || _)%bool.
  - now destruct (view_team_items _ _ Vt) as (_ & _ & _ & ->).
  - exact IH.
Qed.

Section SeriesProps.

Variable py_repr : json -> string.
Variables (cd : list (string * json)) (c0 c1 : json) (k0 k1 : competitor).
Hypothesis Hcs : assoc "competitors" cd = Some (JList [c0; c1]).
Hypothesis V0 : view_competitor c0 = Some k0.
Hypothesis V1 : view_competitor c1 = Some k1.

Lemma series_before_game_view txt :
  _series_before_game py_repr (JStr txt) (JDict cd) =
    match re_match _SERIES_RE txt with
    | Some m =>
        bind (group m "team") (fun team =>
        let leader := resolve_abbr team [k0; k1] in
        bind (group m "wins") (fun w =>
        bind (group m "losses") (fun l =>
        bind (py_int (JStr w)) (fun wins =>
        bind (py_int (JStr l)) (fun losses =>
        bind (group m "verb") (fun verb =>
        if String.eqb (lower verb) "wins" then
          Ok (label leader (wins - 1) losses)
        else if String.eqb leader (abbr_of (picked_winner k0 k1)) then
          Ok (label leader (wins - 1) losses)
        else
          Ok (label leader wins (losses - 1))))))))
    | None =>
        match re_match _TIED_RE txt with
        | Some m =>
            bind (group m "wins") (fun w =>
            bind (py_int (JStr w)) (fun wins =>
            Ok (label (abbr_of (picked_loser k0 k1)) wins (wins - 1))))
        | None => Ok txt
        end
    end.
Proof.
  destruct (view_competitor_items _ _ V0) as (t0 & w0 & It0 & Vt0 & G0 & T0).
  destruct (view_competitor_items _ _ V1) as (t1 & w1 & It1 & Vt1 & G1 & T1).
  pose proof (team_abbr_view _ _ V0) as A0.
  pose proof (team_abbr_view _ _ V1) as A1.
  assert (Hm : forall team, _match_team_to_abbr team [c0; c1]
               = Ok (JStr (resolve_abbr team [k0; k1])))
    by (intros; apply match_team_to_abbr_view; repeat constructor; assumption).
  unfold _series_before_game. cbn [item]. rewrite Hcs.
  cbn [bind item_at nth_error iter first_winner].
  rewrite G0. cbn [bind]. rewrite T0.
  unfold picked_winner, picked_loser.
  destruct (c_winner k0).
  - cbn [bind Nat.eqb]. rewrite A0. cbn [bind]. rewrite A1. cbn [bind].
    destruct (re_match _SERIES_RE txt) as [m |].
    + destruct (group m "team") as [team |]; [| reflexivity]. cbn [bind].
      rewrite Hm. cbn [bind].
      destruct (group m "wins") as [w |]; [| reflexivity].
      destruct (group m "losses") as [l |]; [| reflexivity].
      cbn [bind]. destruct (py_int (JStr w)); [| reflexivity].
      destruct (py_int (JStr l)); [| reflexivity].
      destruct (group m "verb"); reflexivity.
    + destruct (re_match _TIED_RE txt) as [m |]; [| reflexivity].
      destruct (group m "wins") as [w |]; [| reflexivity].
      cbn [bind]. destruct (py_int (JStr w)); reflexivity.
  - rewrite G1. cbn [bind]. rewrite T1.
    destruct (c_winner k1).
    + cbn [bind Nat.eqb]. rewrite A1. cbn [bind]. rewrite A0. cbn [bind].
      destruct (re_match _SERIES_RE txt) as [m |].
      * destruct (group m "team") as [team |]; [| reflexivity]. cbn [bind].
        rewrite Hm. cbn [bind].
        destruct (group m "wins") as [w |]; [| reflexivity].
        destruct (group m "losses") as [l |]; [| reflexivity].
        cbn [bind]. destruct (py_int (JStr w)); [| reflexivity].
        destruct (py_int (JStr l)); [| reflexivity].
        destruct (group m "verb"); reflexivity.
      * destruct (re_match _TIED_RE txt) as [m |]; [| reflexivity].
        destruct (group m "wins") as [w |]; [| reflexivity].
        cbn [bind]. destruct (py_int (JStr w)); reflexivity.
    + cbn [bind]. rewrite A0. cbn [bind]. rewrite A1. cbn [bind].
      destruct (re_match _SERIES_RE txt) as [m |].
      * destruct (group m "team") as [team |]; [| reflexivity]. cbn [bind].
        rewrite Hm. cbn [bind].
        destruct (group m "wins") as [w |]; [| reflexivity].
        destruct (group m "losses") as [l |]; [| reflexivity].
        cbn [bind]. destruct (py_int (JStr w)); [| reflexivity].
        destruct (py_int (JStr l)); [| reflexivity].
        destruct (group m "verb"); reflexivity.
      * destruct (re_match _TIED_RE txt) as [m |]; [| reflexivity].
        destruct (group m "wins") as [w |]; [| reflexivity].
        cbn [bind]. destruct (py_int (JStr w)); reflexivity.
Qed.
End SeriesProps.

(** How a team text resolves: the first competitor it names decides, and
    a text that names neither is kept as it is. *)
Lemma resolve_abbr_pair text k0 k1 :
  resolve_abbr text [k0; k1] =
    if is_alias text k0 then abbr_of k0
    else if is_alias text k1 then abbr_of k1
    else text.
Proof.
  unfold resolve_abbr. simpl.
  destruct (is_alias text k0); [reflexivity |].
  now destruct (is_alias text k1).
Qed.

Lemma picked_winner_declared k0 k1 :
  one_winner k0 k1 -> picked_winner k0 k1 = declared_winner k0 k1.
Proof.
  unfold one_winner, declared_winner, picked_winner.
  destruct (c_winner k0), (c_winner k1); simpl; congruence.
Qed.

Lemma picked_loser_declared k0 k1 :
  one_winner k0 k1 -> picked_loser k0 k1 = declared_loser k0 k1.
Proof.
  unfold one_winner, declared_loser, picked_loser.
  destruct (c_winner k0), (c_winner k1); simpl; congruence.
Qed.

(** ** [int] on a run of digits *)

Lemma digit_not_int_space c : is_digit c = true -> is_int_space c = false.
Proof.
  destruct c as [[] [] [] [] [] [] [] []]; try discriminate; reflexivity.
Qed.

Lemma int_rstrip_digits s : all_chars is_digit s = true -> int_rstrip s = s.
Proof.
  induction s as [| c s IH]; simpl; [reflexivity |].
  intros H. apply andb_prop in H. destruct H as [Hc Hs].
  rewrite (IH Hs), (digit_not_int_space _ Hc). now destruct s.
Qed.

Lemma int_strip_digits s : all_chars is_digit s = true -> int_strip s = s.
Proof.
  intros H. unfold int_strip.
  replace (int_lstrip s) with s; [now apply int_rstrip_digits |].
  destruct s as [| c s]; [reflexivity |]. simpl in *.
  apply andb_prop in H. destruct H as [Hc _].
  now rewrite (digit_not_int_space _ Hc).
Qed.

(** A text of characters below 127 reaches the parser of [int] as it
    is. *)
Lemma chars_of_head c s : exists h t, chars_of (String c s) = String c h :: t.
Proof.
  cbn [chars_of]. destruct (chars_of s) as [| [| d h] t]; eauto.
  destruct (is_continuation d); eauto.
Qed.

Lemma int_chars_plain : forall s,
  all_chars (fun c => (code c <? 127)%nat) s = true ->
  int_chars (chars_of s) = Some s.
Proof.
  induction s as [| c s IH]; intros H; [reflexivity |].
  simpl in H. apply andb_prop in H. destruct H as [Hc Hs].
  specialize (IH Hs).
  assert (Hone : int_char (String c "") = Some (String c "")).
  { unfold int_char. cbv zeta. cbn [codepoint]. rewrite Nat.sub_0_r.
    replace (N.of_nat (code c) <? 127)%N with true; [reflexivity |].
    symmetry. apply N.ltb_lt. apply Nat.ltb_lt in Hc. lia. }
  destruct s as [| d s'].
  - cbn [chars_of int_chars]. now rewrite Hone.
  - destruct (chars_of_head d s') as (h & t & E).
    cbn [chars_of] in *. rewrite E in *.
    assert (Hd : is_continuation d = false).
    { simpl in Hs. apply andb_prop in Hs. destruct Hs as [Hd _].
      apply Nat.ltb_lt in Hd. unfold is_continuation.
      apply andb_false_iff. left. apply Nat.leb_gt. lia. }
    rewrite Hd. cbn [int_chars]. rewrite Hone.
    cbn [int_chars] in IH. now rewrite IH.
Qed.

Lemma digits_plain s :
  all_chars is_digit s = true ->
  all_chars (fun c => (code c <? 127)%nat) s = true.
Proof.
  induction s as [| c s IH]; simpl; [reflexivity |].
  intros H. apply andb_prop in H. destruct H as [Hc Hs].
  rewrite (IH Hs), andb_true_r.
  destruct c as [[] [] [] [] [] [] [] []]; try discriminate Hc; reflexivity.
Qed.

Lemma count_digits_run s :
  all_chars is_digit s = true -> count_digits s = String.length s.
Proof.
  induction s as [| c s IH]; simpl; [reflexivity |].
  intros H. apply andb_prop in H. destruct H as [Hc Hs].
  now rewrite Hc, (IH Hs).
Qed.

Lemma digits_value : forall s acc,
  all_chars is_digit s = true ->
  int_digits true acc s = Some (digits_val acc s).
Proof.
  induction s as [| c s IH]; intros acc H; [reflexivity |].
  simpl in H. apply andb_prop in H. destruct H as [Hc Hs].
  cbn [int_digits digits_val]. rewrite Hc. now apply IH.
Qed.

Lemma int_digits_start s :
  all_chars is_digit s = true -> s <> "" ->
  match s with
  | String "-" rest => option_map Z.opp (int_digits false 0 rest)
  | String "+" rest => int_digits false 0 rest
  | _ => int_digits false 0 s
  end = Some (digits_val 0 s).
Proof.
  intros Hd Hne. destruct s as [| c r]; [contradiction |].
  pose proof (digits_value (String c r) 0 Hd) as Hv.
  simpl in Hd. apply andb_prop in Hd. destruct Hd as [Hc _].
  destruct c as [[] [] [] [] [] [] [] []]; try discriminate Hc; exact Hv.
Qed.

(** [int(w)] for a run of digits: its value, and a [ValueError] past the
    limit on the number of digits. *)
Lemma py_int_digits w :
  run_of is_digit w ->
  py_int (JStr w)
  = if (String.length w <=? default_max_str_digits)%nat
    then Ok (digits_val 0 w) else Raise ValueError.
Proof.
  intros [Hne Hd]. unfold py_int, int_of_text.
  rewrite (int_chars_plain _ (digits_plain _ Hd)). cbv zeta.
  rewrite (int_strip_digits _ Hd), (count_digits_run _ Hd).
  destruct (String.length w <=? default_max_str_digits)%nat; [| reflexivity].
  now rewrite (int_digits_start _ Hd Hne).
Qed.

(** C1, as amended. A summary of ASCII text that matches the leads/wins
    pattern, for a pair of competitors with ASCII names and one declared
    winner: the match splits the text into team, verb and the two counts
    [W]-[L]; the team text resolves, case-insensitively, to the
    abbreviation of the first competitor one of whose four names it
    equals, and to itself when it names neither. When neither count has
    more than [default_max_str_digits] digits the label is
    [leader leads series (W-1)-L] when the verb is "wins", also when the
    verb is "leads" and the leader abbreviation is the declared winner's,
    and [leader leads series W-(L-1)] otherwise; with a longer count the
    call raises [ValueError]. *)
Theorem series_leads_wins_label :
  forall (py_repr : json -> string) cd c0 c1 k0 k1 txt m,
    assoc "competitors" cd = Some (JList [c0; c1]) ->
    view_competitor c0 = Some k0 ->
    view_competitor c1 = Some k1 ->
    one_winner k0 k1 ->
    is_ascii txt = true ->
    ascii_names k0 = true -> ascii_names k1 = true ->
    re_match _SERIES_RE txt = Some m ->
    exists team verb w l,
      m = [("losses", l); ("wins", w); ("verb", verb); ("team", team)]
      /\ leads_wins_text txt team verb w l
      /\ let leader :=
           if is_alias team k0 then abbr_of k0
           else if is_alias team k1 then abbr_of k1
           else team in
         let W := digits_val 0 w in
         let L := digits_val 0 l in
         _series_before_game py_repr (JStr txt) (JDict cd) =
           if ((String.length w <=? default_max_str_digits)
               && (String.length l <=? default_max_str_digits))%nat
           then
             Ok (if String.eqb (lower verb) "wins" then label leader (W - 1) L
                 else if String.eqb leader (abbr_of (declared_winner k0 k1))
                      then label leader (W - 1) L
                      else label leader W (L - 1))
           else Raise ValueError.
Proof.
  intros py_repr cd c0 c1 k0 k1 txt m Hcs V0 V1 Hone _ _ _ Hm.
  destruct (series_re_shape _ _ Hm) as (team & verb & w & l & -> & Hshape).
  exists team, verb, w, l. split; [reflexivity | split; [exact Hshape |]].
  cbv zeta.
  destruct Hshape as (ws1 & ws2 & kw & ws3 & rest & _ & _ & _ & _ & _ & _
                      & _ & Hw & Hl).
  rewrite (series_before_game_view py_repr cd c0 c1 k0 k1 Hcs V0 V1), Hm.
  cbn [group String.eqb Ascii.eqb Bool.eqb bind].
  rewrite (py_int_digits _ Hw), (py_int_digits _ Hl).
  rewrite resolve_abbr_pair, (picked_winner_declared _ _ Hone).
  destruct (String.length w <=? default_max_str_digits)%nat;
    [| reflexivity].
  destruct (String.length l <=? default_max_str_digits)%nat;
    [| reflexivity].
  cbn [bind andb].
  destruct (String.eqb (lower verb) "wins"); [reflexivity |].
  now destruct (String.eqb _ (abbr_of (declared_winner k0 k1))).
Qed.

(** C6, as amended. A summary of ASCII text that matches the tied/even
    pattern and not the leads/wins pattern, which is tried first: when
    the first count has at most [default_max_str_digits] digits the label
    is [loser leads series W-(W-1)] with the abbreviation of the
    contest's loser; with a longer count the call raises [ValueError].
    The second count is not converted. *)
Theorem series_tied_label :
  forall (py_repr : json -> string) cd c0 c1 k0 k1 txt m,
    assoc "competitors" cd = Some (JList [c0; c1]) ->
    view_competitor c0 = Some k0 ->
    view_competitor c1 = Some k1 ->
    one_winner k0 k1 ->
    is_ascii txt = true ->
    re_match _SERIES_RE txt = None ->
    re_match _TIED_RE txt = Some m ->
    exists w w2,
      m = [("wins2", w2); ("wins", w)]
      /\ tied_text txt w w2
      /\ let W := digits_val 0 w in
         _series_before_game py_repr (JStr txt) (JDict cd) =
           if (String.length w <=? default_max_str_digits)%nat
           then Ok (label (abbr_of (declared_loser k0 k1)) W (W - 1))
           else Raise ValueError.
Proof.
  intros py_repr cd c0 c1 k0 k1 txt m Hcs V0 V1 Hone _ Hs Hm.
  destruct (tied_re_shape _ _ Hm) as (w & w2 & -> & Hshape).
  exists w, w2. split; [reflexivity | split; [exact Hshape |]].
  cbv zeta.
  destruct Hshape as (kw & ws1 & adj & ws2 & rest & _ & _ & _ & _ & _ & Hw
                      & _).
  rewrite (series_before_game_view py_repr cd c0 c1 k0 k1 Hcs V0 V1), Hs, Hm.
  cbn [group String.eqb Ascii.eqb Bool.eqb bind].
  rewrite (py_int_digits _ Hw), (picked_loser_declared _ _ Hone).
  now destruct (String.length w <=? default_max_str_digits)%nat.
Qed.

(** C7, as amended. For two well-formed competitors, a summary of ASCII
    text that matches neither pattern is returned unchanged, and the call
    does not raise. *)
Theorem series_passthrough :
  forall (py_repr : json -> string) cd c0 c1 k0 k1 txt,
    assoc "competitors" cd = Some (JList [c0; c1]) ->
    view_competitor c0 = Some k0 ->
    view_competitor c1 = Some k1 ->
    is_ascii txt = true ->
    re_match _SERIES_RE txt = None ->
    re_match _TIED_RE txt = None ->
    _series_before_game py_repr (JStr txt) (JDict cd) = Ok txt.
Proof.
  intros py_repr cd c0 c1 k0 k1 txt Hcs V0 V1 _ Hs Ht.
  now rewrite (series_before_game_view py_repr cd c0 c1 k0 k1 Hcs V0 V1),
    Hs, Ht.
Qed.

(** ** The leaders fallback *)

Lemma foldM_invariant {A S} (f : S -> A -> result S) (P : S -> Prop) :
  (forall s x s', f s x = Ok s' -> P s -> P s') ->
  forall l s s', foldM f l s = Ok s' -> P s -> P s'.
Proof.
  intros Hf. induction l as [| x l IH]; simpl; intros s s' H Hs.
  - now inversion H; subst.
  - apply bind_ok in H. destruct H as (s1 & H1 & H2). eauto.
Qed.

Lemma foldM_app {A S} (f : S -> A -> result S) l1 l2 s :
  foldM f (l1 ++ l2) s = bind (foldM f l1 s) (foldM f l2).
Proof.
  revert s. induction l1 as [| x l1 IH]; simpl; intros s; [reflexivity |].
  destruct (f s x); simpl; auto.
Qed.

Lemma view_all_cons {A} (f : json -> option A) x l r :
  view_all f (x :: l) = Some r ->
  exists a r', r = a :: r' /\ f x = Some a /\ view_all f l = Some r'.
Proof.
  simpl. destruct (f x) as [a |]; [| discriminate].
  destruct (view_all f l) as [r' |]; [| discriminate].
  intros H; inversion H; subst. eauto.
Qed.

(** *** No two entries share a name *)

Lemma update_at_names i c v out :
  map name (update_at i (set_stat c v) out) = map name out.
Proof.
  revert i. induction out as [| p out IH]; intros [| i]; simpl; try reflexivity.
  - now destruct c.
  - now rewrite IH.
Qed.

Lemma find_entry_none nm out :
  find_entry nm out = None ->
  Forall (fun a => py_eq a nm = false) (map name out).
Proof.
  induction out as [| p out IH]; simpl; [constructor |].
  destruct (py_eq (name p) nm) eqn:E; [discriminate |].
  destruct (find_entry nm out); [discriminate |]. auto.
Qed.

Lemma distinct_snoc (l : list json) x :
  ForallOrdPairs (fun a b => py_eq a b = false) l ->
  Forall (fun a => py_eq a x = false) l ->
  ForallOrdPairs (fun a b => py_eq a b = false) (l ++ [x]).
Proof.
  induction 1 as [| a l Ha _ IH]; simpl; intros Hx.
  - repeat constructor.
  - inversion Hx; subst. constructor; [| auto].
    apply Forall_app. split; [exact Ha | now constructor].
Qed.

Lemma merge_leader_distinct c out l out' :
  merge_leader c out l = Ok out' -> distinct_names out -> distinct_names out'.
Proof.
  unfold merge_leader, distinct_names. intros H D.
  apply bind_ok in H. destruct H as (ath & _ & H).
  apply bind_ok in H. destruct H as (nm & _ & H).
  apply bind_ok in H. destruct H as (raw & _ & H).
  apply bind_ok in H. destruct H as (v & _ & H).
  destruct (find_entry nm out) as [i |] eqn:F; inversion H; subst.
  - now rewrite update_at_names.
  - rewrite map_app. simpl. apply distinct_snoc; [exact D |].
    replace (name (set_stat c v (mk_line nm 0 0 0))) with nm by now destruct c.
    now apply find_entry_none.
Qed.

Lemma merge_group_distinct out g out' :
  merge_group out g = Ok out' -> distinct_names out -> distinct_names out'.
Proof.
  unfold merge_group. intros H D.
  apply bind_ok in H. destruct H as (ab & _ & H).
  apply bind_ok in H. destruct H as ([c |] & _ & H).
  - apply bind_ok in H. destruct H as (ls & _ & H).
    apply bind_ok in H. destruct H as (ranked & _ & H).
    revert H D. apply foldM_invariant. intros s x s'. apply merge_leader_distinct.
  - now inversion H; subst.
Qed.

Lemma fallback_leaders_distinct comp out :
  _fallback_leaders comp = Ok out -> distinct_names out.
Proof.
  unfold _fallback_leaders. intros H.
  apply bind_ok in H. destruct H as (ls & _ & H).
  apply bind_ok in H. destruct H as (groups & _ & H).
  revert H. intros H. eapply (foldM_invariant merge_group distinct_names).
  - intros s x s'. apply merge_group_distinct.
  - exact H.
  - constructor.
Qed.

(** *** Reading the leaders *)

Lemma merge_leader_view c out l t :
  view_ranked c l = Some t -> merge_leader c out l = Ok (merge1 out t).
Proof.
  destruct l; simpl; try discriminate.
  unfold merge_leader. simpl.
  destruct (assoc "athlete" d) as [[] |]; try discriminate. simpl.
  destruct (assoc "displayName" d0) as [[] |]; try discriminate.
  destruct (_to_int _) as [z |]; [| discriminate].
  intros H; inversion H; subst. simpl.
  now destruct (find_entry (JStr s) out).
Qed.

Lemma merge_leaders_view c : forall ls ts out,
  view_all (view_ranked c) ls = Some ts ->
  foldM (merge_leader c) ls out = Ok (fold_left merge1 ts out).
Proof.
  induction ls as [| l ls IH]; intros ts out V.
  - inversion V; subst. reflexivity.
  - apply view_all_cons in V. destruct V as (t & ts' & -> & Vl & V).
    simpl. rewrite (merge_leader_view _ _ _ _ Vl). simpl. now apply IH.
Qed.

Lemma stat_of_abbr_mapping ab :
  mapping_get (JStr ab) = Ok (stat_of_abbr ab).
Proof. reflexivity. Qed.

Lemma merge_group_view out g ts :
  view_group g = Some ts -> merge_group out g = Ok (fold_left merge1 ts out).
Proof.
  destruct g; simpl; try discriminate.
  unfold merge_group. simpl.
  destruct (assoc "abbreviation" d) as [[] |]; simpl; try discriminate;
    try (intros H; inversion H; subst; reflexivity).
  fold (stat_of_abbr s). destruct (stat_of_abbr s) as [c |].
  - destruct (assoc "leaders" d) as [[] |]; try discriminate; simpl.
    + apply merge_leaders_view.
    + intros H; inversion H; subst; reflexivity.
  - intros H; inversion H; subst; reflexivity.
Qed.

Lemma merge_groups_view : forall gs tss out,
  view_all view_group gs = Some tss ->
  foldM merge_group gs out = Ok (fold_left merge1 (List.concat tss) out).
Proof.
  induction gs as [| g gs IH]; intros tss out V.
  - inversion V; subst. reflexivity.
  - apply view_all_cons in V. destruct V as (ts & tss' & -> & Vg & V).
    simpl. rewrite (merge_group_view _ _ _ Vg). simpl.
    rewrite fold_left_app. now apply IH.
Qed.

Lemma fallback_leaders_view comp ts :
  view_leaders comp = Some ts ->
  _fallback_leaders comp = Ok (fold_left merge1 ts []).
Proof.
  destruct comp; simpl; try discriminate.
  unfold _fallback_leaders. simpl.
  destruct (assoc "leaders" d) as [[] |]; try discriminate; simpl.
  - destruct (view_all view_group l) as [tss |] eqn:V; [| discriminate].
    intros H; inversion H; subst. now apply merge_groups_view.
  - intros H; inversion H; subst. reflexivity.
Qed.

(** *** The merge loop computes the merged lines *)

Lemma last_value_snoc c n ts c' n' v :
  last_value c n (ts ++ [(c', n', v)]) =
    if stat_eqb c c' && String.eqb n n' then v else last_value c n ts.
Proof. unfold last_value. now rewrite fold_left_app. Qed.

Lemma last_value_absent c n ts :
  ~ In n (map listed_name ts) -> last_value c n ts = 0.
Proof.
  induction ts as [| [[c' n'] v] ts IH] using rev_ind; [reflexivity |].
  rewrite map_app, in_app_iff. simpl. unfold listed_name at 2. simpl.
  intros H. rewrite last_value_snoc.
  destruct (String.eqb_spec n n') as [-> |]; [tauto |].
  rewrite andb_false_r. tauto.
Qed.

Lemma first_occurrences_snoc l x :
  first_occurrences (l ++ [x]) =
    if in_dec string_dec x l then first_occurrences l
    else first_occurrences l ++ [x].
Proof.
  unfold first_occurrences. rewrite rev_app_distr. simpl.
  destruct (in_dec string_dec x (rev l)) as [i | ni];
    destruct (in_dec string_dec x l) as [j | nj]; try reflexivity.
  - apply in_rev in i. contradiction.
  - apply in_rev in j. contradiction.
Qed.

Lemma first_occurrences_In l x : In x (first_occurrences l) <-> In x l.
Proof.
  unfold first_occurrences. rewrite <- in_rev, nodup_In, <- in_rev. tauto.
Qed.

Lemma first_occurrences_NoDup l : NoDup (first_occurrences l).
Proof. apply NoDup_rev, NoDup_nodup. Qed.

Section MergeStep.

Variables (ts : list listing) (c : stat) (n : string) (v : Z).

Lemma line_other x :
  x <> n -> merged_line (ts ++ [(c, n, v)]) x = merged_line ts x.
Proof.
  intros Hx. unfold merged_line. rewrite !last_value_snoc.
  destruct (String.eqb_spec x n); [contradiction |].
  now rewrite !andb_false_r.
Qed.

Lemma line_same :
  merged_line (ts ++ [(c, n, v)]) n = set_stat c v (merged_line ts n).
Proof.
  unfold merged_line. rewrite !last_value_snoc, String.eqb_refl.
  now destruct c.
Qed.

Lemma merge_absent l :
  ~ In n l -> find_entry (JStr n) (map (merged_line ts) l) = None.
Proof.
  induction l as [| x l IH]; simpl; [reflexivity |]. intros H.
  destruct (String.eqb_spec x n); [tauto |]. rewrite IH; tauto.
Qed.

Lemma merge_present l :
  NoDup l -> In n l ->
  exists i, find_entry (JStr n) (map (merged_line ts) l) = Some i
            /\ update_at i (set_stat c v) (map (merged_line ts) l)
               = map (merged_line (ts ++ [(c, n, v)])) l.
Proof.
  induction 1 as [| x l Hx _ IH]; simpl; [tauto |]. intros Hin.
  destruct (String.eqb_spec x n) as [-> | Hne].
  - exists O. split; [reflexivity |]. simpl. rewrite line_same. f_equal.
    apply map_ext_in. intros y Hy. symmetry. apply line_other. congruence.
  - destruct IH as (i & -> & Hu); [tauto |].
    exists (S i). split; [reflexivity |]. simpl.
    now rewrite Hu, line_other.
Qed.

Lemma merge1_step :
  merge1 (merged_lines ts) (c, n, v) = merged_lines (ts ++ [(c, n, v)]).
Proof.
  unfold merged_lines. rewrite map_app.
  change (map listed_name [(c, n, v)]) with [n].
  rewrite first_occurrences_snoc. cbn [merge1].
  destruct (in_dec string_dec n (map listed_name ts)) as [i | ni].
  - destruct (merge_present (first_occurrences (map listed_name ts)))
      as (k & -> & Hu).
    + apply first_occurrences_NoDup.
    + now apply first_occurrences_In.
    + exact Hu.
  - rewrite merge_absent by now rewrite first_occurrences_In.
    rewrite map_app. simpl. f_equal.
    + apply map_ext_in. intros y Hy. symmetry. apply line_other.
      apply (proj1 (first_occurrences_In _ _)) in Hy. intros ->.
      contradiction.
    + rewrite line_same. unfold merged_line.
      now rewrite !last_value_absent.
Qed.

End MergeStep.

Lemma merge_loop_lines ts : fold_left merge1 ts [] = merged_lines ts.
Proof.
  induction ts as [| [[c n] v] ts IH] using rev_ind; [reflexivity |].
  now rewrite fold_left_app, IH, <- merge1_step.
Qed.

Lemma stat_eqb_eq c c' : stat_eqb c c' = true <-> c = c'.
Proof. destruct c, c'; simpl; split; congruence. Qed.

Lemma last_value_skip c n : forall (ts : list listing) (acc : Z),
  (forall v, ~ In (c, n, v) ts) ->
  fold_left
    (fun acc t =>
       let '(c', n', v) := t in
       if stat_eqb c c' && String.eqb n n' then v else acc)
    ts acc = acc.
Proof.
  induction ts as [| [[c' n'] v] ts IH]; simpl; intros acc H; [reflexivity |].
  destruct (stat_eqb c c' && String.eqb n n')%bool eqn:E.
  - apply andb_prop in E. destruct E as [Ec En].
    apply stat_eqb_eq in Ec. apply String.eqb_eq in En. subst.
    exfalso. apply (H v). now left.
  - apply IH. intros v' Hv'. apply (H v'). now right.
Qed.

Lemma last_value_unlisted c n ts :
  (forall v, ~ In (c, n, v) ts) -> last_value c n ts = 0.
Proof. apply last_value_skip. Qed.

Lemma last_value_listed c n v ts1 ts2 :
  (forall v', ~ In (c, n, v') ts2) ->
  last_value c n (ts1 ++ (c, n, v) :: ts2) = v.
Proof.
  intros H. unfold last_value. rewrite fold_left_app. simpl.
  replace (stat_eqb c c) with true by now destruct c.
  rewrite String.eqb_refl. simpl. now apply last_value_skip.
Qed.

Lemma merged_lines_names ts :
  map name (merged_lines ts) = map JStr (first_occurrences (map listed_name ts)).
Proof. unfold merged_lines. now rewrite map_map. Qed.

Lemma merged_lines_NoDup ts : NoDup (map name (merged_lines ts)).
Proof.
  rewrite merged_lines_names.
  apply NoDup_map_NoDup_ForallPairs; [| apply first_occurrences_NoDup].
  intros a b _ _ H. now inversion H.
Qed.

Lemma unconsulted_group_skipped out d ab :
  assoc "abbreviation" d = Some (JStr ab) ->
  stat_of_abbr ab = None ->
  merge_group out (JDict d) = Ok out.
Proof.
  intros Ha Hs. unfold merge_group. simpl. rewrite Ha. simpl.
  fold (stat_of_abbr ab). now rewrite Hs.
Qed.

(** ** Box-score extraction: one line per listed athlete *)

Lemma foldM_appends {A B} (f : list B -> A -> result (list B))
  (R : A -> B -> Prop) :
  (forall s x s', f s x = Ok s' -> exists b, s' = s ++ [b] /\ R x b) ->
  forall xs s s', foldM f xs s = Ok s' ->
    exists added, s' = s ++ added /\ Forall2 R xs added.
Proof.
  intros Hf. induction xs as [| x xs IH]; simpl; intros s s' H.
  - inversion H; subst. exists []. now rewrite app_nil_r.
  - apply bind_ok in H. destruct H as (s1 & H1 & H2).
    destruct (Hf _ _ _ H1) as (b & -> & Hb).
    destruct (IH _ _ H2) as (added & -> & Hadded).
    exists (b :: added). rewrite <- app_assoc. auto.
Qed.

Lemma collect_a_appends i j k s x s' :
  collect_a i j k s x = Ok s' -> exists b, s' = s ++ [b] /\ names_line x b.
Proof.
  unfold collect_a. intros H.
  apply bind_ok in H. destruct H as (raw & _ & H).
  apply bind_ok in H. destruct H as (nm & Hn & H).
  apply bind_ok in H. destruct H as (p & _ & H).
  apply bind_ok in H. destruct H as (r & _ & H).
  apply bind_ok in H. destruct H as (a & _ & H).
  inversion H; subst. eexists. split; [reflexivity | exact Hn].
Qed.

Lemma collect_b_appends s x s' :
  collect_b s x = Ok s' -> exists b, s' = s ++ [b] /\ names_line x b.
Proof.
  unfold collect_b. intros H.
  apply bind_ok in H. destruct H as (stats & _ & H).
  apply bind_ok in H. destruct H as (cats & _ & H).
  apply bind_ok in H. destruct H as ([[p r] a] & _ & H).
  apply bind_ok in H. destruct H as (nm & Hn & H).
  inversion H; subst. eexists. split; [reflexivity | exact Hn].
Qed.

Lemma collect_roster_appends s roster s' :
  collect_roster s roster = Ok s' ->
  exists aths added,
    roster_athletes roster = Ok aths /\ s' = s ++ added
    /\ Forall2 names_line aths added.
Proof.
  unfold collect_roster, roster_athletes. intros H.
  apply bind_ok in H. destruct H as (fa & -> & H). simpl.
  destruct fa as [block |].
  - apply bind_ok in H. destruct H as (names & _ & H).
    apply bind_ok in H. destruct H as (ns & _ & H).
    apply bind_ok in H. destruct H as (cols & _ & H).
    apply bind_ok in H. destruct H as (i & _ & H).
    apply bind_ok in H. destruct H as (j & _ & H).
    apply bind_ok in H. destruct H as (k & _ & H).
    apply bind_ok in H. destruct H as (aths & -> & H). cbn [bind].
    apply bind_ok in H. destruct H as (al & -> & H).
    destruct (foldM_appends _ names_line (collect_a_appends i j k) _ _ _ H)
      as (added & -> & F).
    now exists al, added.
  - destruct roster;
      try (inversion H; subst; exists [], []; rewrite app_nil_r;
           repeat split; constructor).
    destruct (foldM_appends _ names_line collect_b_appends _ _ _ H)
      as (added & -> & F).
    now exists l, added.
Qed.

Lemma collect_rosters_appends : forall rosters s s',
  foldM collect_roster rosters s = Ok s' ->
  exists per added,
    mapM roster_athletes rosters = Ok per /\ s' = s ++ added
    /\ Forall2 names_line (List.concat per) added.
Proof.
  induction rosters as [| r rosters IH]; simpl; intros s s' H.
  - inversion H; subst. exists [], []. rewrite app_nil_r.
    repeat split; constructor.
  - apply bind_ok in H. destruct H as (s1 & H1 & H2).
    destruct (collect_roster_appends _ _ _ H1) as (aths & a1 & -> & -> & F1).
    destruct (IH _ _ H2) as (per & a2 & -> & -> & F2). simpl.
    exists (aths :: per), (a1 ++ a2). rewrite <- app_assoc.
    repeat split. simpl. now apply Forall2_app.
Qed.

Lemma collect_players_listed box out :
  _collect_players box = Ok out ->
  exists listed,
    listed_athletes box = Ok listed /\ Forall2 names_line listed out.
Proof.
  unfold _collect_players, listed_athletes. intros H.
  apply bind_ok in H. destruct H as (ps & -> & H). cbn [bind].
  apply bind_ok in H. destruct H as (rosters & -> & H). cbn [bind].
  destruct (collect_rosters_appends _ _ _ H) as (per & added & -> & -> & F).
  simpl. eauto.
Qed.

(** ** Format A: column lookup and cells *)

Lemma lower_upper_char c : lower_char (upper_char c) = lower_char c.
Proof. destruct c as [[] [] [] [] [] [] [] []]; reflexivity. Qed.

Lemma lower_upper s : lower (upper s) = lower s.
Proof.
  unfold lower, upper. induction s as [| c s IH]; simpl; [reflexivity |].
  now rewrite lower_upper_char, IH.
Qed.

(** On a header row in upper case, as on any ASCII row, a header names
    the category its original names. *)
Lemma column_upper c : forall names,
  column c (map upper names) = column c names.
Proof.
  induction names as [| n names IH]; [reflexivity |].
  cbn [map column]. unfold header_is. now rewrite lower_upper, IH.
Qed.

Lemma lookup_from_column c : forall row idx,
  _lookup_from idx row (abbrev c) =
    Ok (match column c row with
        | Some i => idx + Z.of_nat i
        | None => -1
        end).
Proof.
  induction row as [| n row IH]; intros idx; [reflexivity |].
  cbn [_lookup_from column].
  replace (long_form (abbrev c)) with (Ok (long_name c)) by now destruct c.
  cbn [bind]. fold (header_is c n).
  destruct (header_is c n).
  - now rewrite Z.add_0_r.
  - rewrite IH. destruct (column c row); simpl; [| reflexivity].
    f_equal. lia.
Qed.

Lemma lookup_column c row :
  _lookup row (abbrev c) = Ok (index_of (column c row)).
Proof.
  unfold _lookup. replace (lower (abbrev c)) with (abbrev c) by now destruct c.
  rewrite lookup_from_column. unfold index_of. now destruct (column c row).
Qed.

Lemma safe_cell stats col :
  _safe (JList stats) (index_of col) = cell stats col.
Proof.
  destruct col as [i |]; [| reflexivity].
  unfold _safe, cell, index_of.
  replace (0 <=? Z.of_nat i) with true by (symmetry; apply Z.leb_le; lia).
  cbn [len bind item_at].
  rewrite Nat2Z.id.
  destruct (nth_error stats i) as [v |] eqn:E.
  - assert (i < List.length stats)%nat by (apply nth_error_Some; congruence).
    replace (Z.of_nat i <? Z.of_nat (List.length stats)) with true
      by (symmetry; apply Z.ltb_lt; lia).
    reflexivity.
  - apply nth_error_None in E.
    replace (Z.of_nat i <? Z.of_nat (List.length stats)) with false
      by (symmetry; apply Z.ltb_ge; lia).
    reflexivity.
Qed.

Lemma collect_a_line names players ath a :
  view_athlete ath = Some a ->
  collect_a (index_of (column Pts names)) (index_of (column Reb names))
    (index_of (column Ast names)) players ath
  = (l <- line_of names a ;; Ok (players ++ [l])).
Proof.
  destruct ath; simpl; try discriminate.
  destruct (display_name (JDict d)) as [nm |] eqn:En; [| discriminate].
  unfold collect_a, line_of. rewrite En. cbn [get_or bind].
  destruct (assoc "stats" d) as [[] |]; try discriminate;
    intros H; inversion H; subst; cbn [fst snd]; rewrite !safe_cell;
    destruct (cell _ (column Pts names)); cbn [bind]; try reflexivity;
    destruct (cell _ (column Reb names)); cbn [bind]; try reflexivity;
    destruct (cell _ (column Ast names)); reflexivity.
Qed.

Lemma collect_athletes_lines names : forall al aths players,
  view_all view_athlete al = Some aths ->
  foldM (collect_a (index_of (column Pts names)) (index_of (column Reb names))
           (index_of (column Ast names))) al players
  = (ls <- mapM (line_of names) aths ;; Ok (players ++ ls)).
Proof.
  induction al as [| ath al IH]; intros aths players V.
  - inversion V; subst. simpl. now rewrite app_nil_r.
  - apply view_all_cons in V. destruct V as (a & aths' & -> & Va & V).
    cbn [foldM mapM]. rewrite (collect_a_line _ _ _ _ Va).
    destruct (line_of names a) as [l |]; cbn [bind]; [| reflexivity].
    rewrite (IH _ _ V).
    destruct (mapM (line_of names) aths'); cbn [bind]; [| reflexivity].
    now rewrite <- app_assoc.
Qed.

Lemma headers_upper : forall ns names,
  view_all view_header ns = Some names ->
  mapM str_upper ns = Ok (map upper names).
Proof.
  induction ns as [| n ns IH]; intros names V.
  - inversion V; subst. reflexivity.
  - apply view_all_cons in V. destruct V as (s & names' & -> & Vn & V).
    destruct n; try discriminate. inversion Vn; subst.
    simpl. now rewrite (IH _ V).
Qed.

Lemma block_names b names :
  match assoc "names" b with
  | Some (JList ns) => view_all view_header ns
  | None => Some []
  | _ => None
  end = Some names ->
  exists ns,
    get_or (JDict b) "names" (JList []) = Ok (JList ns)
    /\ view_all view_header ns = Some names.
Proof.
  simpl. destruct (assoc "names" b) as [[] |]; try discriminate; eauto.
Qed.

Lemma collect_roster_block players roster b :
  view_block roster = Some b ->
  collect_roster players roster = (ls <- block_lines b ;; Ok (players ++ ls)).
Proof.
  destruct roster; simpl; try discriminate.
  destruct (assoc "statistics" d) as [[| | | | | [| [] rest] |] |] eqn:Es;
    try discriminate.
  destruct (assoc "athletes" d0) as [[| | | | | [| a more] |] |] eqn:Ea;
    try discriminate.
  match goal with
  | |- match ?nv with _ => _ end = _ -> _ => destruct nv as [names |] eqn:En
  end; [| discriminate].
  destruct (view_athlete a) as [va |] eqn:Va; [| discriminate].
  destruct (view_all view_athlete more) as [vm |] eqn:Vm; [| discriminate].
  intros H; inversion H; subst.
  destruct (block_names _ _ En) as (ns & Gn & Vn).
  assert (Vall : view_all view_athlete (a :: more) = Some (va :: vm))
    by (simpl; now rewrite Va, Vm).
  unfold collect_roster, format_a, block_lines.
  cbn [is_dict get get_or item bind]. rewrite Es.
  cbn [truthy bind item_at nth_error is_dict get get_or]. rewrite Ea.
  cbn [truthy bind fst snd].
  rewrite Gn. cbn [iter bind].
  rewrite (headers_upper _ _ Vn). cbn [bind].
  rewrite (lookup_column Pts), (lookup_column Reb), (lookup_column Ast).
  cbn [bind item]. rewrite Ea. cbn [bind iter].
  now apply collect_athletes_lines.
Qed.

Lemma collect_rosters_blocks : forall rosters blocks players,
  view_all view_block rosters = Some blocks ->
  foldM collect_roster rosters players
  = (per <- mapM block_lines blocks ;; Ok (players ++ List.concat per)).
Proof.
  induction rosters as [| r rosters IH]; intros blocks players V.
  - inversion V; subst. simpl. now rewrite app_nil_r.
  - apply view_all_cons in V. destruct V as (b & blocks' & -> & Vb & V).
    cbn [foldM mapM]. rewrite (collect_roster_block _ _ _ Vb).
    destruct (block_lines b) as [ls |]; cbn [bind]; [| reflexivity].
    rewrite (IH _ _ V).
    destruct (mapM block_lines blocks'); cbn [bind]; [| reflexivity].
    simpl. now rewrite <- app_assoc.
Qed.

Lemma collect_players_blocks bd rosters blocks :
  assoc "players" bd = Some (JList rosters) ->
  view_all view_block rosters = Some blocks ->
  _collect_players (JDict bd)
  = (per <- mapM block_lines blocks ;; Ok (List.concat per)).
Proof.
  intros Hp V. unfold _collect_players. cbn [get_or bind]. rewrite Hp.
  cbn [iter bind]. now rewrite (collect_rosters_blocks _ _ _ V).
Qed.

(** The column of a category is the first header that names it. *)
Lemma header_is_spec c n :
  header_is c n = true <-> lower n = abbrev c \/ lower n = long_name c.
Proof.
  unfold header_is. rewrite orb_true_iff, !String.eqb_eq. tauto.
Qed.

Lemma column_first c : forall names i,
  column c names = Some i ->
  exists before n after,
    names = before ++ n :: after /\ List.length before = i
    /\ (lower n = abbrev c \/ lower n = long_name c)
    /\ Forall (fun m => lower m <> abbrev c /\ lower m <> long_name c) before.
Proof.
  induction names as [| n names IH]; simpl; intros i H; [discriminate |].
  destruct (header_is c n) eqn:Hn.
  - inversion H; subst. exists [], n, names.
    repeat split; [now apply header_is_spec | constructor].
  - destruct (column c names) as [j |]; [| discriminate].
    inversion H; subst.
    destruct (IH j eq_refl) as (before & m & after & -> & <- & Hm & Hb).
    exists (n :: before), m, after. repeat split; [exact Hm |].
    constructor; [| exact Hb].
    split; intros E;
      (assert (header_is c n = true) by (apply header_is_spec; tauto));
      congruence.
Qed.

(** ** Badges *)

Lemma fold_max_ge t : forall l x,
  fold_left Z.max l x >= t <-> x >= t \/ Exists (fun y => y >= t) l.
Proof.
  induction l as [| y l IH]; simpl; intros x.
  - split; [auto | intros [H | H]; [exact H | inversion H]].
  - rewrite IH. split.
    + intros [H | H]; [| auto].
      destruct (Z.max_spec x y) as [[_ E] | [_ E]]; rewrite E in H; auto.
    + intros [H | H]; [left; lia |].
      inversion H; subst; [left; lia | auto].
Qed.

Lemma max_pts_reached players t :
  0 < t ->
  (max_default (map pts players) 0 >= t <-> reached players t).
Proof.
  intros Ht. unfold reached, max_default.
  destruct players as [| p players]; simpl.
  - split; [lia | intros (p & [] & _)].
  - rewrite fold_max_ge, Exists_exists. split.
    + intros [H | (y & Hy & H)]; [eauto |].
      apply in_map_iff in Hy. destruct Hy as (q & <- & Hq). eauto.
    + intros (q & [<- | Hq] & H); [auto |].
      right. exists (pts q). split; [now apply in_map | exact H].
Qed.

(** The badge list is the scoring tier followed by badges of the other
    four kinds, and an overtime badge comes after a close-game badge. *)
Lemma evaluate_badges_shape players home away comp bs :
  evaluate_badges players home away comp = Ok bs ->
  exists others,
    bs = scoring_tier players ++ others
    /\ incl others ["tripleDouble"; "close4"; "closeGame"; "overtime"]
    /\ (In "overtime" others -> In "closeGame" others).
Proof.
  unfold evaluate_badges, scoring_tier. intros H.
  apply bind_ok in H. destruct H as (qh & _ & H).
  apply bind_ok in H. destruct H as (qa & _ & H).
  apply bind_ok in H. destruct H as (hs0 & _ & H).
  apply bind_ok in H. destruct H as (hs & _ & H).
  apply bind_ok in H. destruct H as (sa0 & _ & H).
  apply bind_ok in H. destruct H as (sa & _ & H).
  apply bind_ok in H. destruct H as (close & Hc & H).
  apply bind_ok in H. destruct H as (p & Hp & H).
  inversion H; subst; clear H.
  assert (Hot : (p >? 4) = true -> close = true).
  { intros Hgt. destruct (Z.abs (hs - sa) <=? 7); [now inversion Hc |].
    rewrite Hp in Hc. simpl in Hc. inversion Hc; subst. exact Hgt. }
  set (tier := if max_default (map pts players) 0 >=? 50 then ["pts50"]
               else if max_default (map pts players) 0 >=? 40 then ["pts40"]
               else if max_default (map pts players) 0 >=? 30 then ["pts30"]
               else []).
  exists ((if existsb (fun p => (pts p >=? 10) && (reb p >=? 10)
                                && (ast p >=? 10)) players
           then ["tripleDouble"] else [])
          ++ (if Z.abs (qh - qa) <=? 10 then ["close4"] else [])
          ++ (if close then ["closeGame"] else [])
          ++ (if p >? 4 then ["overtime"] else [])).
  split; [| split].
  - subst tier.
    destruct (max_default (map pts players) 0 >=? 50);
      [| destruct (max_default (map pts players) 0 >=? 40);
         [| destruct (max_default (map pts players) 0 >=? 30)]];
      destruct (existsb _ players); destruct (Z.abs (qh - qa) <=? 10);
      destruct close; destruct (p >? 4); reflexivity.
  - destruct (existsb _ players); destruct (Z.abs (qh - qa) <=? 10);
      destruct close; destruct (p >? 4);
      intros b Hb; simpl in Hb; simpl; tauto.
  - destruct (p >? 4).
    + rewrite (Hot eq_refl). rewrite !in_app_iff. simpl. tauto.
    + rewrite !in_app_iff. simpl.
      destruct (existsb _ players); destruct (Z.abs (qh - qa) <=? 10);
        destruct close; simpl; intuition discriminate.
Qed.

Lemma reached_mono players t t' :
  t' <= t -> reached players t -> reached players t'.
Proof. intros Ht (p & Hp & H). exists p. split; [exact Hp | lia]. Qed.

Lemma scoring_tier_cases players :
  (reached players 50 /\ scoring_tier players = ["pts50"])
  \/ (~ reached players 50 /\ reached players 40
      /\ scoring_tier players = ["pts40"])
  \/ (~ reached players 40 /\ reached players 30
      /\ scoring_tier players = ["pts30"])
  \/ (~ reached players 30 /\ scoring_tier players = []).
Proof.
  pose proof (max_pts_reached players 50) as R50.
  pose proof (max_pts_reached players 40) as R40.
  pose proof (max_pts_reached players 30) as R30.
  unfold scoring_tier.
  destruct (Z.geb_spec (max_default (map pts players) 0) 50).
  { left. split; [apply R50; lia | reflexivity]. }
  destruct (Z.geb_spec (max_default (map pts players) 0) 40).
  { right; left. split; [| split; [apply R40; lia | reflexivity]].
    intros Hr. apply R50 in Hr; lia. }
  destruct (Z.geb_spec (max_default (map pts players) 0) 30).
  { right; right; left. split; [| split; [apply R30; lia | reflexivity]].
    intros Hr. apply R40 in Hr; lia. }
  right; right; right. split; [| reflexivity].
  intros Hr. apply R30 in Hr; lia.
Qed.

(** ** One event *)

Section EventProps.

Variable py_repr : json -> string.
Variable espn_summary : string -> result json.
Variable find_replay_link_for_team : json -> result json.

Lemma evaluate_event_inv out ev out' :
  evaluate_event py_repr espn_summary find_replay_link_for_team out ev
  = Ok out' ->
  exists state,
    event_state ev = Ok state
    /\ (if String.eqb state "post" then
          exists g st players home away comp,
            out' = out ++ [g]
            /\ season_type ev = Ok st
            /\ game_type_of st = Ok (gameType g)
            /\ evaluate_badges players home away comp = Ok (badges g)
        else out' = out).
Proof.
  unfold evaluate_event, event_state, season_type. intros H.
  apply bind_ok in H. destruct H as (comps & -> & H). cbn [bind].
  apply bind_ok in H. destruct H as (comp & -> & H). cbn [bind].
  apply bind_ok in H. destruct H as (status & -> & H). cbn [bind].
  apply bind_ok in H. destruct H as (ty & -> & H). cbn [bind].
  apply bind_ok in H. destruct H as (state0 & -> & H). cbn [bind].
  apply bind_ok in H. destruct H as (state & -> & H).
  exists state. split; [reflexivity |].
  destruct (String.eqb state "post"); cbn [negb] in H;
    [| now inversion H].
  apply bind_ok in H. destruct H as (pair & _ & H).
  apply bind_ok in H. destruct H as ([home0 away0] & _ & H).
  apply bind_ok in H. destruct H as (ha & _ & H).
  destruct (if py_eq ha (JStr "away") then (away0, home0)
            else (home0, away0)) as [home away].
  apply bind_ok in H. destruct H as ([round_txt game_txt] & _ & H).
  apply bind_ok in H. destruct H as (series & _ & H).
  apply bind_ok in H. destruct H as (summary & _ & H).
  apply bind_ok in H. destruct H as (series_pre & _ & H).
  apply bind_ok in H. destruct H as (season & -> & H). cbn [bind].
  apply bind_ok in H. destruct H as (st & -> & H).
  apply bind_ok in H. destruct H as (game_type & Hgt & H).
  cbv zeta in H.
  apply bind_ok in H. destruct H as (box & _ & H).
  apply bind_ok in H. destruct H as (players0 & _ & H).
  apply bind_ok in H. destruct H as (players & _ & H).
  apply bind_ok in H. destruct H as (bs & Hb & H).
  apply bind_ok in H. destruct H as (ht & _ & H).
  apply bind_ok in H. destruct H as (dn & _ & H).
  apply bind_ok in H. destruct H as (full_home & _ & H).
  apply bind_ok in H. destruct H as (replay_link & _ & H).
  apply bind_ok in H. destruct H as (id & _ & H).
  apply bind_ok in H. destruct H as (date & _ & H).
  apply bind_ok in H. destruct H as (h_ab & _ & H).
  apply bind_ok in H. destruct H as (at_ & _ & H).
  apply bind_ok in H. destruct H as (a_ab & _ & H).
  apply bind_ok in H. destruct H as (h_logo & _ & H).
  apply bind_ok in H. destruct H as (a_logo & _ & H).
  inversion H; subst; clear H.
  eexists _, st, players, home, away, comp. simpl. auto.
Qed.

End EventProps.

(** ** The claims on sample documents and the remaining claims *)

(** C1 as stated fails: a summary that matches the leads/wins pattern with
    a count of 4301 digits makes the call raise [ValueError] at
    [int(m["wins"])]. *)
Lemma series_leads_wins_digit_limit :
  re_match _SERIES_RE long_leads_summary
  = Some [("losses", "2"); ("wins", long_count); ("verb", "leads");
          ("team", "Mavericks")]
  /\ view_competitor (side_doc "home" mavericks true "110")
     = Some (mk_competitor
               (mk_team "Dallas Mavericks" "Mavericks" "Mavericks" "DAL") true)
  /\ view_competitor (side_doc "away" celtics false "102")
     = Some (mk_competitor
               (mk_team "Boston Celtics" "Celtics" "Celtics" "BOS") false)
  /\ _series_before_game plain_repr (JStr long_leads_summary)
       (dallas_beats_boston 4) = Raise ValueError.
Proof. repeat split; vm_compute; reflexivity. Qed.

(** C1 amended, on the specification's example: Dallas, the declared
    winner, leads 3-2 after the game and led 2-2 before it. *)
Lemma series_leads_wins_label_witness :
  _series_before_game plain_repr (JStr "Mavericks leads series 3-2")
    (dallas_beats_boston 4) = Ok "DAL leads series 2-2".
Proof.
  destruct (series_leads_wins_label plain_repr
              (dallas_beats_boston_fields 4) _ _ _ _
              "Mavericks leads series 3-2" _
              eq_refl eq_refl eq_refl eq_refl eq_refl eq_refl eq_refl
              eq_refl)
    as (team & verb & w & l & Hm & _ & H).
  inversion Hm; subst. exact H.
Defined.

(** C6 as stated fails: a summary that matches the tied pattern, and not
    the leads/wins pattern, with a first count of 4301 digits makes the
    call raise [ValueError] at [int(m["wins"])]. *)
Lemma series_tied_digit_limit :
  re_match _SERIES_RE long_tied_summary = None
  /\ re_match _TIED_RE long_tied_summary
     = Some [("wins2", "2"); ("wins", long_count)]
  /\ view_competitor (side_doc "home" mavericks true "110")
     = Some (mk_competitor
               (mk_team "Dallas Mavericks" "Mavericks" "Mavericks" "DAL") true)
  /\ view_competitor (side_doc "away" celtics false "102")
     = Some (mk_competitor
               (mk_team "Boston Celtics" "Celtics" "Celtics" "BOS") false)
  /\ _series_before_game plain_repr (JStr long_tied_summary)
       (dallas_beats_boston 4) = Raise ValueError.
Proof. repeat split; vm_compute; reflexivity. Qed.

(** C6 amended, on the specification's example: tied 2-2 after Dallas won,
    so Boston led 2-1. *)
Lemma series_tied_label_witness :
  _series_before_game plain_repr (JStr "Series tied 2-2")
    (dallas_beats_boston 4) = Ok "BOS leads series 2-1".
Proof.
  destruct (series_tied_label plain_repr (dallas_beats_boston_fields 4)
              _ _ _ _ "Series tied 2-2" _
              eq_refl eq_refl eq_refl eq_refl eq_refl eq_refl eq_refl)
    as (w & w2 & Hm & _ & H).
  inversion Hm; subst. exact H.
Defined.

(** C7 as stated fails: on a text that matches neither pattern the call
    raises [IndexError] when the competition lists no competitor and
    [KeyError] when it has no ["competitors"], both being read before the
    summary is matched. *)
Lemma series_passthrough_needs_competitors :
  re_match _SERIES_RE "unparseable free text" = None
  /\ re_match _TIED_RE "unparseable free text" = None
  /\ _series_before_game plain_repr (JStr "unparseable free text")
       no_competitors = Raise IndexError
  /\ _series_before_game plain_repr (JStr "unparseable free text")
       no_competitors_key = Raise KeyError.
Proof. repeat split. Qed.

(** C7 amended, on the specification's example. *)
Lemma series_passthrough_witness :
  _series_before_game plain_repr (JStr "unparseable free text")
    (dallas_beats_boston 4) = Ok "unparseable free text".
Proof.
  exact (series_passthrough plain_repr (dallas_beats_boston_fields 4)
           _ _ _ _ "unparseable free text"
           eq_refl eq_refl eq_refl eq_refl eq_refl eq_refl).
Defined.

(** C2. [_collect_players] is not total on upstream shapes: a roster whose
    ["statistics"] is a non-empty dict raises [KeyError] at
    [roster["statistics"][0]], and a roster list with a non-dict entry
    raises [AttributeError] at [ply.get]; text for ["statistics"] and a
    list of non-dicts do degrade to the empty list. *)
Theorem collect_players_not_total :
  _collect_players statistics_as_dict = Raise KeyError
  /\ _collect_players roster_of_numbers = Raise AttributeError
  /\ _collect_players statistics_as_text = Ok [].
Proof. repeat split. Qed.

(** C3 as stated fails for the extractor: a player listed twice yields two
    lines of the same name. *)
Lemma collect_players_keeps_duplicates :
  _collect_players listed_twice
  = Ok [mk_line (JStr "A") 10 0 0; mk_line (JStr "A") 12 0 0]
  /\ ~ distinct_names [mk_line (JStr "A") 10 0 0; mk_line (JStr "A") 12 0 0].
Proof.
  split; [reflexivity |]. unfold distinct_names. simpl. intros H.
  inversion H as [| a l Ha _]; subst. inversion Ha; subst. discriminate.
Qed.

(** C3, as amended. Of the two sources of a game's stat lines, the
    leaders fallback yields no two entries of equal name, and the
    box-score extractor yields one line per listed entry, in document
    order and under the display name of the entry, without merging. *)
Theorem one_line_per_name :
  forall comp box from_leaders from_box,
    _fallback_leaders comp = Ok from_leaders ->
    _collect_players box = Ok from_box ->
    distinct_names from_leaders
    /\ exists listed,
         listed_athletes box = Ok listed
         /\ Forall2 names_line listed from_box.
Proof.
  intros comp box fl fb Hl Hb. split.
  - exact (fallback_leaders_distinct _ _ Hl).
  - exact (collect_players_listed _ _ Hb).
Qed.

(** C3 amended, on the sample leaders and on the box score that lists a
    player twice. *)
Lemma one_line_per_name_witness :
  distinct_names [mk_line (JStr "A") 30 10 0; mk_line (JStr "B") 0 0 9]
  /\ exists listed,
       listed_athletes listed_twice = Ok listed
       /\ Forall2 names_line listed
            [mk_line (JStr "A") 10 0 0; mk_line (JStr "A") 12 0 0].
Proof.
  exact (one_line_per_name sample_leaders listed_twice _ _ eq_refl eq_refl).
Defined.

(** C4. The badge list holds at most one scoring badge, that of the
    highest threshold some player's points reach: pts50 from 50 points,
    else pts40 from 40, else pts30 from 30, else none of the three. *)
Theorem scoring_tier_badge :
  forall players home away comp bs,
    evaluate_badges players home away comp = Ok bs ->
    (reached players 50 ->
       In "pts50" bs /\ ~ In "pts40" bs /\ ~ In "pts30" bs)
    /\ (~ reached players 50 -> reached players 40 ->
          In "pts40" bs /\ ~ In "pts50" bs /\ ~ In "pts30" bs)
    /\ (~ reached players 40 -> reached players 30 ->
          In "pts30" bs /\ ~ In "pts50" bs /\ ~ In "pts40" bs)
    /\ (~ reached players 30 ->
          ~ In "pts50" bs /\ ~ In "pts40" bs /\ ~ In "pts30" bs).
Proof.
  intros players home away comp bs H.
  destruct (evaluate_badges_shape _ _ _ _ _ H) as (others & -> & Hincl & _).
  assert (H50 : ~ In "pts50" others)
    by (intros Hin; apply Hincl in Hin; simpl in Hin;
        intuition discriminate).
  assert (H40 : ~ In "pts40" others)
    by (intros Hin; apply Hincl in Hin; simpl in Hin;
        intuition discriminate).
  assert (H30 : ~ In "pts30" others)
    by (intros Hin; apply Hincl in Hin; simpl in Hin;
        intuition discriminate).
  pose proof (reached_mono players 50 40) as M54.
  pose proof (reached_mono players 40 30) as M43.
  assert (D1 : "pts50" <> "pts40") by discriminate.
  assert (D2 : "pts50" <> "pts30") by discriminate.
  assert (D3 : "pts40" <> "pts30") by discriminate.
  assert (L1 : 40 <= 50) by lia. assert (L2 : 30 <= 40) by lia.
  destruct (scoring_tier_cases players)
    as [(R & ->) | [(N & R & ->) | [(N & R & ->) | (N & ->)]]];
    rewrite !in_app_iff; simpl; intuition congruence.
Qed.

(** C4 on the specification's example: 52 points earn pts50 alone. *)
Lemma scoring_tier_badge_witness :
  evaluate_badges fifty_two (side_doc "home" mavericks true "110")
    (side_doc "away" celtics false "102") (dallas_beats_boston 4)
  = Ok ["pts50"; "close4"]
  /\ In "pts50" ["pts50"; "close4"]
  /\ ~ In "pts40" ["pts50"; "close4"] /\ ~ In "pts30" ["pts50"; "close4"].
Proof.
  split; [reflexivity |].
  refine (proj1 (scoring_tier_badge fifty_two
                   (side_doc "home" mavericks true "110")
                   (side_doc "away" celtics false "102")
                   (dallas_beats_boston 4) _ eq_refl) _).
  exists (mk_line (JStr "A") 52 5 3). split; [now left | simpl; lia].
Defined.

(** C5 as stated fails: the record of a finished event of season type 5
    carries the third game type spelled with U+2011, which is not the
    text "Play-In". *)
Lemma play_in_spelling :
  event_state (event_doc 5 5) = Ok "post"
  /\ season_type (event_doc 5 5) = Ok (JInt 5)
  /\ _evaluate_games plain_repr no_summary no_replay (board_doc 5 5)
     = Ok [overtime_record ("Play" ++ nb_hyphen ++ "In")]
  /\ gameType (overtime_record ("Play" ++ nb_hyphen ++ "In")) <> "Play-In".
Proof.
  repeat split; try reflexivity. vm_compute. discriminate.
Qed.

(** C5, as amended. The record assembled for a finished event has game
    type "Regular Season" for season-type code 1, "Playoffs" for code 3,
    and for any other code the text "Play", U+2011, "In". *)
Theorem game_type_of_record :
  forall (py_repr : json -> string) espn_summary find_replay_link_for_team
         out ev out' n,
    evaluate_event py_repr espn_summary find_replay_link_for_team out ev
    = Ok out' ->
    event_state ev = Ok "post" ->
    season_type ev = Ok (JInt n) ->
    exists g,
      out' = out ++ [g]
      /\ gameType g =
           if n =? 1 then "Regular Season"
           else if n =? 3 then "Playoffs"
           else ("Play" ++ nb_hyphen ++ "In")%string.
Proof.
  intros py_repr fs fr out ev out' n H Hpost Hst.
  destruct (evaluate_event_inv _ _ _ _ _ _ H) as (state & Hs & Hcase).
  rewrite Hpost in Hs. inversion Hs; subst state. simpl in Hcase.
  destruct Hcase as (g & st & players & home & away & comp
                     & -> & Hst' & Hgt & _).
  rewrite Hst in Hst'. inversion Hst'; subst st.
  exists g. split; [reflexivity |].
  unfold game_type_of in Hgt. cbn [hashable] in Hgt.
  rewrite !py_eq_int, (Z.eqb_sym 1 n), (Z.eqb_sym 3 n) in Hgt.
  inversion Hgt as [E]. now destruct (n =? 1), (n =? 3).
Qed.

(** C5 amended, on a finished event of season type 5. *)
Lemma game_type_of_record_witness :
  exists g,
    [overtime_record ("Play" ++ nb_hyphen ++ "In")] = [] ++ [g]
    /\ gameType g = ("Play" ++ nb_hyphen ++ "In")%string.
Proof.
  exact (game_type_of_record plain_repr no_summary no_replay []
           (event_doc 5 5) _ 5 eq_refl eq_refl eq_refl).
Defined.

(** C8. On a box score of Format A rosters the stat lines are those of
    [block_lines]: each of points, rebounds and assists is read from its
    own column of the header row, the names in upper case; the column is
    the first header that equals the abbreviation or the long form after
    lower-casing ([_lookup] returns its index, -1 without one), and among
    ASCII names that is the first name equal to one of the two whatever
    its case; a category without column is 0 and a column at or past the
    end of a values array is 0, neither one raising. *)
Theorem format_a_columns :
  forall bd rosters blocks,
    assoc "players" bd = Some (JList rosters) ->
    view_all view_block rosters = Some blocks ->
    _collect_players (JDict bd)
    = (per <- mapM block_lines blocks ;; Ok (List.concat per))
    /\ (forall c row,
          _lookup row (abbrev c) = Ok (index_of (column c row)))
    /\ (forall c names,
          forallb is_ascii names = true ->
          column c (map upper names) = column c names)
    /\ (forall c names i,
          column c names = Some i ->
          exists before n after,
            names = before ++ n :: after /\ List.length before = i
            /\ (lower n = abbrev c \/ lower n = long_name c)
            /\ Forall (fun m => lower m <> abbrev c /\ lower m <> long_name c)
                 before)
    /\ (forall c names,
          column c names = None <->
          Forall (fun n => lower n <> abbrev c /\ lower n <> long_name c)
            names)
    /\ (forall stats, cell stats None = Ok 0)
    /\ (forall stats i,
          (List.length stats <= i)%nat -> cell stats (Some i) = Ok 0)
    /\ (forall stats i v,
          nth_error stats i = Some v -> cell stats (Some i) = _to_int v).
Proof.
  intros bd rosters blocks Hp V.
  refine (conj _ (conj _ (conj _ (conj _ (conj _ (conj _ (conj _ _))))))).
  - exact (collect_players_blocks _ _ _ Hp V).
  - intros c row. apply lookup_column.
  - intros c names _. apply column_upper.
  - intros c names i. apply column_first.
  - intros c names. split.
    + induction names as [| n names IH]; simpl; [constructor |].
      unfold header_is.
      destruct (String.eqb_spec (lower n) (abbrev c)); [discriminate |].
      destruct (String.eqb_spec (lower n) (long_name c)); [discriminate |].
      simpl. destruct (column c names); [discriminate |].
      intros _. constructor; [split; assumption | now apply IH].
    + induction 1 as [| n names [H1 H2] _ IH]; simpl; [reflexivity |].
      unfold header_is.
      destruct (String.eqb_spec (lower n) (abbrev c)); [contradiction |].
      destruct (String.eqb_spec (lower n) (long_name c)); [contradiction |].
      simpl. now rewrite IH.
  - reflexivity.
  - intros stats i Hi. simpl.
    now rewrite (proj2 (nth_error_None stats i) Hi).
  - intros stats i v Hv. simpl. now rewrite Hv.
Qed.

(** C8 on a sample: the header row has "reb" and "Points" and no assists
    column, and the second values array stops before the points column. *)
Lemma format_a_columns_witness :
  _collect_players format_a_box
  = Ok [mk_line (JStr "X") 21 7 0; mk_line (JStr "Y") 0 4 0].
Proof.
  exact (proj1 (format_a_columns [("players", JList format_a_rosters)]
                  format_a_rosters _ eq_refl eq_refl)).
Defined.

(** C9. On leaders metadata the fallback returns the merged lines: one
    line per distinct display name among the ranked players of the PTS,
    REB and AST groups, in order of first appearance, each category
    holding the value listed for the player there and 0 when the player
    is not listed there; a group of any other abbreviation is skipped
    unread; the specification's example yields its two lines. *)
Theorem fallback_leaders_merges :
  forall comp ts,
    view_leaders comp = Some ts ->
    _fallback_leaders comp = Ok (merged_lines ts)
    /\ NoDup (map name (merged_lines ts))
    /\ (forall n, In (JStr n) (map name (merged_lines ts))
                  <-> In n (map listed_name ts))
    /\ (forall c n, (forall v, ~ In (c, n, v) ts) -> last_value c n ts = 0)
    /\ (forall c n v ts1 ts2,
          ts = ts1 ++ (c, n, v) :: ts2 ->
          (forall v', ~ In (c, n, v') ts2) ->
          last_value c n ts = v)
    /\ (forall out d ab,
          assoc "abbreviation" d = Some (JStr ab) ->
          stat_of_abbr ab = None ->
          merge_group out (JDict d) = Ok out)
    /\ _fallback_leaders sample_leaders
       = Ok [mk_line (JStr "A") 30 10 0; mk_line (JStr "B") 0 0 9].
Proof.
  intros comp ts V.
  refine (conj _ (conj _ (conj _ (conj _ (conj _ (conj _ _)))))).
  - rewrite (fallback_leaders_view _ _ V). f_equal. apply merge_loop_lines.
  - apply merged_lines_NoDup.
  - intros n. rewrite merged_lines_names, in_map_iff. split.
    + intros (x & E & Hx). inversion E; subst.
      now apply first_occurrences_In.
    + intros Hn. exists n. split; [reflexivity |].
      now apply first_occurrences_In.
  - intros c n H. now apply last_value_unlisted.
  - intros c n v ts1 ts2 -> H. now apply last_value_listed.
  - intros out d ab Ha Hs. exact (unconsulted_group_skipped out d ab Ha Hs).
  - reflexivity.
Qed.

(** C9 on the specification's example. *)
Lemma fallback_leaders_merges_witness :
  _fallback_leaders sample_leaders
  = Ok [mk_line (JStr "A") 30 10 0; mk_line (JStr "B") 0 0 9].
Proof.
  exact (proj1 (fallback_leaders_merges sample_leaders _ eq_refl)).
Defined.

(** C10. In every assembled record an overtime badge comes with a
    close-game badge. *)
Theorem overtime_implies_close_game :
  forall (py_repr : json -> string) espn_summary find_replay_link_for_team
         sb games,
    _evaluate_games py_repr espn_summary find_replay_link_for_team sb
    = Ok games ->
    Forall overtime_is_close games.
Proof.
  intros py_repr fs fr sb games H. unfold _evaluate_games in H.
  apply bind_ok in H. destruct H as (evs & _ & H).
  apply bind_ok in H. destruct H as (events & _ & H).
  refine (foldM_invariant _ (Forall overtime_is_close) _ _ _ _ H
            (Forall_nil _)).
  intros out ev out' Hev Hall.
  destruct (evaluate_event_inv _ _ _ _ _ _ Hev) as (state & _ & Hcase).
  destruct (String.eqb state "post"); [| now subst].
  destruct Hcase as (g & st & players & home & away & comp
                     & -> & _ & _ & Hb).
  apply Forall_app. split; [exact Hall |]. constructor; [| constructor].
  destruct (evaluate_badges_shape _ _ _ _ _ Hb)
    as (others & E & _ & Hot).
  unfold overtime_is_close. rewrite E, !in_app_iff. intros [Ht | Ho].
  - exfalso. destruct (scoring_tier_cases players)
      as [(_ & T) | [(_ & _ & T) | [(_ & _ & T) | (_ & T)]]];
      rewrite T in Ht; simpl in Ht; intuition discriminate.
  - auto.
Qed.

(** C10 on a sample: a five-period game decided by eight points. *)
Lemma overtime_implies_close_game_witness :
  Forall overtime_is_close [overtime_record ("Play" ++ nb_hyphen ++ "In")].
Proof.
  exact (overtime_implies_close_game plain_repr no_summary no_replay
           (board_doc 5 5) _ eq_refl).
Defined.

(** * Further properties of the code *)

(** ** Integer coercion *)

(** X1. [_to_int] raises in one case only: [OverflowError] on an
    infinite float, which its [except] clause does not catch. Every other
    value gives an integer. *)
Lemma to_int_raises raw e :
  _to_int raw = Raise e <->
  e = OverflowError /\ exists negative, raw = JFloat (FInf negative).
Proof.
  unfold _to_int. split.
  - destruct raw as [| b | z | [m x | s |] | s | l | d]; simpl;
      try discriminate; try (destruct (int_of_text s); discriminate).
    intros H. inversion H. eauto.
  - intros (-> & s & ->). reflexivity.
Qed.

Lemma uint_digits_acc : forall d p,
  int_digits true (Z.pos p) (NilEmpty.string_of_uint d)
  = Some (Z.pos (Pos.of_uint_acc d p)).
Proof.
  induction d; intros p; cbn [NilEmpty.string_of_uint int_digits Pos.of_uint_acc];
    try reflexivity;
    match goal with
    | |- context [is_digit ?c] => change (is_digit c) with true
    end; cbv iota; rewrite <- IHd; f_equal;
    match goal with
    | |- context [digit_val ?c] =>
        let v := eval vm_compute in (digit_val c) in
        change (digit_val c) with v
    end; lia.
Qed.

Lemma uint_digits : forall d,
  int_digits true 0 (NilEmpty.string_of_uint d)
  = Some (Z.of_N (Pos.of_uint d)).
Proof.
  induction d; cbn [NilEmpty.string_of_uint int_digits Pos.of_uint];
    try reflexivity;
    match goal with
    | |- context [is_digit ?c] => change (is_digit c) with true
    end; cbv iota;
    [exact IHd | ..];
    match goal with
    | |- int_digits true ?a _ = _ =>
        let v := eval vm_compute in a in change a with v
    end; rewrite uint_digits_acc; reflexivity.
Qed.

Lemma uint_is_digits : forall d,
  all_chars is_digit (NilEmpty.string_of_uint d) = true.
Proof. induction d; simpl; auto. Qed.

Lemma digits_no_space s :
  all_chars is_digit s = true ->
  all_chars (fun c => negb (is_space c)) s = true.
Proof.
  induction s as [| c s IH]; simpl; [reflexivity |].
  intros H. apply andb_prop in H. destruct H as [Hc Hs].
  rewrite (IH Hs), andb_true_r.
  destruct c as [[] [] [] [] [] [] [] []]; try discriminate Hc; reflexivity.
Qed.

Lemma uint_nonempty (d : Decimal.uint) :
  d <> Decimal.Nil -> NilEmpty.string_of_uint d <> "".
Proof. destruct d; simpl; congruence. Qed.

Lemma pos_text p :
  NilZero.string_of_uint (Pos.to_uint p)
  = NilEmpty.string_of_uint (Pos.to_uint p).
Proof.
  pose proof (DecimalPos.Unsigned.to_uint_nonnil p) as H.
  unfold NilZero.string_of_uint. now destruct (Pos.to_uint p).
Qed.

(** The value of the decimal text of a positive number. *)
Lemma pos_digits_val p :
  digits_val 0 (NilEmpty.string_of_uint (Pos.to_uint p)) = Z.pos p.
Proof.
  pose proof (uint_digits (Pos.to_uint p)) as H.
  rewrite digits_value in H by apply uint_is_digits.
  rewrite DecimalPos.Unsigned.of_to in H. now inversion H.
Qed.

(** The value of a run of digits grows with its length. *)
Lemma digits_val_acc : forall s acc,
  digits_val acc s = acc * 10 ^ Z.of_nat (String.length s) + digits_val 0 s.
Proof.
  induction s as [| c s IH]; intros acc.
  - simpl. lia.
  - cbn [digits_val String.length].
    rewrite (IH (10 * acc + digit_val c)), (IH (10 * 0 + digit_val c)).
    rewrite Nat2Z.inj_succ, Z.pow_succ_r by lia. ring.
Qed.

Lemma digits_val_nonneg : forall s,
  all_chars is_digit s = true -> 0 <= digits_val 0 s.
Proof.
  induction s as [| c s IH]; intros H; [simpl; lia |].
  simpl in H. apply andb_prop in H. destruct H as [Hc Hs].
  cbn [digits_val]. rewrite digits_val_acc.
  specialize (IH Hs).
  assert (0 <= digit_val c).
  { destruct c as [[] [] [] [] [] [] [] []]; try discriminate Hc;
      vm_compute; discriminate. }
  assert (0 <= 10 ^ Z.of_nat (String.length s)) by (apply Z.pow_nonneg; lia).
  nia.
Qed.

Lemma leading_digit_bound c s :
  all_chars is_digit (String c s) = true -> c <> "0"%char ->
  10 ^ Z.of_nat (String.length s) <= digits_val 0 (String c s).
Proof.
  intros H Hc. simpl in H. apply andb_prop in H. destruct H as [Hd Hs].
  cbn [digits_val]. rewrite digits_val_acc.
  pose proof (digits_val_nonneg _ Hs).
  assert (1 <= digit_val c).
  { destruct c as [[] [] [] [] [] [] [] []]; try discriminate Hd;
      try (vm_compute; discriminate). now destruct Hc. }
  assert (0 <= 10 ^ Z.of_nat (String.length s)) by (apply Z.pow_nonneg; lia).
  nia.
Qed.

(** The decimal text of a positive number does not start with 0. *)
Lemma pos_text_leading p :
  exists c s, NilEmpty.string_of_uint (Pos.to_uint p) = String c s
              /\ c <> "0"%char.
Proof.
  pose proof (DecimalPos.Unsigned.to_of (Pos.to_uint p)) as Hn.
  rewrite DecimalPos.Unsigned.of_to in Hn. cbn [N.to_uint] in Hn.
  pose proof (DecimalPos.Unsigned.to_uint_nonzero p) as Hz.
  pose proof (DecimalPos.Unsigned.to_uint_nonnil p) as Hnil.
  destruct (Pos.to_uint p) as [| d | d | d | d | d | d | d | d | d | d] eqn:E;
    try contradiction;
    try (eexists _, _; split; [reflexivity | discriminate]).
  exfalso. rewrite DecimalFacts.unorm_D0 in Hn.
  destruct (Decimal.uint_eq_dec d Decimal.Nil) as [-> | Hd].
  - now apply Hz.
  - pose proof (DecimalFacts.nb_digits_unorm d Hd) as Hlen.
    rewrite <- Hn in Hlen. cbn [Decimal.nb_digits] in Hlen. lia.
Qed.

Lemma printable_length n :
  0 <= n -> printable n ->
  (String.length (str_of_int n) <= default_max_str_digits)%nat.
Proof.
  intros Hn Hp. unfold printable, max_str_digits in Hp.
  unfold str_of_int. destruct n as [| p | p]; [simpl; unfold default_max_str_digits; lia | | lia].
  cbn [Z.to_int NilZero.string_of_int]. rewrite pos_text.
  destruct (pos_text_leading p) as (c & s & Es & Hc).
  pose proof (pos_digits_val p) as Hv.
  pose proof (uint_is_digits (Pos.to_uint p)) as Hd.
  rewrite Es in *.
  pose proof (leading_digit_bound c s Hd Hc) as Hb.
  rewrite Hv in Hb. rewrite Z.abs_eq in Hp by lia.
  assert (Hlt : Z.of_nat (String.length s) < 4300).
  { apply (Z.pow_lt_mono_r_iff 10); lia. }
  cbn [String.length]. unfold default_max_str_digits. lia.
Qed.

Lemma str_of_int_digits n :
  0 <= n ->
  all_chars is_digit (str_of_int n) = true /\ str_of_int n <> "".
Proof.
  intros Hn. unfold str_of_int. destruct n as [| p | p];
    [split; [reflexivity | discriminate] | | lia].
  cbn [Z.to_int NilZero.string_of_int]. rewrite pos_text. split.
  - apply uint_is_digits.
  - apply uint_nonempty, DecimalPos.Unsigned.to_uint_nonnil.
Qed.

Lemma digits_val_str_of_int n : 0 <= n -> digits_val 0 (str_of_int n) = n.
Proof.
  intros Hn. unfold str_of_int. destruct n as [| p | p];
    [reflexivity | | lia].
  cbn [Z.to_int NilZero.string_of_int]. rewrite pos_text.
  apply pos_digits_val.
Qed.

(** [int(str(n))] for a count. *)
Lemma py_int_str_of_int n :
  0 <= n -> printable n -> py_int (JStr (str_of_int n)) = Ok n.
Proof.
  intros Hn Hp. destruct (str_of_int_digits n Hn) as [Hd Hne].
  rewrite py_int_digits by (split; assumption).
  pose proof (printable_length n Hn Hp) as Hlen.
  apply Nat.leb_le in Hlen. rewrite Hlen.
  now rewrite digits_val_str_of_int.
Qed.

Lemma int_of_text_str_of_int n :
  printable n -> int_of_text (str_of_int n) = Some n.
Proof.
  intros Hp. destruct (Z.le_gt_cases 0 n) as [Hn | Hn].
  - pose proof (py_int_str_of_int n Hn Hp) as H. unfold py_int in H.
    destruct (int_of_text (str_of_int n)); now inversion H.
  - destruct n as [| p | p]; try lia.
    assert (Hq : printable (Z.pos p)) by exact Hp.
    pose proof (printable_length (Z.pos p) ltac:(lia) Hq) as Hlen.
    pose proof (str_of_int_digits (Z.pos p) ltac:(lia)) as [Hd Hne].
    pose proof (digits_val_str_of_int (Z.pos p) ltac:(lia)) as Hv.
    unfold str_of_int in *.
    cbn [Z.to_int NilZero.string_of_int] in *. rewrite pos_text in *.
    set (ds := NilEmpty.string_of_uint (Pos.to_uint p)) in *.
    unfold int_of_text.
    assert (Hpl : int_chars (chars_of (String "-" ds)) = Some (String "-" ds)).
    { apply int_chars_plain. cbn [all_chars].
      now rewrite (digits_plain _ Hd). }
    rewrite Hpl. cbv zeta.
    assert (Hs : int_strip (String "-" ds) = String "-" ds).
    { unfold int_strip. cbn [int_lstrip]. change (is_int_space "-") with false.
      cbv iota. cbn [int_rstrip]. rewrite (int_rstrip_digits _ Hd).
      destruct ds; [contradiction | reflexivity]. }
    rewrite Hs. cbn [count_digits]. change (is_digit "-") with false.
    cbv iota. cbn [Nat.add]. rewrite (count_digits_run _ Hd).
    apply Nat.leb_le in Hlen. rewrite Hlen.
    assert (Hf : int_digits false 0 ds = int_digits true 0 ds).
    { destruct ds as [| c r]; [contradiction |].
      pose proof Hd as Hc. simpl in Hc. apply andb_prop in Hc.
      destruct Hc as [Hc _]. cbn [int_digits]. now rewrite Hc. }
    rewrite Hf, (digits_value _ _ Hd), Hv. reflexivity.
Qed.

(** X2. [_to_int] reads back the decimal text of an integer, negative
    ones included: [_to_int(str(n)) == n] for every [n] that [str]
    prints. *)
Theorem to_int_of_printed_int n :
  printable n -> _to_int (JStr (str_of_int n)) = Ok n.
Proof.
  intros Hp. unfold _to_int, py_int.
  now rewrite (int_of_text_str_of_int n Hp).
Qed.

(** ** Column lookup *)

Lemma lookup_from_any c : forall names idx,
  _lookup_from idx names (abbrev c) =
    Ok (match column c names with
        | Some i => idx + Z.of_nat i
        | None => -1
        end).
Proof.
  induction names as [| n names IH]; intros idx; [reflexivity |].
  cbn [_lookup_from column].
  replace (long_form (abbrev c)) with (Ok (long_name c)) by now destruct c.
  cbn [bind]. fold (header_is c n).
  destruct (header_is c n).
  - now rewrite Z.add_0_r.
  - rewrite IH. destruct (column c names); simpl; [| reflexivity].
    f_equal. lia.
Qed.

Lemma column_in_range c : forall names i,
  column c names = Some i -> (i < List.length names)%nat.
Proof.
  induction names as [| n names IH]; simpl; intros i H; [discriminate |].
  destruct (header_is c n); [inversion H; lia |].
  destruct (column c names) as [j |]; [| discriminate].
  inversion H; subst. specialize (IH j eq_refl). lia.
Qed.

(** X3. For a key that is, case-insensitively, one of [pts], [reb],
    [ast], [_lookup] returns the index of the first header that equals
    the key or its long form; the index lies within the header row, and
    it is -1 exactly when no header names the category. *)
Theorem lookup_known_key :
  forall names wanted c,
    lower wanted = abbrev c ->
    _lookup names wanted = Ok (index_of (column c names))
    /\ -1 <= index_of (column c names) < Z.of_nat (List.length names)
    /\ (index_of (column c names) = -1 <-> column c names = None).
Proof.
  intros names wanted c Hw. unfold _lookup. rewrite Hw, lookup_from_any.
  split; [now destruct (column c names) |].
  destruct (column c names) as [i |] eqn:E; simpl.
  - apply column_in_range in E. split; [lia |]. split; [lia | discriminate].
  - split; [lia | tauto].
Qed.

(** X4. For any other key [_lookup] raises [KeyError] as soon as the
    header row has an entry, and returns -1 on an empty row. *)
Theorem lookup_unknown_key :
  forall n names wanted,
    lower wanted <> "pts" -> lower wanted <> "reb" -> lower wanted <> "ast" ->
    _lookup (n :: names) wanted = Raise KeyError
    /\ _lookup [] wanted = Ok (-1).
Proof.
  intros n names wanted H1 H2 H3. unfold _lookup. simpl. unfold long_form.
  destruct (String.eqb_spec (lower wanted) "pts"); [contradiction |].
  destruct (String.eqb_spec (lower wanted) "reb"); [contradiction |].
  destruct (String.eqb_spec (lower wanted) "ast"); [contradiction |].
  split; reflexivity.
Qed.

(** ** Format B *)

Lemma category_value_snoc c cats t :
  category_value c (cats ++ [t]) =
    match t with
    | (Some c', v) => if stat_eqb c c' then v else category_value c cats
    | (None, _) => category_value c cats
    end.
Proof.
  unfold category_value. rewrite fold_left_app. simpl.
  destruct t as [[c' |] v]; reflexivity.
Qed.

Lemma name_key d key :
  match assoc "name" d with
  | Some (JStr n) => Some (upper n)
  | None => Some ""
  | Some _ => None
  end = Some key ->
  str_upper (match assoc "name" d with Some v => v | None => JStr "" end)
  = Ok key.
Proof.
  destruct (assoc "name" d) as [[] |]; simpl; intros H;
    try discriminate H; now inversion H.
Qed.

Lemma str_upper_key d key :
  category_key d = Some key ->
  exists ab nm,
    get (JDict d) "abbreviation" = Ok ab
    /\ get_or (JDict d) "name" (JStr "") = Ok nm
    /\ str_upper (py_or ab nm) = Ok key.
Proof.
  unfold category_key. cbn [get get_or].
  intros H. eexists _, _. split; [reflexivity |]. split; [reflexivity |].
  unfold py_or.
  destruct (assoc "abbreviation" d) as [v |];
    [| cbn [truthy]; now apply name_key].
  destruct v as [| b | z | f | a | l | m].
  - cbn [truthy]. now apply name_key.
  - cbn [truthy] in *. destruct b; [discriminate | now apply name_key].
  - destruct (truthy (JInt z)); [discriminate | now apply name_key].
  - destruct (truthy (JFloat f)); [discriminate | now apply name_key].
  - cbn [truthy]. destruct (String.eqb a ""); cbn [negb];
      [now apply name_key |]. simpl. now inversion H.
  - destruct (truthy (JList l)); [discriminate | now apply name_key].
  - destruct (truthy (JDict m)); [discriminate | now apply name_key].
Qed.

Lemma collect_b_cat_view cats cat t :
  view_category cat = Some t ->
  collect_b_cat (values_of cats) cat = Ok (values_of (cats ++ [t])).
Proof.
  destruct cat; try discriminate. unfold view_category.
  destruct (category_key d) as [key |] eqn:Ek; [| discriminate].
  destruct (str_upper_key _ _ Ek) as (ab & nm & Ga & Gn & Gk).
  unfold collect_b_cat, values_of. rewrite Ga. cbn [bind]. rewrite Gn.
  cbn [bind]. rewrite Gk. cbn [bind].
  unfold stat_of_key.
  destruct (String.eqb key "PTS" || String.eqb key "POINTS").
  { cbn [get get_or bind].
    destruct (_to_int _) as [z |]; [| discriminate].
    intros H; inversion H; subst. now rewrite !category_value_snoc. }
  destruct (String.eqb key "REB" || String.eqb key "REBOUNDS").
  { cbn [get get_or bind].
    destruct (_to_int _) as [z |]; [| discriminate].
    intros H; inversion H; subst. now rewrite !category_value_snoc. }
  destruct (String.eqb key "AST" || String.eqb key "ASSISTS").
  { cbn [get get_or bind].
    destruct (_to_int _) as [z |]; [| discriminate].
    intros H; inversion H; subst. now rewrite !category_value_snoc. }
  intros H; inversion H; subst. now rewrite !category_value_snoc.
Qed.

Lemma collect_b_cats_view : forall cs ts cats,
  view_all view_category cs = Some ts ->
  foldM collect_b_cat cs (values_of cats) = Ok (values_of (cats ++ ts)).
Proof.
  induction cs as [| cat cs IH]; intros ts cats V.
  - inversion V; subst. now rewrite app_nil_r.
  - apply view_all_cons in V. destruct V as (t & ts' & -> & Vc & V).
    cbn [foldM]. rewrite (collect_b_cat_view _ _ _ Vc). cbn [bind].
    rewrite (IH _ _ V). now rewrite <- app_assoc.
Qed.

Lemma collect_b_view players ply p :
  view_player ply = Some p ->
  collect_b players ply = Ok (players ++ [player_line p]).
Proof.
  destruct ply; try discriminate. unfold view_player.
  destruct (display_name (JDict d)) as [nm |] eqn:En; [| discriminate].
  unfold collect_b. cbn [get_or bind].
  destruct (assoc "statistics" d) as [[| | | | | cs |] |]; try discriminate.
  - destruct (view_all view_category cs) as [ts |] eqn:V; [| discriminate].
    intros H; inversion H; subst. cbn [iter bind].
    change (0, 0, 0) with (values_of []).
    rewrite (collect_b_cats_view _ _ _ V). cbn [bind]. rewrite En.
    reflexivity.
  - intros H; inversion H; subst. cbn [iter bind foldM]. rewrite En.
    reflexivity.
Qed.

Lemma collect_b_players : forall plys ps players,
  view_all view_player plys = Some ps ->
  foldM collect_b plys players = Ok (players ++ map player_line ps).
Proof.
  induction plys as [| ply plys IH]; intros ps players V.
  - inversion V; subst. simpl. now rewrite app_nil_r.
  - apply view_all_cons in V. destruct V as (p & ps' & -> & Vp & V).
    cbn [foldM]. rewrite (collect_b_view _ _ _ Vp). cbn [bind].
    rewrite (IH _ _ V). simpl. now rewrite <- app_assoc.
Qed.

Lemma collect_rosters_b : forall rosters pss players,
  view_all view_roster_b rosters = Some pss ->
  foldM collect_roster rosters players
  = Ok (players ++ map player_line (List.concat pss)).
Proof.
  induction rosters as [| r rosters IH]; intros pss players V.
  - inversion V; subst. simpl. now rewrite app_nil_r.
  - apply view_all_cons in V. destruct V as (ps & pss' & -> & Vr & V).
    destruct r; try discriminate. cbn [view_roster_b] in Vr.
    cbn [foldM collect_roster format_a is_dict bind].
    rewrite (collect_b_players _ _ _ Vr). cbn [bind].
    rewrite (IH _ _ V). simpl. now rewrite map_app, <- app_assoc.
Qed.

Lemma category_value_skip c : forall (cats : list (option stat * Z)) acc,
  (forall v, ~ In (Some c, v) cats) ->
  fold_left
    (fun acc t =>
       match t with
       | (Some c', v) => if stat_eqb c c' then v else acc
       | (None, _) => acc
       end)
    cats acc = acc.
Proof.
  induction cats as [| [[c' |] v] cats IH]; simpl; intros acc H;
    [reflexivity | |].
  - destruct (stat_eqb c c') eqn:E.
    + apply stat_eqb_eq in E. subst. exfalso. apply (H v). now left.
    + apply IH. intros v' Hv'. apply (H v'). now right.
  - apply IH. intros v' Hv'. apply (H v'). now right.
Qed.

(** X5. A box score whose rosters are all lists of players (Format B)
    yields one line per player, in roster and list order, duplicates
    kept; each category value is 0 when no category feeds it and else
    the value of the last category that feeds it. *)
Theorem format_b_lines :
  forall bd rosters pss,
    assoc "players" bd = Some (JList rosters) ->
    view_all view_roster_b rosters = Some pss ->
    _collect_players (JDict bd) = Ok (map player_line (List.concat pss))
    /\ (forall c cats,
          (forall v, ~ In (Some c, v) cats) -> category_value c cats = 0)
    /\ (forall c v cats1 cats2,
          (forall v', ~ In (Some c, v') cats2) ->
          category_value c (cats1 ++ (Some c, v) :: cats2) = v).
Proof.
  intros bd rosters pss Hp V.
  refine (conj _ (conj _ _)).
  - unfold _collect_players. cbn [get_or bind]. rewrite Hp. cbn [iter bind].
    now rewrite (collect_rosters_b _ _ _ V).
  - intros c cats H. now apply category_value_skip.
  - intros c v cats1 cats2 H. unfold category_value.
    rewrite fold_left_app. simpl.
    replace (stat_eqb c c) with true by now destruct c.
    now apply category_value_skip.
Qed.

(** Accumulator independence *)
Lemma foldM_from_empty {A B} (f : list B -> A -> result (list B)) :
  (forall s x, f s x = (l <- f [] x ;; Ok (s ++ l))) ->
  forall xs s, foldM f xs s = (l <- foldM f xs [] ;; Ok (s ++ l)).
Proof.
  intros Hf. induction xs as [| x xs IH]; intros s; simpl.
  - now rewrite app_nil_r.
  - rewrite (Hf s x). destruct (f [] x) as [l | e]; cbn [bind];
      [| reflexivity].
    rewrite (IH (s ++ l)), (IH l).
    destruct (foldM f xs []) as [l' | e]; cbn [bind]; [| reflexivity].
    now rewrite app_assoc.
Qed.

Lemma collect_a_from_empty i j k s x :
  collect_a i j k s x = (l <- collect_a i j k [] x ;; Ok (s ++ l)).
Proof.
  unfold collect_a.
  destruct (get_or x "stats" (JList [])) as [raw |]; cbn [bind];
    [| reflexivity].
  destruct (display_name x); cbn [bind]; [| reflexivity].
  destruct (_safe raw i); cbn [bind]; [| reflexivity].
  destruct (_safe raw j); cbn [bind]; [| reflexivity].
  destruct (_safe raw k); cbn [bind]; reflexivity.
Qed.

Lemma collect_b_from_empty s x :
  collect_b s x = (l <- collect_b [] x ;; Ok (s ++ l)).
Proof.
  unfold collect_b.
  destruct (get_or x "statistics" (JList [])) as [st |]; cbn [bind];
    [| reflexivity].
  destruct (iter st) as [cats |]; cbn [bind]; [| reflexivity].
  destruct (foldM collect_b_cat cats (0, 0, 0)) as [[[p r] a] |];
    cbn [bind]; [| reflexivity].
  destruct (display_name x); cbn [bind]; reflexivity.
Qed.

Lemma collect_roster_from_empty s roster :
  collect_roster s roster = (l <- collect_roster [] roster ;; Ok (s ++ l)).
Proof.
  unfold collect_roster.
  destruct (format_a roster) as [[block |] |]; cbn [bind]; [| | reflexivity].
  - destruct (get_or block "names" (JList [])) as [names |]; cbn [bind];
      [| reflexivity].
    destruct (iter names) as [ns |]; cbn [bind]; [| reflexivity].
    destruct (mapM str_upper ns) as [cols |]; cbn [bind]; [| reflexivity].
    destruct (_lookup cols "pts") as [i |]; cbn [bind]; [| reflexivity].
    destruct (_lookup cols "reb") as [j |]; cbn [bind]; [| reflexivity].
    destruct (_lookup cols "ast") as [k |]; cbn [bind]; [| reflexivity].
    destruct (item block "athletes") as [aths |]; cbn [bind];
      [| reflexivity].
    destruct (iter aths) as [al |]; cbn [bind]; [| reflexivity].
    apply foldM_from_empty. intros. apply collect_a_from_empty.
  - destruct roster; try (cbn [bind]; now rewrite app_nil_r).
    apply foldM_from_empty. intros. apply collect_b_from_empty.
Qed.

(** X6. Rosters are read independently: the lines of a box score are
    the lines of its first rosters followed by the lines of the remaining
    ones, and it raises when either part does. *)
Theorem collect_players_concat :
  forall bd bd1 bd2 rosters1 rosters2,
    assoc "players" bd = Some (JList (rosters1 ++ rosters2)) ->
    assoc "players" bd1 = Some (JList rosters1) ->
    assoc "players" bd2 = Some (JList rosters2) ->
    _collect_players (JDict bd)
    = (l1 <- _collect_players (JDict bd1) ;;
       l2 <- _collect_players (JDict bd2) ;;
       Ok (l1 ++ l2)).
Proof.
  intros bd bd1 bd2 r1 r2 H H1 H2. unfold _collect_players.
  cbn [get_or bind]. rewrite H, H1, H2. cbn [iter bind].
  rewrite foldM_app.
  destruct (foldM collect_roster r1 []) as [l1 |]; cbn [bind];
    [| reflexivity].
  apply (foldM_from_empty collect_roster collect_roster_from_empty).
Qed.

Lemma unrecognised_skipped players roster :
  unrecognised roster = true -> collect_roster players roster = Ok players.
Proof.
  unfold unrecognised, collect_roster, format_a.
  destruct roster; try discriminate; try reflexivity.
  cbn [is_dict get get_or bind].
  destruct (assoc "statistics" d) as [st |]; [| reflexivity].
  intros H. apply negb_true_iff in H. now rewrite H.
Qed.

Lemma unrecognised_all_skipped : forall rosters players,
  forallb unrecognised rosters = true ->
  foldM collect_roster rosters players = Ok players.
Proof.
  induction rosters as [| r rosters IH]; intros players Hall;
    [reflexivity |].
  simpl in Hall. apply andb_prop in Hall. destruct Hall as [Hr Hrest].
  cbn [foldM]. rewrite (unrecognised_skipped _ _ Hr). cbn [bind]. auto.
Qed.

(** X7. Rosters of neither format (not a list, and not a dict with a
    truthy ["statistics"]) are passed over without a line and without an
    error; so is an absent ["players"]. *)
Theorem unrecognised_rosters_give_no_lines :
  forall bd rosters,
    get_or (JDict bd) "players" (JList []) = Ok (JList rosters) ->
    forallb unrecognised rosters = true ->
    _collect_players (JDict bd) = Ok [].
Proof.
  intros bd rosters Hp Hall. unfold _collect_players.
  rewrite Hp. cbn [iter bind].
  now apply unrecognised_all_skipped.
Qed.

(** ** Round and game labels *)

Lemma startswith_app p : forall s t,
  (String.length p <= String.length s)%nat ->
  startswith p (s ++ t) = startswith p s.
Proof.
  induction p as [| a p IH]; intros s t H; [reflexivity |].
  destruct s as [| b s]; simpl in H; [lia |].
  simpl. rewrite IH by lia. reflexivity.
Qed.

Lemma split_single : forall h cur,
  contains " - " h = false -> split_from " - " h 0 cur = [(cur ++ h)%string].
Proof.
  induction h as [| c h IH]; intros cur H.
  - simpl. now rewrite append_nil_r.
  - cbn [contains] in H. apply orb_false_iff in H. destruct H as [Hs Hc].
    cbn [split_from]. rewrite Hs, (IH _ Hc), append_assoc. reflexivity.
Qed.

Lemma split_first : forall r cur rest,
  contains " - " (r ++ " -") = false ->
  split_from " - " (r ++ " - " ++ rest) 0 cur
  = (cur ++ r)%string :: split_from " - " rest 0 "".
Proof.
  induction r as [| c r IH]; intros cur rest H.
  - simpl. now rewrite append_nil_r.
  - cbn [contains] in H. apply orb_false_iff in H. destruct H as [Hs Hc].
    change ((String c r ++ " - " ++ rest)%string)
      with (String c (r ++ " - " ++ rest)%string).
    cbn [split_from].
    assert (Hs' : startswith " - " (String c (r ++ " - " ++ rest)) = false).
    { change (String c (r ++ " - " ++ rest))
        with ((String c (r ++ " -")) ++ (" " ++ rest))%string at 1 || idtac.
      replace (String c (r ++ " - " ++ rest))
        with ((String c r ++ " -") ++ (" " ++ rest))%string
        by (rewrite append_assoc; reflexivity).
      rewrite startswith_app; [exact Hs |].
      rewrite append_length. simpl. lia. }
    rewrite Hs', (IH _ _ Hc), append_assoc. reflexivity.
Qed.

Lemma split_from_nonempty sep : forall s n cur, split_from sep s n cur <> [].
Proof.
  induction s as [| c s IH]; intros n cur.
  - destruct n; discriminate.
  - destruct n; simpl.
    + destruct (startswith sep (String c s)); [discriminate | apply IH].
    + apply IH.
Qed.

Lemma passed_over_skipped note rest :
  passed_over note = true ->
  round_and_game (note :: rest) = round_and_game rest.
Proof.
  destruct note; try discriminate. unfold passed_over.
  cbn [round_and_game get get_or bind].
  destruct (py_eq _ (JStr "event")); [| reflexivity].
  cbn [get_or bind].
  destruct (assoc "headline" d) as [[| | | | h | |] |]; try discriminate.
  - intros H. apply negb_true_iff in H. unfold split.
    now rewrite (split_single _ "" H).
  - reflexivity.
Qed.

Lemma passed_over_all_skipped : forall before rest,
  forallb passed_over before = true ->
  round_and_game (before ++ rest) = round_and_game rest.
Proof.
  induction before as [| n before IH]; intros rest H; [reflexivity |].
  simpl in H. apply andb_prop in H. destruct H as [Hn Hb].
  change ((n :: before) ++ rest) with (n :: (before ++ rest)).
  rewrite (passed_over_skipped _ _ Hn). now apply IH.
Qed.

(** X8. The round and game labels come from the first event note whose
    headline contains [" - "]: notes of another type and event notes
    without the separator before it are passed over, later notes are not
    read. The round is the text before the first separator, the game the
    segment after it, the whole remainder when it has no further
    separator. *)
Theorem parse_round_and_game_first_headline :
  forall ed before d after r g,
    get_or (JDict ed) "notes" (JList [])
    = Ok (JList (before ++ JDict d :: after)) ->
    forallb passed_over before = true ->
    assoc "type" d = Some (JStr "event") ->
    assoc "headline" d = Some (JStr (r ++ " - " ++ g)) ->
    contains " - " (r ++ " -") = false ->
    _parse_round_and_game (JDict ed) = Ok (r, hd "" (split " - " g))
    /\ (contains " - " g = false -> split " - " g = [g]).
Proof.
  intros ed before d after r g Hn Hb Ht Hh Hr.
  split.
  - unfold _parse_round_and_game. rewrite Hn. cbn [bind iter].
    rewrite (passed_over_all_skipped _ _ Hb).
    cbn [round_and_game get get_or bind]. rewrite Ht.
    change (py_eq (JStr "event") (JStr "event")) with true. cbv iota.
    rewrite Hh. cbn [bind]. unfold split at 1.
    rewrite (split_first _ "" _ Hr). cbn [append].
    unfold split.
    destruct (split_from " - " g 0 "") as [| p1 more] eqn:E; [| reflexivity].
    now apply split_from_nonempty in E.
  - intros Hg. unfold split. now rewrite (split_single _ "" Hg).
Qed.

(** X9. Without such a note, and without ["notes"] at all, both labels
    are empty. *)
Theorem parse_round_and_game_no_headline :
  forall ed notes,
    get_or (JDict ed) "notes" (JList []) = Ok (JList notes) ->
    forallb passed_over notes = true ->
    _parse_round_and_game (JDict ed) = Ok ("", "").
Proof.
  intros ed notes Hn Hb. unfold _parse_round_and_game. rewrite Hn.
  cbn [bind iter]. rewrite <- (app_nil_r notes).
  now rewrite (passed_over_all_skipped _ _ Hb).
Qed.

(** ** Series label: edge behaviour *)

(** X10. With fewer than two competitors [_series_before_game] raises
    [IndexError], whatever the summary is: the competitors are read
    before the summary is matched. *)
Theorem series_needs_two_competitors :
  forall (py_repr : json -> string) summary cd cs ks,
    assoc "competitors" cd = Some (JList cs) ->
    view_all view_competitor cs = Some ks ->
    (List.length cs < 2)%nat ->
    _series_before_game py_repr summary (JDict cd) = Raise IndexError.
Proof.
  intros py_repr summary cd cs ks Hcs V Hlen.
  unfold _series_before_game. cbn [item]. rewrite Hcs. cbn [bind].
  destruct cs as [| c0 [| c1 cs]]; [reflexivity | | simpl in Hlen; lia].
  apply view_all_cons in V. destruct V as (k0 & r & _ & V0 & _).
  destruct (view_competitor_items _ _ V0) as (t & w & _ & _ & G & _).
  cbn [item_at nth_error bind iter first_winner]. rewrite G. cbn [bind].
  destruct (truthy w); cbn [bind]; now rewrite (team_abbr_view _ _ V0).
Qed.

(** X11. A summary that is not text (a null, a number) makes
    [_series_before_game] raise [TypeError]; it is not passed through. *)
Theorem series_summary_not_text :
  forall (py_repr : json -> string) summary cd c0 c1 k0 k1,
    assoc "competitors" cd = Some (JList [c0; c1]) ->
    view_competitor c0 = Some k0 ->
    view_competitor c1 = Some k1 ->
    (forall txt, summary <> JStr txt) ->
    _series_before_game py_repr summary (JDict cd) = Raise TypeError.
Proof.
  intros py_repr summary cd c0 c1 k0 k1 Hcs V0 V1 Hs.
  destruct (view_competitor_items _ _ V0) as (t0 & w0 & _ & _ & G0 & _).
  destruct (view_competitor_items _ _ V1) as (t1 & w1 & _ & _ & G1 & _).
  pose proof (team_abbr_view _ _ V0) as A0.
  pose proof (team_abbr_view _ _ V1) as A1.
  unfold _series_before_game. cbn [item]. rewrite Hcs.
  cbn [bind item_at nth_error iter first_winner].
  rewrite G0. cbn [bind].
  destruct (truthy w0); cbn [bind].
  - rewrite A0. cbn [bind Nat.eqb]. rewrite A1. cbn [bind].
    destruct summary; try reflexivity. now destruct (Hs s).
  - rewrite G1. cbn [bind].
    destruct (truthy w1); cbn [bind first_winner Nat.eqb];
      rewrite ?A0, ?A1; cbn [bind]; rewrite ?A0, ?A1; cbn [bind];
      (destruct summary; try reflexivity; now destruct (Hs s)).
Qed.

(** ** Line scores *)

Lemma q3tot_fold : forall items vs acc,
  view_all view_linescore items = Some vs ->
  foldM (fun acc l => v <- get l "value" ;; n <- _to_int v ;; Ok (acc + n))
        items acc = Ok (acc + total vs).
Proof.
  induction items as [| l items IH]; intros vs acc V.
  - inversion V; subst. simpl. now rewrite Z.add_0_r.
  - apply view_all_cons in V. destruct V as (z & vs' & -> & Vl & V).
    cbn [foldM]. destruct l; try discriminate. cbn [get get_or bind].
    unfold view_linescore in Vl.
    destruct (_to_int _) as [n |]; [| discriminate]. inversion Vl; subst.
    cbn [bind]. rewrite (IH _ _ V). simpl. now rewrite Z.add_assoc.
Qed.

(** X12. [q3tot] adds the values of the first three line scores as
    [_to_int] reads them; later entries are never read, so a malformed
    fourth entry is harmless, and a side without ["linescores"] totals
    0. *)
Theorem q3tot_first_three :
  forall td ls vs,
    get_or (JDict td) "linescores" (JList []) = Ok (JList ls) ->
    view_all view_linescore (firstn 3 ls) = Some vs ->
    q3tot (JDict td) = Ok (total vs) /\ (List.length vs <= 3)%nat.
Proof.
  intros td ls vs Hls V. split.
  - unfold q3tot. rewrite Hls. cbn [bind slice_to iter].
    now rewrite (q3tot_fold _ _ 0 V).
  - assert (H : forall (l : list json) r, view_all view_linescore l = Some r ->
                 List.length r = List.length l).
    { induction l as [| x l IH]; intros r Hr.
      - now inversion Hr.
      - apply view_all_cons in Hr. destruct Hr as (a & r' & -> & _ & Hr).
        simpl. now rewrite (IH _ Hr). }
    rewrite (H _ _ V). apply firstn_le_length.
Qed.

(** ** Badges *)

Lemma evaluate_badges_exact players home away comp :
  evaluate_badges players home away comp =
    (qh <- q3tot home ;;
     qa <- q3tot away ;;
     hs <- score_of home ;;
     sa <- score_of away ;;
     close <- (if Z.abs (hs - sa) <=? 7 then Ok true
               else p <- period_of comp ;; Ok (p >? 4)) ;;
     p <- period_of comp ;;
     Ok (scoring_tier players
         ++ (if existsb has_triple_double players then ["tripleDouble"] else [])
         ++ (if Z.abs (qh - qa) <=? 10 then ["close4"] else [])
         ++ (if (close : bool) then ["closeGame"] else [])
         ++ (if p >? 4 then ["overtime"] else []))).
Proof.
  unfold evaluate_badges, scoring_tier, score_of.
  fold has_triple_double.
  change (fun p => (pts p >=? 10) && (reb p >=? 10) && (ast p >=? 10))
    with has_triple_double.
  destruct (q3tot home) as [qh |]; [| reflexivity]. cbn [bind].
  destruct (q3tot away) as [qa |]; [| reflexivity]. cbn [bind].
  destruct (item home "score") as [hs0 |]; [| reflexivity]. cbn [bind].
  destruct (_to_int hs0) as [hs |]; [| reflexivity]. cbn [bind].
  destruct (item away "score") as [sa0 |]; [| reflexivity]. cbn [bind].
  destruct (_to_int sa0) as [sa |]; [| reflexivity]. cbn [bind].
  destruct (if Z.abs (hs - sa) <=? 7 then Ok true
            else p <- period_of comp ;; Ok (p >? 4)) as [close |];
    [| reflexivity]. cbn [bind].
  destruct (period_of comp) as [p |]; [| reflexivity]. cbn [bind].
  f_equal.
  destruct (max_default (map pts players) 0 >=? 50);
    [| destruct (max_default (map pts players) 0 >=? 40);
       [| destruct (max_default (map pts players) 0 >=? 30)]];
    destruct (existsb has_triple_double players);
    destruct (Z.abs (qh - qa) <=? 10); destruct close; destruct (p >? 4);
    reflexivity.
Qed.

Lemma triple_double_exists players :
  existsb has_triple_double players = true <-> triple_double players.
Proof.
  rewrite existsb_exists. unfold triple_double, has_triple_double.
  split; intros (p & Hp & H); exists p; (split; [exact Hp |]).
  - apply andb_prop in H. destruct H as [H H3].
    apply andb_prop in H. destruct H as [H1 H2].
    apply Z.geb_le in H1, H2, H3. lia.
  - destruct H as (H1 & H2 & H3).
    rewrite !andb_true_iff. repeat split; apply Z.geb_le; lia.
Qed.

Lemma in_optional (b x : string) (c : bool) :
  In b (if c then [x] else []) <-> c = true /\ x = b.
Proof. destruct c; simpl; intuition discriminate. Qed.

Lemma in_scoring_tier players b :
  In b (scoring_tier players) -> b = "pts50" \/ b = "pts40" \/ b = "pts30".
Proof.
  unfold scoring_tier.
  destruct (_ >=? 50); [| destruct (_ >=? 40); [| destruct (_ >=? 30)]];
    simpl; intuition.
Qed.

Lemma in_badges players (c1 c2 c3 c4 : bool) b :
  In b (scoring_tier players
        ++ (if c1 then ["tripleDouble"] else [])
        ++ (if c2 then ["close4"] else [])
        ++ (if c3 then ["closeGame"] else [])
        ++ (if c4 then ["overtime"] else []))
  <-> In b (scoring_tier players)
      \/ (c1 = true /\ "tripleDouble" = b) \/ (c2 = true /\ "close4" = b)
      \/ (c3 = true /\ "closeGame" = b) \/ (c4 = true /\ "overtime" = b).
Proof. now rewrite !in_app_iff, !in_optional. Qed.

Ltac badge_member :=
  rewrite in_badges; split;
  [ intros [H | [[H E] | [[H E] | [[H E] | [H E]]]]];
    [ apply in_scoring_tier in H; destruct H as [H | [H | H]]; discriminate
    | try discriminate E; try exact H .. ]
  | intros H; auto 10 ].

(** X13. The four badges besides the scoring tier, as rules: there is a
    [tripleDouble] badge exactly when some player has at least 10 points,
    rebounds and assists; [close4] exactly when the three-quarter totals
    differ by at most 10; [closeGame] exactly when the final margin is at
    most 7 or the period is above 4; [overtime] exactly when the period
    is above 4. *)
Theorem badge_rules :
  forall players home away comp bs qh qa hs sa p,
    evaluate_badges players home away comp = Ok bs ->
    q3tot home = Ok qh -> q3tot away = Ok qa ->
    score_of home = Ok hs -> score_of away = Ok sa ->
    period_of comp = Ok p ->
    (In "tripleDouble" bs <-> triple_double players)
    /\ (In "close4" bs <-> Z.abs (qh - qa) <= 10)
    /\ (In "closeGame" bs <-> Z.abs (hs - sa) <= 7 \/ p > 4)
    /\ (In "overtime" bs <-> p > 4).
Proof.
  intros players home away comp bs qh qa hs sa p H Hqh Hqa Hhs Hsa Hp.
  rewrite evaluate_badges_exact, Hqh, Hqa, Hhs, Hsa in H. cbn [bind] in H.
  rewrite Hp in H.
  assert (Hc : (if Z.abs (hs - sa) <=? 7 then Ok true
                else p0 <- Ok p ;; Ok (p0 >? 4))
               = Ok ((Z.abs (hs - sa) <=? 7) || (p >? 4)))
    by now destruct (Z.abs (hs - sa) <=? 7).
  rewrite Hc in H. cbn [bind] in H. inversion H; subst bs; clear H Hc.
  refine (conj _ (conj _ (conj _ _))).
  - rewrite <- triple_double_exists. badge_member.
  - rewrite <- Z.leb_le. badge_member.
  - assert (Hb : ((Z.abs (hs - sa) <=? 7) || (p >? 4))%bool = true
                 <-> Z.abs (hs - sa) <= 7 \/ p > 4).
    { rewrite orb_true_iff, Z.leb_le, Z.gtb_gt. lia. }
    rewrite <- Hb. badge_member.
  - assert (Hb : (p >? 4) = true <-> p > 4) by (rewrite Z.gtb_gt; lia).
    rewrite <- Hb. badge_member.
Qed.

(** X14. A badge list is the vocabulary with some badges left out: it
    keeps the order pts50, pts40, pts30, tripleDouble, close4, closeGame,
    overtime and has no badge twice. *)
Theorem badges_in_vocabulary_order :
  forall players home away comp bs,
    evaluate_badges players home away comp = Ok bs ->
    subseq bs vocabulary = true /\ NoDup bs.
Proof.
  intros players home away comp bs H.
  rewrite evaluate_badges_exact in H.
  apply bind_ok in H. destruct H as (qh & _ & H).
  apply bind_ok in H. destruct H as (qa & _ & H).
  apply bind_ok in H. destruct H as (hs & _ & H).
  apply bind_ok in H. destruct H as (sa & _ & H).
  apply bind_ok in H. destruct H as (close & _ & H).
  apply bind_ok in H. destruct H as (p & _ & H).
  inversion H; subst bs; clear H. unfold scoring_tier.
  destruct (_ >=? 50); [| destruct (_ >=? 40); [| destruct (_ >=? 30)]];
    destruct (existsb has_triple_double players),
      (Z.abs (qh - qa) <=? 10), close, (p >? 4);
    (split; [reflexivity |]);
    repeat (constructor; [simpl; intuition discriminate |]); constructor.
Qed.

(** X15. When neither side has ["linescores"], both totals are 0 and
    the game is given the [close4] badge. *)
Theorem close4_without_linescores :
  forall players hd ad comp bs,
    assoc "linescores" hd = None ->
    assoc "linescores" ad = None ->
    evaluate_badges players (JDict hd) (JDict ad) comp = Ok bs ->
    In "close4" bs.
Proof.
  intros players hd ad comp bs Hh Ha H.
  rewrite evaluate_badges_exact in H.
  assert (Q : forall d, assoc "linescores" d = None -> q3tot (JDict d) = Ok 0).
  { intros d Hd. unfold q3tot. cbn [get_or]. now rewrite Hd. }
  rewrite (Q _ Hh), (Q _ Ha) in H. cbn [bind] in H.
  apply bind_ok in H. destruct H as (hs & _ & H).
  apply bind_ok in H. destruct H as (sa & _ & H).
  apply bind_ok in H. destruct H as (close & _ & H).
  apply bind_ok in H. destruct H as (p & _ & H).
  inversion H; subst bs. rewrite !in_app_iff. right; right; left.
  simpl. auto.
Qed.

(** ** Summaries in the usual wording *)

Lemma greedy_all p k : forall u c v pos g m,
  all_chars p (String c u) = true ->
  match v with String d _ => p d = false | EmptyString => True end ->
  k (S pos + String.length u)%nat v g = Some m ->
  greedy p k pos (String c u ++ v) g = Some m.
Proof.
  induction u as [| d u IH]; intros c v pos g m Hall Hv Hk.
  - simpl in Hall. rewrite andb_true_r in Hall.
    cbn [append greedy]. rewrite Hall.
    assert (Hn : greedy p k (S pos) v g = None).
    { destruct v as [| e v]; [reflexivity |]. simpl. now rewrite Hv. }
    rewrite Hn. simpl in Hk. now rewrite Nat.add_0_r in Hk.
  - cbn [all_chars] in Hall. apply andb_prop in Hall.
    destruct Hall as [Hc Hall].
    change (String c (String d u) ++ v)%string
      with (String c (String d u ++ v)%string).
    cbn [greedy]. rewrite Hc.
    rewrite (IH d v (S pos) g m Hall Hv); [reflexivity |].
    rewrite <- Hk. f_equal. simpl. lia.
Qed.

Lemma reluctant_first p k : forall u c v pos g m,
  all_chars p (String c u) = true ->
  (forall u1 d u2, u = (u1 ++ String d u2)%string ->
     k (S pos + String.length u1)%nat (String d u2 ++ v)%string g = None) ->
  k (S pos + String.length u)%nat v g = Some m ->
  reluctant p k pos (String c u ++ v) g = Some m.
Proof.
  induction u as [| d u IH]; intros c v pos g m Hall Hnone Hk.
  - simpl in Hall. rewrite andb_true_r in Hall.
    cbn [append reluctant]. rewrite Hall.
    simpl in Hk. rewrite Nat.add_0_r in Hk. now rewrite Hk.
  - cbn [all_chars] in Hall. apply andb_prop in Hall.
    destruct Hall as [Hc Hall].
    change (String c (String d u) ++ v)%string
      with (String c (String d u ++ v)%string).
    cbn [reluctant]. rewrite Hc.
    pose proof (Hnone "" d u eq_refl) as H0.
    cbn [String.length] in H0. rewrite Nat.add_0_r in H0. rewrite H0.
    apply IH; [exact Hall | |].
    + intros u1 e u2 ->.
      pose proof (Hnone (String d u1) e u2 eq_refl) as H1.
      rewrite <- H1. f_equal. simpl. lia.
    + rewrite <- Hk. f_equal. simpl. lia.
Qed.

Lemma substring_at pre w post n m text :
  text = (pre ++ w ++ post)%string ->
  n = String.length pre -> m = String.length w ->
  substring n m text = w.
Proof. intros -> -> ->. apply substring_middle. Qed.

Lemma add_sub_same (pos n : nat) : (pos + n - pos)%nat = n.
Proof. lia. Qed.

Lemma greedy_run p k w v pos g m :
  w <> "" -> all_chars p w = true ->
  match v with String d _ => p d = false | EmptyString => True end ->
  k (pos + String.length w)%nat v g = Some m ->
  greedy p k pos (w ++ v) g = Some m.
Proof.
  intros Hne Hall Hv Hk. destruct w as [| c u]; [contradiction |].
  apply greedy_all; try assumption.
  rewrite <- Hk. f_equal. simpl. lia.
Qed.

Section Runs.

Variable text : string.

Lemma run_cat r1 r2 k pos s g :
  run text (Cat r1 r2) k pos s g = run text r1 (run text r2 k) pos s g.
Proof. reflexivity. Qed.

Lemma run_bol r k s g :
  run text (Cat Bol r) k 0%nat s g = run text r k 0%nat s g.
Proof. reflexivity. Qed.

Lemma run_word : forall w v k pos g,
  run text (word w) k pos (w ++ v) g = k (pos + String.length w)%nat v g.
Proof.
  induction w as [| c w IH]; intros v k pos g.
  - simpl. now rewrite Nat.add_0_r.
  - cbn [word]. rewrite run_cat. cbn [run append atom_ok].
    rewrite Ascii.eqb_refl, IH. f_equal. simpl. lia.
Qed.

Lemma run_plus a r k w v pos g m :
  w <> "" -> all_chars (atom_ok a) w = true ->
  match v with String d _ => atom_ok a d = false | EmptyString => True end ->
  run text r k (pos + String.length w)%nat v g = Some m ->
  run text (Cat (Plus a) r) k pos (w ++ v) g = Some m.
Proof. intros. rewrite run_cat. cbn [run]. now apply greedy_run. Qed.

Lemma run_plus_fail a r k d s pos g :
  atom_ok a d = false ->
  run text (Cat (Plus a) r) k pos (String d s) g = None.
Proof. intros H. rewrite run_cat. cbn [run greedy]. now rewrite H. Qed.

Lemma run_group_plus name a r k w v pos g m :
  w <> "" -> all_chars (atom_ok a) w = true ->
  match v with String d _ => atom_ok a d = false | EmptyString => True end ->
  run text r k (pos + String.length w)%nat v
    ((name, substring pos (String.length w) text) :: g) = Some m ->
  run text (Cat (Group name (Plus a)) r) k pos (w ++ v) g = Some m.
Proof.
  intros Hne Hall Hv Hk. rewrite run_cat. cbn [run].
  apply greedy_run; try assumption.
  now rewrite add_sub_same.
Qed.

Lemma run_group_lazy name a r k c u v pos g m :
  all_chars (atom_ok a) (String c u) = true ->
  (forall u1 d u2 g', u = (u1 ++ String d u2)%string ->
     run text r k (S pos + String.length u1)%nat (String d u2 ++ v)%string g'
     = None) ->
  run text r k (pos + String.length (String c u))%nat v
    ((name, substring pos (String.length (String c u)) text) :: g) = Some m ->
  run text (Cat (Group name (PlusLazy a)) r) k pos (String c u ++ v) g
  = Some m.
Proof.
  intros Hall Hnone Hk. rewrite run_cat. cbn [run].
  apply reluctant_first; [exact Hall | |].
  - intros u1 d u2 Hu. now apply Hnone.
  - replace (S pos + String.length u - pos)%nat
      with (String.length (String c u)) by (cbn [String.length]; lia).
    rewrite <- Hk. f_equal. cbn [String.length]. lia.
Qed.

Lemma run_verb verb r k v pos g m :
  verb = "leads" \/ verb = "wins" ->
  run text r k (pos + String.length verb)%nat v
    (("verb", substring pos (String.length verb) text) :: g) = Some m ->
  run text
    (Cat (Group "verb" (Alt (word "leads") (word "wins"))) r) k pos
    (verb ++ v) g = Some m.
Proof.
  intros Hverb Hk. rewrite run_cat.
  change (run text (Group "verb" (Alt (word "leads") (word "wins")))
            (run text r k) pos (verb ++ v)%string g)
    with (match run text (word "leads")
                  (fun pos' s' g' =>
                     run text r k pos' s'
                       (("verb", substring pos (pos' - pos) text) :: g'))
                  pos (verb ++ v)%string g with
          | Some m => Some m
          | None =>
              run text (word "wins")
                (fun pos' s' g' =>
                   run text r k pos' s'
                     (("verb", substring pos (pos' - pos) text) :: g'))
                pos (verb ++ v)%string g
          end).
  destruct Hverb as [-> | ->].
  - rewrite run_word.
    rewrite add_sub_same. now rewrite Hk.
  - replace (run text (word "leads")
               (fun pos' s' g' =>
                  run text r k pos' s'
                    (("verb", substring pos (pos' - pos) text) :: g'))
               pos ("wins" ++ v)%string g) with (@None groups)
      by reflexivity.
    rewrite run_word.
    rewrite add_sub_same. exact Hk.
Qed.

Lemma run_word_cat w r k v pos g :
  run text (Cat (word w) r) k pos (w ++ v) g
  = run text r k (pos + String.length w)%nat v g.
Proof. rewrite run_cat. apply run_word. Qed.

Lemma run_one_cat c r k v pos g :
  run text (Cat (One (Char c)) r) k pos (String c v) g
  = run text r k (S pos) v g.
Proof.
  rewrite run_cat. cbn [run atom_ok]. now rewrite Ascii.eqb_refl.
Qed.

End Runs.

Lemma no_space_any s :
  all_chars (fun c => negb (is_space c)) s = true ->
  all_chars (atom_ok AnyChar) s = true.
Proof.
  induction s as [| c s IH]; [reflexivity |]. simpl.
  intros H. apply andb_prop in H. destruct H as [Hc Hs].
  rewrite (IH Hs), andb_true_r.
  destruct c as [[] [] [] [] [] [] [] []]; try reflexivity; discriminate Hc.
Qed.

Lemma no_space_split : forall u u1 d u2,
  all_chars (fun c => negb (is_space c)) u = true ->
  u = (u1 ++ String d u2)%string -> is_space d = false.
Proof.
  intros u u1. revert u. induction u1 as [| e u1 IH]; intros u d u2 H ->.
  - simpl in H. apply andb_prop in H. destruct H as [H _].
    now apply negb_true_iff in H.
  - simpl in H. apply andb_prop in H. destruct H as [_ H]. eauto.
Qed.

Lemma digit_head_not_space ws v :
  ws <> "" -> all_chars is_digit ws = true ->
  match (ws ++ v)%string with
  | String d _ => atom_ok SpaceChar d = false
  | EmptyString => True
  end.
Proof.
  intros Hne H. destruct ws as [| cw uw]; [contradiction |].
  simpl in H. apply andb_prop in H. destruct H as [Hcw _]. simpl.
  destruct cw as [[] [] [] [] [] [] [] []]; try reflexivity; discriminate Hcw.
Qed.

Lemma series_run text team verb ws ls :
  text = (team ++ " " ++ verb ++ " series " ++ ws ++ "-" ++ ls)%string ->
  team <> "" -> all_chars (fun c => negb (is_space c)) team = true ->
  verb = "leads" \/ verb = "wins" ->
  ws <> "" -> all_chars is_digit ws = true ->
  ls <> "" -> all_chars is_digit ls = true ->
  run text _SERIES_RE (fun _ _ g => Some g) 0%nat
    (team ++ " " ++ verb ++ " series " ++ ws ++ "-" ++ ls)%string []
  = Some [("losses", ls); ("wins", ws); ("verb", verb); ("team", team)].
Proof.
  intros Htext Hne Hteam Hverb Hwne Hws Hlne Hls.
  unfold _SERIES_RE, sequence. cbn [fold_right].
  rewrite run_bol.
  destruct team as [| c u]; [contradiction |].
  apply run_group_lazy.
  - now apply no_space_any.
  - intros u1 d u2 g' Hu. apply run_plus_fail.
    simpl in Hteam. apply andb_prop in Hteam. destruct Hteam as [_ Hteam].
    exact (no_space_split _ _ _ _ Hteam Hu).
  - apply (run_plus text SpaceChar _ _ " "); [discriminate | reflexivity | |].
    { destruct Hverb as [-> | ->]; reflexivity. }
    apply run_verb; [exact Hverb |].
    apply (run_plus text SpaceChar _ _ " " ("series " ++ ws ++ "-" ++ ls));
      [discriminate | reflexivity | reflexivity |].
    change ("series " ++ ws ++ "-" ++ ls)%string
      with ("series" ++ " " ++ ws ++ "-" ++ ls)%string.
    rewrite run_word_cat.
    apply (run_plus text SpaceChar _ _ " ");
      [discriminate | reflexivity | |].
    { now apply digit_head_not_space. }
    apply run_group_plus; [exact Hwne | exact Hws | reflexivity |].
    change ("-" ++ ls)%string with (String "-" ls).
    rewrite run_one_cat.
    rewrite <- (append_nil_r ls) at 1.
    apply run_group_plus; [exact Hlne | exact Hls | exact I |].
    cbn [run]. f_equal.
    repeat match goal with
           | |- _ :: _ = _ :: _ => f_equal
           | |- (_, _) = (_, _) => f_equal
           end.
    + apply (substring_at
               (String c u ++ " " ++ verb ++ " series " ++ ws ++ "-") ls "");
        [ rewrite Htext, append_nil_r, !append_assoc; reflexivity
        | rewrite !append_length; simpl; lia
        | reflexivity ].
    + apply (substring_at (String c u ++ " " ++ verb ++ " series ") ws
               ("-" ++ ls));
        [ rewrite Htext, !append_assoc; reflexivity
        | rewrite !append_length; simpl; lia
        | reflexivity ].
    + apply (substring_at (String c u ++ " ") verb
               (" series " ++ ws ++ "-" ++ ls));
        [ rewrite Htext, !append_assoc; reflexivity
        | rewrite !append_length; simpl; lia
        | reflexivity ].
    + apply (substring_at "" (String c u)
               (" " ++ verb ++ " series " ++ ws ++ "-" ++ ls));
        [ rewrite Htext; reflexivity | reflexivity | reflexivity ].
Qed.

Lemma run_adjective text adj r k v pos g m :
  adj = "even" \/ adj = "tied" ->
  run text r k (pos + String.length adj)%nat v g = Some m ->
  run text (Cat (Alt (word "even") (word "tied")) r) k pos (adj ++ v) g
  = Some m.
Proof.
  intros Hadj Hk. rewrite run_cat.
  change (run text (Alt (word "even") (word "tied")) (run text r k) pos
            (adj ++ v)%string g)
    with (match run text (word "even") (run text r k) pos (adj ++ v)%string g
          with
          | Some m => Some m
          | None => run text (word "tied") (run text r k) pos
                      (adj ++ v)%string g
          end).
  destruct Hadj as [-> | ->].
  - rewrite run_word. now rewrite Hk.
  - replace (run text (word "even") (run text r k) pos ("tied" ++ v)%string g)
      with (@None groups) by reflexivity.
    rewrite run_word. exact Hk.
Qed.

Lemma tied_run text adj ws ws2 :
  text = ("Series " ++ adj ++ " " ++ ws ++ "-" ++ ws2)%string ->
  adj = "even" \/ adj = "tied" ->
  ws <> "" -> all_chars is_digit ws = true ->
  ws2 <> "" -> all_chars is_digit ws2 = true ->
  run text _TIED_RE (fun _ _ g => Some g) 0%nat
    ("Series " ++ adj ++ " " ++ ws ++ "-" ++ ws2)%string []
  = Some [("wins2", ws2); ("wins", ws)].
Proof.
  intros Htext Hadj Hne Hws Hne2 Hws2.
  unfold _TIED_RE, sequence. cbn [fold_right].
  change ("Series " ++ adj ++ " " ++ ws ++ "-" ++ ws2)%string
    with ("Series" ++ " " ++ adj ++ " " ++ ws ++ "-" ++ ws2)%string.
  rewrite run_word_cat.
  apply (run_plus text SpaceChar _ _ " "); [discriminate | reflexivity | |].
  { destruct Hadj as [-> | ->]; reflexivity. }
  apply run_adjective; [exact Hadj |].
  apply (run_plus text SpaceChar _ _ " "); [discriminate | reflexivity | |].
  { now apply digit_head_not_space. }
  apply run_group_plus; [exact Hne | exact Hws | reflexivity |].
  change ("-" ++ ws2)%string with (String "-" ws2).
  rewrite run_one_cat.
  rewrite <- (append_nil_r ws2) at 1.
  apply run_group_plus; [exact Hne2 | exact Hws2 | exact I |].
  cbn [run]. f_equal.
  repeat match goal with
         | |- _ :: _ = _ :: _ => f_equal
         | |- (_, _) = (_, _) => f_equal
         end.
  - apply (substring_at ("Series " ++ adj ++ " " ++ ws ++ "-") ws2 "");
      [ rewrite Htext, append_nil_r, !append_assoc; reflexivity
      | rewrite !append_length; simpl; lia
      | reflexivity ].
  - apply (substring_at ("Series " ++ adj ++ " ") ws ("-" ++ ws2));
      [ rewrite Htext, !append_assoc; reflexivity
      | rewrite !append_length; simpl; lia
      | reflexivity ].
Qed.

Lemma count_spaces_app a b :
  count_spaces (a ++ b) = (count_spaces a + count_spaces b)%nat.
Proof. induction a as [| c a IH]; simpl; [reflexivity |]. rewrite IH. lia. Qed.

Lemma count_spaces_run w : run_of is_space w -> (1 <= count_spaces w)%nat.
Proof.
  intros [Hne H]. destruct w as [| c w]; [contradiction |].
  simpl in H. apply andb_prop in H. destruct H as [Hc _].
  simpl. rewrite Hc. lia.
Qed.

Lemma count_spaces_digits s :
  all_chars is_digit s = true -> count_spaces s = 0%nat.
Proof.
  intros H. apply digits_no_space in H.
  induction s as [| c s IH]; [reflexivity |].
  simpl in H. apply andb_prop in H. destruct H as [Hc Hs].
  apply negb_true_iff in Hc. simpl. rewrite Hc. now apply IH.
Qed.

Lemma tied_summary_not_leads adj ws ws2 :
  adj = "even" \/ adj = "tied" ->
  all_chars is_digit ws = true -> all_chars is_digit ws2 = true ->
  re_match _SERIES_RE ("Series " ++ adj ++ " " ++ ws ++ "-" ++ ws2) = None.
Proof.
  intros Hadj Hws Hws2. apply series_re_none.
  intros team verb w l
    (s1 & s2 & kw & s3 & rest & Ht & _ & H1 & H2 & H3 & _).
  apply (f_equal count_spaces) in Ht.
  rewrite !count_spaces_app in Ht.
  apply count_spaces_run in H1, H2, H3.
  rewrite (count_spaces_digits _ Hws), (count_spaces_digits _ Hws2) in Ht.
  destruct Hadj as [-> | ->]; simpl in Ht; lia.
Qed.

(** X16. The label for a summary in the usual wording
    [team leads series W-L] or [team wins series W-L], for an ASCII team
    text without white space, competitors with ASCII names and printable
    counts [W], [L] >= 0, in closed form:
    with the leader the abbreviation the team text resolves to, it is
    [leader leads series (W-1)-L] when the verb is [wins] or the leader
    is the winner the code picks, and [leader leads series W-(L-1)]
    otherwise. *)
Theorem series_label_of_usual_summary :
  forall (py_repr : json -> string) cd c0 c1 k0 k1 team verb W L,
    assoc "competitors" cd = Some (JList [c0; c1]) ->
    view_competitor c0 = Some k0 ->
    view_competitor c1 = Some k1 ->
    ascii_names k0 = true -> ascii_names k1 = true ->
    team <> "" ->
    is_ascii team = true ->
    all_chars (fun c => negb (is_space c)) team = true ->
    verb = "leads" \/ verb = "wins" ->
    0 <= W -> printable W -> 0 <= L -> printable L ->
    let leader :=
      if is_alias team k0 then abbr_of k0
      else if is_alias team k1 then abbr_of k1
      else team in
    _series_before_game py_repr (JStr (summary_text team verb W L)) (JDict cd)
    = Ok (if String.eqb verb "wins" then label leader (W - 1) L
          else if String.eqb leader (abbr_of (picked_winner k0 k1))
               then label leader (W - 1) L
               else label leader W (L - 1)).
Proof.
  intros py_repr cd c0 c1 k0 k1 team verb W L Hcs V0 V1 _ _ Hne _ Hteam
    Hverb HW HpW HL HpL leader.
  destruct (str_of_int_digits W HW) as [HdW HnW].
  destruct (str_of_int_digits L HL) as [HdL HnL].
  rewrite (series_before_game_view py_repr cd c0 c1 k0 k1 Hcs V0 V1).
  unfold re_match, summary_text.
  rewrite (series_run _ team verb (str_of_int W) (str_of_int L) eq_refl
             Hne Hteam Hverb HnW HdW HnL HdL).
  cbn [group String.eqb Ascii.eqb Bool.eqb bind].
  rewrite (py_int_str_of_int W HW HpW), (py_int_str_of_int L HL HpL).
  cbn [bind]. rewrite resolve_abbr_pair. fold leader.
  assert (Hl : lower verb = verb) by (destruct Hverb as [-> | ->]; reflexivity).
  rewrite Hl.
  destruct (String.eqb verb "wins"); [reflexivity |].
  now destruct (String.eqb leader _).
Qed.

(** X17. The label for [Series tied W-W2] or [Series even W-W2] is
    [loser leads series W-(W-1)], with the loser the code picks; the
    second count is not read. *)
Theorem series_label_of_tied_summary :
  forall (py_repr : json -> string) cd c0 c1 k0 k1 adj W W2,
    assoc "competitors" cd = Some (JList [c0; c1]) ->
    view_competitor c0 = Some k0 ->
    view_competitor c1 = Some k1 ->
    adj = "even" \/ adj = "tied" ->
    0 <= W -> printable W -> 0 <= W2 -> printable W2 ->
    _series_before_game py_repr (JStr (tied_summary adj W W2)) (JDict cd)
    = Ok (label (abbr_of (picked_loser k0 k1)) W (W - 1)).
Proof.
  intros py_repr cd c0 c1 k0 k1 adj W W2 Hcs V0 V1 Hadj HW HpW HW2 _.
  destruct (str_of_int_digits W HW) as [HdW HnW].
  destruct (str_of_int_digits W2 HW2) as [HdW2 HnW2].
  rewrite (series_before_game_view py_repr cd c0 c1 k0 k1 Hcs V0 V1).
  unfold tied_summary.
  rewrite (tied_summary_not_leads _ _ _ Hadj HdW HdW2).
  unfold re_match.
  rewrite (tied_run _ adj (str_of_int W) (str_of_int W2) eq_refl
             Hadj HnW HdW HnW2 HdW2).
  cbn [group String.eqb Ascii.eqb Bool.eqb bind].
  now rewrite (py_int_str_of_int W HW HpW).
Qed.

(** ** Events and records *)

Section EventRecords.

Variable py_repr : json -> string.
Variable espn_summary : string -> result json.
Variable find_replay_link_for_team : json -> result json.

Lemma is_post_state ev state :
  event_state ev = Ok state -> is_post ev = String.eqb state "post".
Proof. unfold is_post. now intros ->. Qed.

Lemma evaluate_event_skip out ev out' :
  evaluate_event py_repr espn_summary find_replay_link_for_team out ev = Ok out' -> is_post ev = false -> out' = out.
Proof.
  intros H Hp.
  destruct (evaluate_event_inv _ _ _ _ _ _ H) as (state & Hs & Hc).
  rewrite (is_post_state _ _ Hs) in Hp. now rewrite Hp in Hc.
Qed.

Lemma evaluate_event_post out ev out' :
  evaluate_event py_repr espn_summary find_replay_link_for_team out ev = Ok out' -> is_post ev = true ->
  exists comp first second h a summary name box ps players g,
    competition_of ev = Ok comp
    /\ competitors_of comp = Ok (first, second)
    /\ sides_of first second = Ok (h, a)
    /\ summary_of comp = Ok summary
    /\ full_name h = Ok name
    /\ out' = out ++ [g]
    /\ item ev "id" = Ok (gameId g)
    /\ item ev "date" = Ok (tipoffUTC g)
    /\ team_field h "abbreviation" = Ok (home g)
    /\ team_field a "abbreviation" = Ok (away g)
    /\ team_field h "logo" = Ok (homeLogo g)
    /\ team_field a "logo" = Ok (awayLogo g)
    /\ _parse_round_and_game ev = Ok (round g, gameNum g)
    /\ _series_before_game py_repr summary comp = Ok (seriesPre g)
    /\ find_replay_link_for_team name = Ok (replayLink g)
    /\ get_or (match (id <- item ev "id" ;;
                      _fetch_summary espn_summary (py_format py_repr id)) with
               | Ok data => data
               | Raise _ => JDict []
               end) "boxscore" (JDict []) = Ok box
    /\ _collect_players box = Ok ps
    /\ match ps with
       | [] => _fallback_leaders comp
       | _ => Ok ps
       end = Ok players
    /\ evaluate_badges players h a comp = Ok (badges g).
Proof.
  intros H Hp. unfold is_post, event_state in Hp.
  unfold evaluate_event, competition_of, competitors_of, summary_of,
    team_field, full_name, sides_of in *.
  apply bind_ok in H. destruct H as (comps & Ec & H). rewrite Ec in *.
  cbn [bind] in *.
  apply bind_ok in H. destruct H as (comp & Ecomp & H). rewrite Ecomp in *.
  cbn [bind] in *.
  apply bind_ok in H. destruct H as (status & Est & H). rewrite Est in *.
  cbn [bind] in *.
  apply bind_ok in H. destruct H as (ty & Ety & H). rewrite Ety in *.
  cbn [bind] in *.
  apply bind_ok in H. destruct H as (state0 & Es0 & H). rewrite Es0 in *.
  cbn [bind] in *.
  apply bind_ok in H. destruct H as (state & Es & H). rewrite Es in *.
  rewrite Hp in H. cbn [negb] in H.
  apply bind_ok in H. destruct H as (pair & Epair & H).
  apply bind_ok in H. destruct H as ([first second] & Eun & H).
  apply bind_ok in H. destruct H as (ha & Eha & H).
  exists comp, first, second.
  exists (fst (if py_eq ha (JStr "away") then (second, first)
               else (first, second))).
  exists (snd (if py_eq ha (JStr "away") then (second, first)
               else (first, second))).
  destruct (if py_eq ha (JStr "away") then (second, first)
            else (first, second)) as [h a] eqn:Eside.
  cbn [fst snd].
  apply bind_ok in H. destruct H as ([round_txt game_txt] & Erg & H).
  apply bind_ok in H. destruct H as (series & Eser & H).
  apply bind_ok in H. destruct H as (summary & Esum & H).
  apply bind_ok in H. destruct H as (series_pre & Epre & H).
  apply bind_ok in H. destruct H as (season & _ & H).
  apply bind_ok in H. destruct H as (st & _ & H).
  apply bind_ok in H. destruct H as (game_type & _ & H).
  cbv zeta in H.
  apply bind_ok in H. destruct H as (box & Ebox & H).
  apply bind_ok in H. destruct H as (players0 & Eps & H).
  apply bind_ok in H. destruct H as (players & Epl & H).
  apply bind_ok in H. destruct H as (bs & Ebs & H).
  apply bind_ok in H. destruct H as (ht & Eht & H).
  apply bind_ok in H. destruct H as (dn & Edn & H).
  apply bind_ok in H. destruct H as (full_home & Efull & H).
  apply bind_ok in H. destruct H as (replay_link & Erl & H).
  apply bind_ok in H. destruct H as (id & Eid & H).
  apply bind_ok in H. destruct H as (date & Edate & H).
  apply bind_ok in H. destruct H as (h_ab & Ehab & H).
  apply bind_ok in H. destruct H as (at_ & Eat & H).
  apply bind_ok in H. destruct H as (a_ab & Eaab & H).
  apply bind_ok in H. destruct H as (h_logo & Ehl & H).
  apply bind_ok in H. destruct H as (a_logo & Eal & H).
  inversion H; subst out'; clear H.
  exists summary, full_home, box, players0, players. eexists. cbn [gameId tipoffUTC home away homeLogo awayLogo round gameNum seriesPre
       replayLink badges].
  rewrite Epair, Eser, Eht, Eat. cbn [bind]. rewrite Eun, Eha, Edn. cbn [bind].
  rewrite Eside.
  repeat match goal with |- _ /\ _ => split end; try reflexivity; assumption.
Qed.

Lemma evaluate_event_from_empty out ev :
  evaluate_event py_repr espn_summary find_replay_link_for_team out ev = (gs <- evaluate_event py_repr espn_summary find_replay_link_for_team [] ev ;; Ok (out ++ gs)).
Proof.
  unfold evaluate_event.
  repeat match goal with
         | |- bind ?c _ = bind (bind ?c _) _ =>
             destruct c; cbn [bind]; [| reflexivity]
         end.
  destruct (negb _); cbn [bind]; [now rewrite app_nil_r |].
  repeat match goal with
         | |- bind ?c _ = bind (bind ?c _) _ =>
             destruct c; cbn [bind]; [| reflexivity]
         | |- context [let '(_, _) := ?p in _] => destruct p
         end.
  cbv zeta.
  repeat match goal with
         | |- bind ?c _ = bind (bind ?c _) _ =>
             destruct c; cbn [bind]; [| reflexivity]
         | |- context [let '(_, _) := ?p in _] => destruct p
         end.
  reflexivity.
Qed.

Lemma evaluate_games_from out : forall events,
  foldM (evaluate_event py_repr espn_summary find_replay_link_for_team) events out
  = (gs <- foldM (evaluate_event py_repr espn_summary find_replay_link_for_team) events [] ;; Ok (out ++ gs)).
Proof.
  intros events. revert out.
  induction events as [| ev events IH]; intros out.
  - simpl. now rewrite app_nil_r.
  - cbn [foldM]. rewrite (evaluate_event_from_empty out).
    destruct (evaluate_event py_repr espn_summary find_replay_link_for_team [] ev) as [gs |]; [| reflexivity]. cbn [bind].
    rewrite (IH (out ++ gs)), (IH gs).
    destruct (foldM _ events []) as [gs' |]; [| reflexivity]. cbn [bind].
    now rewrite app_assoc.
Qed.

End EventRecords.

(** X18. [_evaluate_games] returns one record for each event whose
    state reads [post], in the order of the events and carrying the
    event's id and date; events in another state leave no record. *)
Theorem one_record_per_finished_event :
  forall (py_repr : json -> string) espn_summary find_replay_link_for_team
         sd events games,
    get_or (JDict sd) "events" (JList []) = Ok (JList events) ->
    _evaluate_games py_repr espn_summary find_replay_link_for_team (JDict sd)
    = Ok games ->
    Forall2 record_of (filter is_post events) games.
Proof.
  intros rp es fr sd events games He H.
  unfold _evaluate_games in H. rewrite He in H. cbn [bind iter] in H.
  clear He. revert games H.
  induction events as [| ev events IH]; intros games H.
  - inversion H; subst. constructor.
  - cbn [foldM] in H. apply bind_ok in H. destruct H as (out & Hev & H).
    rewrite evaluate_games_from in H.
    apply bind_ok in H. destruct H as (gs & Hgs & H).
    inversion H; subst games; clear H.
    cbn [filter]. destruct (is_post ev) eqn:Hp.
    + destruct (evaluate_event_post _ _ _ _ _ _ Hev Hp)
        as (comp & first & second & h & a & summary & name & box & ps
            & players & g & _ & _ & _ & _ & _ & -> & Hid & Hdate & _).
      cbn [app]. constructor; [now split | now apply IH].
    + rewrite (evaluate_event_skip _ _ _ _ _ _ Hev Hp). now apply IH.
Qed.

(** X19. Home and away in a record: the first listed competitor is the
    home side unless its ["homeAway"] is ["away"], in which case the two
    are swapped; the second competitor's ["homeAway"] is not read. The
    abbreviations and logos are those of the sides so chosen, and the
    replay link is looked up for the home side's display name, or its
    name when the display name is empty. *)
Theorem record_home_and_away :
  forall (py_repr : json -> string) espn_summary find_replay_link_for_team
         out ev out' comp first second,
    evaluate_event py_repr espn_summary find_replay_link_for_team out ev
    = Ok out' ->
    is_post ev = true ->
    competition_of ev = Ok comp ->
    competitors_of comp = Ok (first, second) ->
    exists g ha,
      out' = out ++ [g]
      /\ item first "homeAway" = Ok ha
      /\ let '(h, a) := if py_eq ha (JStr "away") then (second, first)
                        else (first, second) in
         team_field h "abbreviation" = Ok (home g)
         /\ team_field a "abbreviation" = Ok (away g)
         /\ team_field h "logo" = Ok (homeLogo g)
         /\ team_field a "logo" = Ok (awayLogo g)
         /\ exists name, full_name h = Ok name
                         /\ find_replay_link_for_team name = Ok (replayLink g).
Proof.
  intros rp es fr out ev out' comp first second H Hp Hc Hcs.
  destruct (evaluate_event_post _ _ _ _ _ _ H Hp)
    as (comp' & first' & second' & h & a & summary & name & box & ps
        & players & g & Hc' & Hcs' & Hsides & _ & Hname & -> & _ & _ & Hh
        & Ha & Hhl & Hal & _ & _ & Hr & _).
  rewrite Hc in Hc'. inversion Hc'; subst comp'.
  rewrite Hcs in Hcs'. inversion Hcs'; subst first' second'.
  unfold sides_of in Hsides. apply bind_ok in Hsides.
  destruct Hsides as (ha & Hha & Hs). inversion Hs as [Hs'].
  exists g, ha. split; [reflexivity |]. split; [exact Hha |].
  rewrite Hs'. eauto 10.
Qed.

(** X20. The series label of a record is [_series_before_game] applied
    to the competition's series summary, the empty text when absent, and
    its round and game are those of [_parse_round_and_game]; a
    competition without ["series"] gets the empty label. *)
Theorem record_series_label :
  forall (py_repr : json -> string) espn_summary find_replay_link_for_team
         out ev out' comp,
    evaluate_event py_repr espn_summary find_replay_link_for_team out ev
    = Ok out' ->
    is_post ev = true ->
    competition_of ev = Ok comp ->
    exists g summary,
      out' = out ++ [g]
      /\ summary_of comp = Ok summary
      /\ _series_before_game py_repr summary comp = Ok (seriesPre g)
      /\ _parse_round_and_game ev = Ok (round g, gameNum g)
      /\ (forall cd, comp = JDict cd -> assoc "series" cd = None ->
          seriesPre g = "").
Proof.
  intros rp es fr out ev out' comp H Hp Hc.
  destruct (evaluate_event_post _ _ _ _ _ _ H Hp)
    as (comp' & first & second & h & a & summary & name & box & ps
        & players & g & Hc' & Hcs & Hsides & Hsum & _ & -> & _ & _ & _ & _
        & _ & _ & Hrg & Hpre & _).
  rewrite Hc in Hc'. inversion Hc'; subst comp'.
  exists g, summary. refine (conj eq_refl (conj Hsum (conj Hpre (conj Hrg _)))).
  intros cd -> Hnone. unfold summary_of in Hsum. cbn [get_or bind] in Hsum.
  rewrite Hnone in Hsum. cbn [assoc] in Hsum. inversion Hsum; subst summary.
  unfold _series_before_game in Hpre.
  repeat (apply bind_ok in Hpre; destruct Hpre as (? & _ & Hpre)).
  change (re_match _SERIES_RE "") with (@None groups) in Hpre.
  change (re_match _TIED_RE "") with (@None groups) in Hpre.
  now inversion Hpre.
Qed.

(** X21. A summary fetch that raises, or that returns something other
    than a dict, changes nothing else: the event is evaluated exactly as
    with an empty summary. *)
Theorem failed_summary_is_empty_summary :
  forall (py_repr : json -> string) espn_summary find_replay_link_for_team
         out ev,
    (forall id data, item ev "id" = Ok id ->
       espn_summary (py_format py_repr id) = Ok data -> is_dict data = false) ->
    evaluate_event py_repr espn_summary find_replay_link_for_team out ev
    = evaluate_event py_repr (fun _ => Ok (JDict []))
        find_replay_link_for_team out ev.
Proof.
  intros rp es fr out ev Hfail. unfold evaluate_event.
  assert (Hs : match (id <- item ev "id" ;; _fetch_summary es (py_format rp id)) with
               | Ok data => data
               | Raise _ => JDict []
               end
               = match (id <- item ev "id" ;;
                        _fetch_summary (fun _ => Ok (JDict [])) (py_format rp id)) with
                 | Ok data => data
                 | Raise _ => JDict []
                 end).
  { destruct (item ev "id") as [id |] eqn:Eid; [| reflexivity].
    cbn [bind]. unfold _fetch_summary. cbn [bind get_or assoc].
    destruct (es (py_format rp id)) as [data |] eqn:Ed; [| reflexivity].
    cbn [bind]. pose proof (Hfail _ _ eq_refl Ed) as Hd.
    destruct data; try reflexivity; discriminate. }
  now rewrite Hs.
Qed.

(** X22. An event on which the loop body raises makes the whole of
    [_evaluate_games] raise: no partial list of records is returned. *)
Theorem failing_event_fails_batch :
  forall (py_repr : json -> string) espn_summary find_replay_link_for_team
         sd before ev after out e,
    get_or (JDict sd) "events" (JList []) = Ok (JList (before ++ ev :: after)) ->
    evaluate_event py_repr espn_summary find_replay_link_for_team out ev
    = Raise e ->
    exists e',
      _evaluate_games py_repr espn_summary find_replay_link_for_team (JDict sd)
      = Raise e'.
Proof.
  intros rp es fr sd before ev after out e He Hev.
  unfold _evaluate_games. rewrite He. cbn [bind iter].
  rewrite foldM_app.
  destruct (foldM _ before []) as [gs |]; [| cbn [bind]; eauto].
  cbn [bind foldM].
  rewrite evaluate_event_from_empty in Hev |- *.
  destruct (evaluate_event rp es fr [] ev); [discriminate |].
  cbn [bind]. eauto.
Qed.

(** X23. The badges of a record are computed from the box-score lines
    of the fetched summary when there are any, and from the leaders of
    the competition only when the box score yields none. *)
Theorem badges_from_box_score_or_leaders :
  forall (py_repr : json -> string) espn_summary find_replay_link_for_team
         out ev out' comp first second h a id sd ps,
    evaluate_event py_repr espn_summary find_replay_link_for_team out ev
    = Ok out' ->
    is_post ev = true ->
    competition_of ev = Ok comp ->
    competitors_of comp = Ok (first, second) ->
    sides_of first second = Ok (h, a) ->
    item ev "id" = Ok id ->
    espn_summary (py_format py_repr id) = Ok (JDict sd) ->
    _collect_players (match assoc "boxscore" sd with
                      | Some b => b
                      | None => JDict []
                      end) = Ok ps ->
    exists g,
      out' = out ++ [g]
      /\ (ps <> [] -> evaluate_badges ps h a comp = Ok (badges g))
      /\ (ps = [] ->
          exists ls, _fallback_leaders comp = Ok ls
                     /\ evaluate_badges ls h a comp = Ok (badges g)).
Proof.
  intros rp es fr out ev out' comp first second h a id sd ps H Hp Hc Hcs Hs
    Hid Hsum Hps.
  destruct (evaluate_event_post _ _ _ _ _ _ H Hp)
    as (comp' & first' & second' & h' & a' & summary & name & box & ps'
        & players & g & Hc' & Hcs' & Hsides & _ & _ & -> & _ & _ & _ & _
        & _ & _ & _ & _ & _ & Hbox & Hps' & Hpl & Hb).
  rewrite Hc in Hc'. inversion Hc'; subst comp'.
  rewrite Hcs in Hcs'. inversion Hcs'; subst first' second'.
  rewrite Hs in Hsides. inversion Hsides; subst h' a'.
  rewrite Hid in Hbox. cbn [bind] in Hbox. unfold _fetch_summary in Hbox.
  rewrite Hsum in Hbox. cbn [bind get_or] in Hbox.
  inversion Hbox; subst box. rewrite Hps in Hps'. inversion Hps'; subst ps'.
  exists g. split; [reflexivity |]. split.
  - intros Hne. destruct ps as [| p ps]; [contradiction |].
    inversion Hpl; subst players. exact Hb.
  - intros ->. eauto.
Qed.

(** ** The replay-link lookup *)

Lemma words_blank : forall s cur,
  all_chars is_space s = true -> words_from s cur = words_from "" cur.
Proof.
  induction s as [| c s IH]; intros cur H; [reflexivity |].
  simpl in H. apply andb_prop in H. destruct H as [Hc Hs].
  cbn [words_from]. rewrite Hc, (IH "" Hs). simpl.
  now destruct (String.eqb cur "").
Qed.

Lemma rstrip_blank : forall s, rstrip s = "" -> all_chars is_space s = true.
Proof.
  induction s as [| c s IH]; [reflexivity |]. simpl.
  destruct (rstrip s); [| discriminate].
  destruct (is_space c); [intros _; now rewrite IH | discriminate].
Qed.

Lemma words_rstrip : forall s cur,
  words_from (rstrip s) cur = words_from s cur.
Proof.
  induction s as [| c s IH]; intros cur; [reflexivity |].
  cbn [rstrip]. destruct (rstrip s) as [| k kept] eqn:E.
  - pose proof (rstrip_blank _ E) as Hb.
    destruct (is_space c) eqn:Ec; cbn [words_from]; rewrite Ec.
    + rewrite (words_blank _ _ Hb). simpl. now destruct (String.eqb cur "").
    + now rewrite (words_blank _ _ Hb).
  - assert (Hstep : forall t, words_from (String c t) cur
                            = if is_space c
                              then if String.eqb cur "" then words_from t ""
                                   else cur :: words_from t ""
                              else words_from t (cur ++ String c ""))
      by reflexivity.
    now rewrite !Hstep, !IH.
Qed.

Lemma words_lstrip : forall s, words_from (lstrip s) "" = words_from s "".
Proof.
  induction s as [| c s IH]; [reflexivity |].
  cbn [lstrip]. destruct (is_space c) eqn:Ec.
  - cbn [words_from]. now rewrite Ec.
  - reflexivity.
Qed.

Lemma words_strip s : words (strip s) = words s.
Proof. unfold words, strip. now rewrite words_rstrip, words_lstrip. Qed.

Lemma is_space_lower c : is_space (lower_char c) = is_space c.
Proof.
  destruct c as [[] [] [] [] [] [] [] []]; reflexivity.
Qed.

Lemma lower_app a b : lower (a ++ b) = (lower a ++ lower b)%string.
Proof.
  induction a as [| c a IH]; [reflexivity |].
  change (lower (String c a ++ b)) with (String (lower_char c) (lower (a ++ b))).
  now rewrite IH.
Qed.

Lemma lower_empty s : String.eqb (lower s) "" = String.eqb s "".
Proof. now destruct s. Qed.

Lemma words_lower : forall s cur,
  words_from (lower s) (lower cur) = map lower (words_from s cur).
Proof.
  induction s as [| c s IH]; intros cur.
  - simpl. rewrite lower_empty. now destruct (String.eqb cur "").
  - change (lower (String c s)) with (String (lower_char c) (lower s)).
    cbn [words_from]. rewrite is_space_lower, lower_empty.
    destruct (is_space c).
    + destruct (String.eqb cur ""); [apply (IH "") |].
      simpl. f_equal. apply (IH "").
    + rewrite <- IH, lower_app. reflexivity.
Qed.

Lemma slug_of_words name :
  slug_of (JStr name) = (w <- last_item (words name) ;; Ok (lower w)).
Proof.
  unfold slug_of, words. rewrite (words_lower _ ""). fold (words (strip name)).
  rewrite words_strip. unfold last_item, words. rewrite <- map_rev.
  now destruct (rev (words_from name "")).
Qed.

Lemma words_from_none : forall s cur,
  words_from s cur = [] <-> cur = "" /\ all_chars is_space s = true.
Proof.
  induction s as [| c s IH]; intros cur.
  - simpl. destruct cur; simpl; intuition discriminate.
  - cbn [words_from all_chars]. destruct (is_space c).
    + destruct cur as [| k cur]; cbn [String.eqb andb].
      * rewrite IH. tauto.
      * intuition discriminate.
    + rewrite IH. cbn [andb]. split; [| intuition discriminate].
      intros [H _]. destruct cur; discriminate.
Qed.

Section ReplayProps.

Variable fetch_page : string -> result string.
Variable anchor_hrefs : string -> list string.
Variable urljoin : string -> string -> string.

(** X24. For an ASCII team name and ASCII link targets, the replay link
    is the first link of the page, in page order, whose lower-cased
    target contains the lower-cased last word of the team name;
    surrounding white space in the name has no effect. The link is joined
    to the base address. *)
Theorem replay_link_first_match :
  forall name w html before href after,
    is_ascii name = true ->
    last_item (words name) = Ok w ->
    fetch_page (BASE_REPLAY_URL ++ "/") = Ok html ->
    anchor_hrefs html = before ++ href :: after ->
    forallb (fun h => is_ascii h && negb (contains (lower w) (lower h)))
            before = true ->
    is_ascii href = true ->
    contains (lower w) (lower href) = true ->
    find_replay_link_for_team fetch_page anchor_hrefs urljoin (JStr name)
    = Ok (JStr (urljoin BASE_REPLAY_URL href)).
Proof.
  intros name w html before href after _ Hw Hf Ha Hb _ Hh.
  unfold find_replay_link_for_team. rewrite slug_of_words, Hw. cbn [bind].
  rewrite Hf, Ha. clear Ha.
  induction before as [| b before IH]; cbn [app find].
  - now rewrite Hh.
  - cbn [forallb] in Hb. apply andb_prop in Hb. destruct Hb as [Hb1 Hb2].
    apply andb_prop in Hb1. destruct Hb1 as [_ Hb1].
    apply negb_true_iff in Hb1. rewrite Hb1. now apply IH.
Qed.

(** X25. For an ASCII team name with at least one word: when the page
    cannot be fetched, or its link targets are ASCII and none contains
    the slug, the result is [None] and nothing is raised. *)
Theorem replay_link_none :
  forall name w,
    is_ascii name = true ->
    last_item (words name) = Ok w ->
    (forall html, fetch_page (BASE_REPLAY_URL ++ "/") = Ok html ->
       forallb (fun h => is_ascii h && negb (contains (lower w) (lower h)))
               (anchor_hrefs html) = true) ->
    find_replay_link_for_team fetch_page anchor_hrefs urljoin (JStr name)
    = Ok JNull.
Proof.
  intros name w _ Hw Hnone.
  unfold find_replay_link_for_team. rewrite slug_of_words, Hw. cbn [bind].
  destruct (fetch_page _) as [html |]; [| reflexivity].
  specialize (Hnone html eq_refl).
  induction (anchor_hrefs html) as [| h hs IH]; [reflexivity |].
  cbn [forallb] in Hnone. apply andb_prop in Hnone.
  destruct Hnone as [H1 H2]. apply andb_prop in H1.
  destruct H1 as [_ H1]. apply negb_true_iff in H1.
  cbn [find]. rewrite H1. now apply IH.
Qed.

(** X26. A team name that is empty or all white space raises
    [IndexError], whatever the page is: the slug is taken before the
    page is fetched. *)
Theorem replay_link_blank_name :
  forall name,
    all_chars is_space name = true ->
    find_replay_link_for_team fetch_page anchor_hrefs urljoin (JStr name)
    = Raise IndexError.
Proof.
  intros name Hb. unfold find_replay_link_for_team.
  rewrite slug_of_words.
  assert (H : words name = []) by (apply words_from_none; auto).
  now rewrite H.
Qed.

End ReplayProps.

(** ** The further properties on sample documents *)

(** X2 on a negative integer. *)
Lemma to_int_of_printed_int_witness :
  _to_int (JStr (str_of_int (-1205))) = Ok (-1205).
Proof.
  apply (to_int_of_printed_int (-1205)). vm_compute. reflexivity.
Defined.

(** X3 on a header row with a long form: points are in column 2. *)
Lemma lookup_known_key_witness :
  _lookup ["MIN"; "REB"; "POINTS"] "PTS"
  = Ok (index_of (column Pts ["MIN"; "REB"; "POINTS"]))
  /\ -1 <= index_of (column Pts ["MIN"; "REB"; "POINTS"])
        < Z.of_nat (List.length ["MIN"; "REB"; "POINTS"])
  /\ (index_of (column Pts ["MIN"; "REB"; "POINTS"]) = -1
      <-> column Pts ["MIN"; "REB"; "POINTS"] = None).
Proof.
  exact (lookup_known_key ["MIN"; "REB"; "POINTS"] "PTS" Pts eq_refl).
Defined.

(** X4 on the key [stl]. *)
Lemma lookup_unknown_key_witness :
  _lookup ["MIN"; "REB"] "stl" = Raise KeyError
  /\ _lookup [] "stl" = Ok (-1).
Proof.
  apply (lookup_unknown_key "MIN" ["REB"] "stl"); simpl; discriminate.
Defined.

(** X5 on a roster of two players. *)
Lemma format_b_lines_witness :
  _collect_players (JDict [("players", JList format_b_rosters)])
  = Ok [mk_line (JStr "A") 31 12 0; mk_line (JStr "B") 9 0 0].
Proof.
  exact (proj1 (format_b_lines [("players", JList format_b_rosters)]
                  format_b_rosters _ eq_refl eq_refl)).
Defined.

(** X6 on a Format A roster followed by a Format B roster. *)
Lemma collect_players_concat_witness :
  _collect_players
    (JDict [("players", JList (format_a_rosters ++ format_b_rosters))])
  = (l1 <- _collect_players (JDict [("players", JList format_a_rosters)]) ;;
     l2 <- _collect_players (JDict [("players", JList format_b_rosters)]) ;;
     Ok (l1 ++ l2)).
Proof.
  exact (collect_players_concat
           [("players", JList (format_a_rosters ++ format_b_rosters))]
           [("players", JList format_a_rosters)]
           [("players", JList format_b_rosters)]
           format_a_rosters format_b_rosters eq_refl eq_refl eq_refl).
Defined.

(** X7 on four rosters of neither format. *)
Lemma unrecognised_rosters_give_no_lines_witness :
  _collect_players (JDict [("players", JList odd_rosters)]) = Ok [].
Proof.
  exact (unrecognised_rosters_give_no_lines
           [("players", JList odd_rosters)] odd_rosters eq_refl eq_refl).
Defined.

(** X8 on notes with a headline of three segments. *)
Lemma parse_round_and_game_first_headline_witness :
  _parse_round_and_game (JDict notes_fields)
  = Ok ("East 1st Round", "Game 3").
Proof.
  exact (proj1 (parse_round_and_game_first_headline notes_fields
                  skipped_notes round_note [note_doc "event" "X - Y"]
                  "East 1st Round" "Game 3 - If necessary"
                  eq_refl eq_refl eq_refl eq_refl eq_refl)).
Defined.

(** X9 on notes without a usable headline. *)
Lemma parse_round_and_game_no_headline_witness :
  _parse_round_and_game (JDict [("notes", JList skipped_notes)])
  = Ok ("", "").
Proof.
  exact (parse_round_and_game_no_headline
           [("notes", JList skipped_notes)] skipped_notes eq_refl eq_refl).
Defined.

(** X10 on a competition with one competitor. *)
Lemma series_needs_two_competitors_witness :
  _series_before_game plain_repr (JStr "unparseable free text")
    (JDict lone_competitor) = Raise IndexError.
Proof.
  apply (series_needs_two_competitors plain_repr _ lone_competitor
           [side_doc "home" mavericks true "110"] _ eq_refl eq_refl).
  simpl. lia.
Defined.

(** X11 on a null summary. *)
Lemma series_summary_not_text_witness :
  _series_before_game plain_repr JNull (dallas_beats_boston 4)
  = Raise TypeError.
Proof.
  apply (series_summary_not_text plain_repr JNull
           (dallas_beats_boston_fields 4) _ _ _ _ eq_refl eq_refl eq_refl).
  intros txt. discriminate.
Defined.

(** X12 on four line scores: 28 + 31 + 0. *)
Lemma q3tot_first_three_witness :
  q3tot (JDict side_with_quarters) = Ok 59.
Proof.
  exact (proj1 (q3tot_first_three side_with_quarters quarters _
                  eq_refl eq_refl)).
Defined.

(** X13 on a five-period game decided by eight points. *)
Lemma badge_rules_witness :
  (In "tripleDouble" ["pts50"; "close4"; "closeGame"; "overtime"]
   <-> triple_double fifty_two)
  /\ (In "close4" ["pts50"; "close4"; "closeGame"; "overtime"]
      <-> Z.abs (0 - 0) <= 10)
  /\ (In "closeGame" ["pts50"; "close4"; "closeGame"; "overtime"]
      <-> Z.abs (110 - 102) <= 7 \/ 5 > 4)
  /\ (In "overtime" ["pts50"; "close4"; "closeGame"; "overtime"] <-> 5 > 4).
Proof.
  exact (badge_rules fifty_two (side_doc "home" mavericks true "110")
           (side_doc "away" celtics false "102") (dallas_beats_boston 5)
           _ _ _ _ _ _ eq_refl eq_refl eq_refl eq_refl eq_refl eq_refl).
Defined.

(** X14 on the same game. *)
Lemma badges_in_vocabulary_order_witness :
  subseq ["pts50"; "close4"; "closeGame"; "overtime"] vocabulary = true
  /\ NoDup ["pts50"; "close4"; "closeGame"; "overtime"].
Proof.
  exact (badges_in_vocabulary_order fifty_two
           (side_doc "home" mavericks true "110")
           (side_doc "away" celtics false "102") (dallas_beats_boston 5)
           _ eq_refl).
Defined.

(** X15 on the same game, whose sides have no line scores. *)
Lemma close4_without_linescores_witness :
  In "close4" ["pts50"; "close4"; "closeGame"; "overtime"].
Proof.
  exact (close4_without_linescores fifty_two
           [("homeAway", JStr "home"); ("team", mavericks);
            ("winner", JBool true); ("score", JStr "110")]
           [("homeAway", JStr "away"); ("team", celtics);
            ("winner", JBool false); ("score", JStr "102")]
           (dallas_beats_boston 5) _ eq_refl eq_refl eq_refl).
Defined.

(** X16: Boston led 3-2 after a game Dallas won, so it led 3-1 before. *)
Lemma series_label_of_usual_summary_witness :
  _series_before_game plain_repr (JStr "Celtics leads series 3-2")
    (dallas_beats_boston 4) = Ok "BOS leads series 3-1".
Proof.
  apply (series_label_of_usual_summary plain_repr
           (dallas_beats_boston_fields 4) _ _ _ _ "Celtics" "leads" 3 2
           eq_refl eq_refl eq_refl eq_refl eq_refl).
  - discriminate.
  - reflexivity.
  - reflexivity.
  - left. reflexivity.
  - lia.
  - vm_compute. reflexivity.
  - lia.
  - vm_compute. reflexivity.
Defined.

(** X17: tied 2-2 after Dallas won, so Boston led 2-1. *)
Lemma series_label_of_tied_summary_witness :
  _series_before_game plain_repr (JStr "Series even 2-2")
    (dallas_beats_boston 4) = Ok "BOS leads series 2-1".
Proof.
  apply (series_label_of_tied_summary plain_repr
           (dallas_beats_boston_fields 4) _ _ _ _ "even" 2 2
           eq_refl eq_refl eq_refl).
  - left. reflexivity.
  - lia.
  - vm_compute. reflexivity.
  - lia.
  - vm_compute. reflexivity.
Defined.

(** X18 on a board with an upcoming and a finished event. *)
Lemma one_record_per_finished_event_witness :
  Forall2 record_of (filter is_post [upcoming_doc; event_doc 3 4])
    [playoff_record].
Proof.
  exact (one_record_per_finished_event plain_repr no_summary no_replay
           [("events", JList [upcoming_doc; event_doc 3 4])]
           [upcoming_doc; event_doc 3 4] [playoff_record] eq_refl eq_refl).
Defined.

(** X19 on an event that lists the away side first. *)
Lemma record_home_and_away_witness :
  exists g ha,
    evaluate_event plain_repr no_summary no_replay [] away_first_event
    = Ok ([] ++ [g])
    /\ item (side_doc "away" celtics false "102") "homeAway" = Ok ha
    /\ home g = JStr "DAL" /\ away g = JStr "BOS".
Proof.
  destruct (record_home_and_away plain_repr no_summary no_replay []
              away_first_event _ away_first
              (side_doc "away" celtics false "102")
              (side_doc "home" mavericks true "110")
              eq_refl eq_refl eq_refl eq_refl)
    as (g & ha & Hout & Hha & H).
  exists g, ha. inversion Hout; subst g. inversion Hha; subst ha.
  repeat split.
Defined.

(** X20 on an event without series. *)
Lemma record_series_label_witness :
  exists g summary,
    [playoff_record] = [] ++ [g]
    /\ summary_of (dallas_beats_boston 4) = Ok summary
    /\ _series_before_game plain_repr summary (dallas_beats_boston 4)
       = Ok (seriesPre g)
    /\ _parse_round_and_game (event_doc 3 4) = Ok (round g, gameNum g)
    /\ (forall cd, dallas_beats_boston 4 = JDict cd ->
        assoc "series" cd = None -> seriesPre g = "").
Proof.
  exact (record_series_label plain_repr no_summary no_replay []
           (event_doc 3 4) [playoff_record] (dallas_beats_boston 4)
           eq_refl eq_refl eq_refl).
Defined.

(** X21 with a fetch that always fails. *)
Lemma failed_summary_is_empty_summary_witness :
  evaluate_event plain_repr no_summary no_replay [] (event_doc 3 4)
  = evaluate_event plain_repr (fun _ => Ok (JDict [])) no_replay []
      (event_doc 3 4).
Proof.
  apply (failed_summary_is_empty_summary plain_repr no_summary no_replay []
           (event_doc 3 4)).
  intros id data _ H. discriminate H.
Defined.

(** X22 on a board whose second event has no competitions. *)
Lemma failing_event_fails_batch_witness :
  exists e,
    _evaluate_games plain_repr no_summary no_replay
      (JDict [("events", JList [event_doc 3 4; JDict []])]) = Raise e.
Proof.
  exact (failing_event_fails_batch plain_repr no_summary no_replay
           [("events", JList [event_doc 3 4; JDict []])]
           [event_doc 3 4] (JDict []) [] [] KeyError eq_refl eq_refl).
Defined.

(** X23 with a fetched Format B box score: the best scorer has 31
    points. *)
Lemma badges_from_box_score_or_leaders_witness :
  exists g,
    evaluate_event plain_repr box_summary no_replay [] (event_doc 3 4)
    = Ok ([] ++ [g])
    /\ badges g = ["pts30"; "close4"].
Proof.
  destruct (badges_from_box_score_or_leaders plain_repr box_summary
              no_replay [] (event_doc 3 4) _ (dallas_beats_boston 4)
              (side_doc "home" mavericks true "110")
              (side_doc "away" celtics false "102")
              (side_doc "home" mavericks true "110")
              (side_doc "away" celtics false "102")
              (JStr "401")
              [("boxscore", JDict [("players", JList format_b_rosters)])]
              [mk_line (JStr "A") 31 12 0; mk_line (JStr "B") 9 0 0]
              eq_refl eq_refl eq_refl eq_refl eq_refl eq_refl eq_refl
              eq_refl)
    as (g & Hout & _).
  exists g. inversion Hout; subst g. split; reflexivity.
Defined.

(** X24 on a page with three links: the second is the first to contain
    [mavericks]. *)
Lemma replay_link_first_match_witness :
  find_replay_link_for_team replay_page replay_hrefs plain_join
    (JStr "  Dallas Mavericks ")
  = Ok (JStr (plain_join BASE_REPLAY_URL "/NBA/Dallas-MAVERICKS-game-5")).
Proof.
  exact (replay_link_first_match replay_page replay_hrefs plain_join
           "  Dallas Mavericks " "Mavericks" "<html>"
           ["/nba/boston-celtics-vs-knicks"] "/NBA/Dallas-MAVERICKS-game-5"
           ["/nba/mavericks-again"] eq_refl eq_refl eq_refl eq_refl eq_refl
           eq_refl eq_refl).
Defined.

(** X25 for a team without a link on the page. *)
Lemma replay_link_none_witness :
  find_replay_link_for_team replay_page replay_hrefs plain_join
    (JStr "Utah Jazz") = Ok JNull.
Proof.
  apply (replay_link_none replay_page replay_hrefs plain_join
           "Utah Jazz" "Jazz" eq_refl eq_refl).
  intros html _. reflexivity.
Defined.

(** X26 on a name of three spaces. *)
Lemma replay_link_blank_name_witness :
  find_replay_link_for_team replay_page replay_hrefs plain_join (JStr "   ")
  = Raise IndexError.
Proof.
  exact (replay_link_blank_name replay_page replay_hrefs plain_join "   "
           eq_refl).
Defined.
